(** * ExoVision: the AI-services layer (classifier, spectroscopy, predictive
    analytics), embedded from the JavaScript sources

    - [src/ai-services/ExoplanetClassifier.js]
    - [src/ai-services/PredictiveAnalytics.js]
    - [src/SpectroscopyAI.jsx]

    Conventions of the embedding.

    - A JavaScript number is an exact rational ([Q]); [NaN] is a separate
      value of [jsval], and arithmetic is the ideal one, but for the two
      places where the rounding or the range of doubles decides a result:
      the smoothing and forecasting loops of [analyzeDiscoveryPatterns] are
      carried out in binary64 ([float], the kernel's IEEE 754 doubles), and
      [_calibrate] accounts for the overflow of [Math.exp] to [Infinity].
    - The engine's library functions that the sources call but do not define
      ([Math.exp], [Math.log], [Math.tanh], number printing and parsing, the
      clock) are the fields of the class [Runtime]; what a proof needs from
      them is a named hypothesis of its section.
    - [async]/[await] and the simulated delays carry no data; an [async]
      method is the function from the state before the call to the settled
      outcome and the state after it.  A rejected promise is [Throw]. *)

From Stdlib Require Import Floats.
From Stdlib Require Import ZArith QArith Qround Qabs List String Ascii Bool Lia Lqa.
From Stdlib Require Import Sorted Permutation.
From stdpp Require Import base option gmap strings pretty.
Import ListNotations.

Set Warnings "-inexact-float".

Local Open Scope Z_scope.
Local Open Scope Q_scope.

(** ** JavaScript values and the builtins the sources rely on *)

Module JS.

(** The primitive values a catalog record can hold in a field.  A missing
    property reads as [JUndefined]. *)
Inductive jsval : Type :=
| JUndefined
| JNull
| JBool (b : bool)
| JNum (q : Q)
| JNaN
| JStr (s : string).

Inductive js_error : Type :=
| TypeError (msg : string).

(** Outcome of a call that may throw. *)
Inductive outcome (A : Type) : Type :=
| Ok (a : A)
| Throw (e : js_error).
Arguments Ok {A} a.
Arguments Throw {A} e.

Definition bind {A B} (m : outcome A) (k : A -> outcome B) : outcome B :=
  match m with
  | Ok a => k a
  | Throw e => Throw e
  end.

(** The engine's own functions. *)
Class Runtime : Type := {
  Math_exp : Q -> Q;
  Math_log : Q -> Q;
  Math_tanh : Q -> Q;
(** [Number::toString] on a finite number *)
  NumberToString : Q -> string;
(** [StringToNumber]; [None] is [NaN] *)
  StringToNumber : string -> option Q;
(** [new Date().getFullYear()] *)
  currentYear : Z
}.

(** [ToBoolean] *)
Definition truthy (v : jsval) : bool :=
  match v with
  | JUndefined | JNull | JNaN => false
  | JBool b => b
  | JNum q => negb (Qeq_bool q 0)
  | JStr s => negb (String.eqb s "")
  end.

(** [a || b] on a number: zero is falsy ([NaN] cannot arise from finite
    arithmetic with non-zero divisors). *)
Definition num_or (q d : Q) : Q := if Qeq_bool q 0 then d else q.

Section WithRuntime.
Context {rt : Runtime}.

(** [Number(v)]; [None] is [NaN]. *)
Definition ToNumber (v : jsval) : option Q :=
    match v with
    | JUndefined => None
    | JNull => Some 0
    | JBool true => Some 1
    | JBool false => Some 0
    | JNum q => Some q
    | JNaN => None
    | JStr s => StringToNumber s
    end.

(** [Number(v) || d] *)
Definition Number_or (v : jsval) (d : Q) : Q :=
    match ToNumber v with
    | Some q => num_or q d
    | None => d
    end.

(** [ToString], as a template literal applies it. *)
Definition ToString (v : jsval) : string :=
    match v with
    | JUndefined => "undefined"
    | JNull => "null"
    | JBool true => "true"
    | JBool false => "false"
    | JNum q => NumberToString q
    | JNaN => "NaN"
    | JStr s => s
    end.

(** [v || s] inside a template literal *)
Definition ToString_or (v : jsval) (d : string) : string :=
    if truthy v then ToString v else d.
End WithRuntime.

(** *** Numbers *)

Definition pow10 (d : nat) : Q := inject_Z (10 ^ Z.of_nat d).

(** [+(x.toFixed(d))]: the multiple of [10^-d] nearest to [x], the one of
    larger magnitude on a tie; from [1e21] on, [toFixed] prints the number
    itself. *)
Definition round_half_away (d : nat) (x : Q) : Q :=
  let n := Qfloor (Qabs x * pow10 d + 0.5) in
  inject_Z (Z.sgn (Qnum x) * n) / pow10 d.

Definition toFixed (d : nat) (x : Q) : Q :=
  if Qle_bool (pow10 21) (Qabs x) then x else round_half_away d x.

(** [Math.exp] returns [Infinity] past this argument, the largest double
    whose exponential is a finite double ([o_threshold] of fdlibm's [exp],
    which the engines follow: [0x1.62e42fefa39efp+9]). *)
Definition exp_overflow : Q := 709.7827128933839730962063185870647430419921875.

(** *** Numbers in binary64

    Where the rounding of doubles decides a result, the arithmetic is that
    of [float]: IEEE 754 binary64, rounding to the nearest double, ties to
    even. *)

(** The double nearest to an integer; the integer itself below [2^53] *)
Definition float_of_Z (n : Z) : float :=
  SF2Prim (binary_normalize prec emax n 0 false).

(** [Math.round] on a double [x = (-1)^s * m * 2^e]: the integer
    [floor(x + 1/2)], taken exactly.  A double of exponent [e >= 0] is an
    integer already; [NaN], the infinities and the zeros are returned as
    they are; a negative [x >= -0.5] gives [-0]. *)
Definition Math_round (x : float) : float :=
  match Prim2SF x with
  | S754_finite s m e =>
      if (0 <=? e)%Z then x
      else
        let n := (((if s then Z.neg m else Z.pos m) * 2 + 2 ^ (- e))
                  / 2 ^ (1 - e))%Z in
        if (n =? 0)%Z then (if s then - 0 else 0)%float else float_of_Z n
  | _ => x
  end.

(** [a < b] and [a > b] on numbers *)
Definition Qlt_bool (a b : Q) : bool := negb (Qle_bool b a).
Definition Qgt_bool (a b : Q) : bool := negb (Qle_bool a b).

Definition Math_max (a b : Q) : Q := if Qle_bool a b then b else a.
Definition Math_min (a b : Q) : Q := if Qle_bool a b then a else b.
Definition Math_abs (a : Q) : Q := Qabs a.

(** [xs.reduce((s, v) => s + v, 0)] *)
Definition sumQ (xs : list Q) : Q := fold_left Qplus xs 0.

(** *** Strings *)

Definition lower_ascii (c : ascii) : ascii :=
  let n := nat_of_ascii c in
  if (Nat.leb 65 n && Nat.leb n 90)%bool then ascii_of_nat (n + 32) else c.

Definition upper_ascii (c : ascii) : ascii :=
  let n := nat_of_ascii c in
  if (Nat.leb 97 n && Nat.leb n 122)%bool then ascii_of_nat (n - 32) else c.

Fixpoint map_string (f : ascii -> ascii) (s : string) : string :=
  match s with
  | EmptyString => EmptyString
  | String c s' => String (f c) (map_string f s')
  end.

Definition toLowerCase : string -> string := map_string lower_ascii.
Definition toUpperCase : string -> string := map_string upper_ascii.

(** [s.includes(pat)] *)
Fixpoint includes (pat s : string) : bool :=
  (String.prefix pat s ||
   match s with
   | EmptyString => false
   | String _ s' => includes pat s'
   end)%bool.

(** *** Arrays *)

(** [xs.sort(cmp)] is stable; [before a b] says that [cmp] does not put
    [b] strictly first.  The array is rebuilt from its right end, so an
    element stays ahead of the later ones it ties with. *)
Section Sort.
Context {A : Type} (before : A -> A -> bool).

Fixpoint insert_sorted (x : A) (l : list A) : list A :=
    match l with
    | [] => [x]
    | y :: l' => if before x y then x :: y :: l' else y :: insert_sorted x l'
    end.

Definition sort_by (l : list A) : list A := fold_right insert_sorted [] l.
End Sort.

(** [xs.map((x, idx) => f(idx, x))] *)
Fixpoint mapi_from {A B} (i : nat) (f : nat -> A -> B) (l : list A) : list B :=
  match l with
  | [] => []
  | x :: l' => f i x :: mapi_from (S i) f l'
  end.

Definition mapi {A B} (f : nat -> A -> B) (l : list A) : list B :=
  mapi_from 0 f l.

(** [xs[xs.length - 1]] *)
Fixpoint last_opt {A} (l : list A) : option A :=
  match l with
  | [] => None
  | [x] => Some x
  | _ :: l' => last_opt l'
  end.

(** [xs.slice(start, end)] for indices already clamped to [0..length] *)
Definition slice {A} (start stop : nat) (l : list A) : list A :=
  firstn (stop - start) (skipn start l).

(** [xs.slice(start)] for any integer [start]: a negative one counts from
    the end. *)
Definition slice_from {A} (start : Z) (l : list A) : list A :=
  let len := Z.of_nat (List.length l) in
  let k := if (start <? 0)%Z then Z.max (len + start) 0 else Z.min start len in
  skipn (Z.to_nat k) l.

End JS.
Import JS.

(** ** Planet records *)

(** A catalog record, as the three services read it.  Every field is an
    arbitrary primitive value; a field the object lacks is [JUndefined]. *)
Module Planet.
Record t : Type := mk {
  name : jsval;
  mass : jsval;
  radius : jsval;
  temperature : jsval;
  orbital_period : jsval;
  distance : jsval;
  atmosphere : jsval;
  follow_up_observations : jsval;
  ai_confidence : jsval;
  habitability_score : jsval;
  confirmed_status : jsval;
  discovery_year : jsval
}.

(** The object literal with no property, the default of every [planet = {}]
    parameter. *)
Definition empty : t :=
  mk JUndefined JUndefined JUndefined JUndefined JUndefined JUndefined
     JUndefined JUndefined JUndefined JUndefined JUndefined JUndefined.

Definition with_habitability_score (h : jsval) (p : t) : t :=
  mk (name p) (mass p) (radius p) (temperature p) (orbital_period p)
     (distance p) (atmosphere p) (follow_up_observations p) (ai_confidence p)
     h (confirmed_status p) (discovery_year p).
End Planet.

(** ** PredictiveAnalytics.js *)

Module PredictiveAnalytics.

(** [this.timeWindowYears] and [this.trendSmoothing], set by the constructor *)
Record t : Type := mk {
  timeWindowYears : Z;
  trendSmoothing : Q
}.

(** [new PredictiveAnalytics()] *)
Definition default : t := mk 10 0.6.

Module Series.
Record point : Type := mk { year : Q; count : Z }.
End Series.

Module Forecast.
Record point : Type := mk { year : Q; predicted : float }.
End Forecast.

Record Patterns : Type := mkPatterns {
  series : list Series.point;
  forecasts : list Forecast.point;
  totalPlanets : nat;
  recentGrowth : Q
}.

(** [countsByYear]: the object is keyed by the printed year and its keys are
    read back with [Number]; printing and reading a finite number give it
    back, so the table is keyed by the number. *)
Fixpoint bump (y : Q) (m : list (Q * Z)) : list (Q * Z) :=
  match m with
  | [] => [(y, 1%Z)]
  | (k, c) :: m' =>
      if Qeq_bool k y then (k, (c + 1)%Z) :: m' else (k, c) :: bump y m'
  end.

(** [countsByYear[y] || 0] *)
Fixpoint count_of (y : Q) (m : list (Q * Z)) : Z :=
  match m with
  | [] => 0%Z
  | (k, c) :: m' => if Qeq_bool k y then c else count_of y m'
  end.

(** The smoothing loop, in binary64: [last] after the [for] over [series].
    A count is a whole number below [2^32], the bound on the length of an
    array, and so is a double exactly. *)
Definition smooth (alpha : float) (s : list Series.point) : float :=
  match s with
  | [] => 0%float
  | s0 :: rest =>
      fold_left
        (fun last si =>
           (alpha * float_of_Z (Series.count si) + (1 - alpha) * last)%float)
        rest (float_of_Z (Series.count s0))
  end.

(** The forecasting loop, in binary64, [n] iterations from step [k] on.
    The years are whole numbers, on which adding [k] is exact. *)
Fixpoint forecast_loop (alpha : float) (lastYear : Q) (base : float) (k : Z)
  (n : nat) : list Forecast.point :=
  match n with
  | O => []
  | S n' =>
      let base' := (alpha * base + (1 - alpha) * base)%float in
      Forecast.mk (lastYear + inject_Z k)
                  (Math_round (base' * (1 + float_of_Z k * 0.03))%float)
        :: forecast_loop alpha lastYear base' (k + 1) n'
  end.

Section WithRuntime.
Context {rt : Runtime}.

Definition countsByYear (planets : list Planet.t) : list (Q * Z) :=
  fold_left
    (fun m p => bump (Number_or (Planet.discovery_year p) (inject_Z currentYear)) m)
    planets [].


(** [recentYears[recentYears.length - 1] || new Date().getFullYear()] *)
Definition last_year_or_now (recentYears : list Q) : Q :=
  match last_opt recentYears with
  | Some y => num_or y (inject_Z currentYear)
  | None => inject_Z currentYear
  end.

(** The method and telescope rankings of the result do not feed the series
    or the forecasts and are left out. *)
Definition analyzeDiscoveryPatterns (self : t) (planets : list Planet.t)
  : Patterns :=
  let counts := countsByYear planets in
  let years := sort_by Qle_bool (map fst counts) in
  let recentYears := slice_from (- timeWindowYears self) years in
  let series := map (fun y => Series.mk y (count_of y counts)) recentYears in
  let alpha := 0.4%float in
  let last := smooth alpha series in
  let forecasts := forecast_loop alpha (last_year_or_now recentYears) last 1 3 in
  mkPatterns series forecasts (List.length planets)
    (match series, last_opt series with
     | s0 :: _ :: _, Some sn =>
         (inject_Z (Series.count sn) - inject_Z (Series.count s0))
         / Math_max 1 (inject_Z (Series.count s0))
     | _, _ => 0
     end).

(** [calculatePriorityScore(planet = {})] *)
Definition calculatePriorityScore (planet : Planet.t) : Q :=
  let habitScore := Number_or (Planet.habitability_score planet) 0 in
  let aiConfidence := Number_or (Planet.ai_confidence planet) 0.7 in
  let followUps :=
    Math_min 1 (Number_or (Planet.follow_up_observations planet) 0 / 20) in
  let distancePenalty :=
    Math_exp (- Math_min 1500 (Number_or (Planet.distance planet) 100) / 500) in
  let novelty :=
    match Planet.confirmed_status planet with
    | JStr s => if String.eqb s "Candidate" then 0.12 else 0
    | _ => 0
    end in
  let score :=
    Math_max 0 (Math_min 0.999
      (habitScore * 0.5 + aiConfidence * 0.2 + followUps * 0.1
       + distancePenalty * 0.08 + novelty)) in
  toFixed 3 score.

End WithRuntime.

(** *** What the forecasts are stated against

    The definitions below are not code of the source: they say, in the
    words of its description, what the series and the forecasts are. *)



(** One step of smoothing a baseline against itself, and the baseline after
    [k] such steps *)
Definition keep_smoothing (alpha base : float) : float :=
  (alpha * base + (1 - alpha) * base)%float.

Fixpoint baseline (alpha L : float) (k : nat) : float :=
  match k with
  | O => L
  | S k' => keep_smoothing alpha (baseline alpha L k')
  end.





Section History.
Context {rt : Runtime}.




End History.

End PredictiveAnalytics.

(** ** ai-services/ExoplanetClassifier.js *)

Module Classifier.

Module FeatureVector.
Record t : Type := mk {
  mass : Q;
  radius : Q;
  temperature : Q;
  orbital_period : Q;
  distance : Q;
  atmosphere : Q;
  follow_up : Q;
  ai_confidence : Q
}.
End FeatureVector.

Record Explanation : Type := mkExplanation {
  features : FeatureVector.t;
  importances : list (string * Q);
  topFactors : list (string * Q)
}.

Record ModelMeta : Type := mkModelMeta {
  engine : string;
  meta_labels : list string
}.

Record ClassificationResult : Type := mkResult {
  predictedType : string;
  probabilities : list (string * Q);
  confidence : Q;
  explanation : Explanation;
  modelMeta : ModelMeta
}.

(** The classifier object.  [calibration] is [None] when the option given
    to the constructor is falsy without being nullish ([_calibrate] then
    returns its argument).  The loading delay, the weights and the model URL
    are stored by the constructor and read by no method. *)
Record t : Type := mk {
  modelLoaded : bool;
  calibration : option (Q * Q);
  cache : gmap string ClassificationResult;
  labels : list string
}.

(** [new ExoplanetClassifier()] *)
Definition create : t :=
  mk false (Some (1, 0)) ∅
     ["Terrestrial"; "Super Earth"; "Mini-Neptune"; "Gas Giant"; "Hot Jupiter";
      "Ice Giant"; "Puffy Planet"; "Ocean World"; "Desert World"].

Definition set_modelLoaded (b : bool) (self : t) : t :=
  mk b (calibration self) (cache self) (labels self).

Definition set_cache (c : gmap string ClassificationResult) (self : t) : t :=
  mk (modelLoaded self) (calibration self) c (labels self).

(** [loadModel()]: the delay and the log line aside, it sets the flag. *)
Definition loadModel (self : t) : bool * t :=
  if modelLoaded self then (true, self) else (true, set_modelLoaded true self).

(** [clearCache()] *)
Definition clearCache (self : t) : t := set_cache ∅ self.

Section WithRuntime.
Context {rt : Runtime}.

(** [_hashPlanet(planet)]; [None] is a [null] argument. *)
Definition _hashPlanet (planet : option Planet.t) : string :=
  match planet with
  | None => "null"
  | Some p =>
      ToString_or (Planet.name p) "unknown" +:+ "|"
      +:+ ToString (Planet.mass p) +:+ "|"
      +:+ ToString (Planet.radius p) +:+ "|"
      +:+ ToString (Planet.temperature p) +:+ "|"
      +:+ ToString_or (Planet.atmosphere p) "na"
  end.

(** [_featureVector(planet)]: reading a property of [null] throws. *)
Definition _featureVector (planet : option Planet.t) : outcome FeatureVector.t :=
  match planet with
  | None => Throw (TypeError "Cannot read properties of null")
  | Some p =>
      Ok (FeatureVector.mk
            (Number_or (Planet.mass p) 1)
            (Number_or (Planet.radius p) 1)
            (Number_or (Planet.temperature p) 288)
            (Number_or (Planet.orbital_period p) 365)
            (Number_or (Planet.distance p) 100)
            (if (truthy (Planet.atmosphere p)
                 && negb match Planet.atmosphere p with
                         | JStr s => String.eqb s "Unknown"
                         | _ => false
                         end)%bool
             then 1 else 0)
            (Number_or (Planet.follow_up_observations p) 0)
            (Number_or (Planet.ai_confidence p) 0.75))
  end.

(** What [Number(v) || d] makes of a field: the default [d] when the field
    coerces to [NaN] or to zero, the coerced number otherwise *)
Definition coerced_or_default (v : jsval) (d x : Q) : Prop :=
  match ToNumber v with
  | None => x = d
  | Some q => if Qeq_bool q 0 then x = d else x = q
  end.

(** [_calibrate(prob)] *)
Definition _calibrate (self : t) (prob : Q) : Q :=
  match calibration self with
  | None => prob
  | Some (a, b) =>
      let x := Math_max 0.000001 (Math_min (1 - 0.000001) prob) in
      let z := a * (x - 0.5) + b in
      (* Math.exp(-z) is Infinity past the overflow threshold, and
         1 / (1 + Infinity) is 0 *)
      if Qlt_bool exp_overflow (- z) then 0 else 1 / (1 + Math_exp (- z))
  end.

(** [_explainFeatures(f)] *)
Definition _explainFeatures (f : FeatureVector.t) : list (string * Q) :=
  let imp :=
    [ ("temperature",
       Math_abs (0.5 - Math_exp (- (((FeatureVector.temperature f - 288) / 60) ^ 2))));
      ("mass",
       Math_abs (Math_log (Math_max 0.1 (FeatureVector.mass f)) - Math_log 1));
      ("distance", Math_min 1 (FeatureVector.distance f / 500));
      ("atmosphere",
       if Qeq_bool (FeatureVector.atmosphere f) 0 then 0.02 else 0.1);
      ("follow_up", Math_min 1 (FeatureVector.follow_up f / 20)) ] in
  let sum := num_or (sumQ (map snd imp)) 1 in
  map (fun kv => (fst kv, toFixed 3 (snd kv / sum))) imp.

(** [planet.atmosphere && planet.atmosphere.toLowerCase().includes('h2o')]:
    only a string has [toLowerCase]. *)
Definition atmosphere_has_h2o (atmosphere : jsval) : outcome bool :=
  if truthy atmosphere then
    match atmosphere with
    | JStr s => Ok (includes "h2o" (toLowerCase s))
    | _ => Throw (TypeError "planet.atmosphere.toLowerCase is not a function")
    end
  else Ok false.

(** The object literal [base] of [classifyPlanet], in the order of its keys;
    [planet.atmosphere] is read for the eighth. *)
Definition base_scores (planet : option Planet.t) (f : FeatureVector.t)
  : outcome (list (string * Q)) :=
  bind (match planet with
        | None => Throw (TypeError "Cannot read properties of null")
        | Some p => atmosphere_has_h2o (Planet.atmosphere p)
        end) (fun h2o =>
  Ok [ ("Terrestrial",
        Math_max 0 (0.6 - Math_abs (FeatureVector.mass f - 1) * 0.12
                        - Math_abs (FeatureVector.radius f - 1) * 0.08));
       ("Super Earth",
        Math_max 0 (0.25 + (if Qgt_bool (FeatureVector.mass f) 1.5 then 0.15 else 0)
                         + (if Qgt_bool (FeatureVector.radius f) 1.2 then 0.1 else 0)));
       ("Mini-Neptune",
        Math_max 0 (0.12 + (if Qgt_bool (FeatureVector.radius f) 1.8 then 0.12 else 0)));
       ("Gas Giant",
        Math_max 0 ((if Qgt_bool (FeatureVector.mass f) 15 then 0.7 else 0.05)
                    + (if Qgt_bool (FeatureVector.radius f) 3 then 0.2 else 0)));
       ("Hot Jupiter",
        Math_max 0 (if Qlt_bool (FeatureVector.orbital_period f) 10 then 0.4 else 0.01));
       ("Ice Giant",
        Math_max 0 (if Qlt_bool (FeatureVector.temperature f) 180 then 0.25 else 0.01));
       ("Puffy Planet",
        Math_max 0 (if (Qlt_bool (FeatureVector.mass f) 10
                        && Qgt_bool (FeatureVector.radius f) 6)%bool
                    then 0.2 else 0.01));
       ("Ocean World", Math_max 0 (if h2o then 0.35 else 0.02));
       ("Desert World",
        Math_max 0 (if Qgt_bool (FeatureVector.temperature f) 400 then 0.2 else 0.02)) ]).

(** [Object.keys(o).forEach(k => o2[k] = g(o[k]))] *)
Definition map_values (g : Q -> Q) (o : list (string * Q)) : list (string * Q) :=
  map (fun kv => (fst kv, g (snd kv))) o.

(** [Object.values(o).reduce((s, v) => s + v, 0) || 1] *)
Definition sum_or_1 (o : list (string * Q)) : Q := num_or (sumQ (map snd o)) 1.

(** [Object.entries(smoothed).sort((a, b) => b[1] - a[1])] *)
Definition sort_entries (o : list (string * Q)) : list (string * Q) :=
  sort_by (fun a b => Qle_bool (snd b) (snd a)) o.

(** [probsRaw], [smoothed] and its normalisation in place, from [base] *)
Definition probabilities_from (self : t) (f : FeatureVector.t)
  (base : list (string * Q)) : list (string * Q) :=
  let sum := sum_or_1 base in
  let probsRaw := map_values (fun v => v / sum) base in
  let smoothed :=
    map_values
      (fun raw =>
         let biased := raw * (0.6 + 0.4 * FeatureVector.ai_confidence f) in
         _calibrate self biased)
      probsRaw in
  let s2 := sum_or_1 smoothed in
  map_values (fun v => toFixed 4 (v / s2)) smoothed.

(** The body of [classifyPlanet] past the cache lookup, up to the result. *)
Definition classify (self : t) (planet : option Planet.t)
  : outcome ClassificationResult :=
  bind (_featureVector planet) (fun f =>
  bind (base_scores planet f) (fun base =>
  let smoothed := probabilities_from self f base in
  let entries := sort_entries smoothed in
  match entries with
  | [] => Throw (TypeError "Cannot read properties of undefined")
  | e0 :: _ =>
      let predictedType := fst e0 in
      let confidence :=
        Math_min 0.999
          (0.45 + snd e0 * 0.45
           + (FeatureVector.ai_confidence f - 0.7) * 0.25) in
      let explanation :=
        mkExplanation f (_explainFeatures f)
          (map (fun e => (fst e, toFixed 4 (snd e))) (slice 0 3 entries)) in
      Ok (mkResult predictedType smoothed (toFixed 3 confidence) explanation
            (mkModelMeta "heuristic-sim-v2" (labels self)))
  end)).

(** [classifyPlanet(planet)]: the settled outcome and the classifier after
    the call.  A call that throws has loaded the model and cached nothing. *)
Definition classifyPlanet (self : t) (planet : option Planet.t)
  : outcome ClassificationResult * t :=
  let self := if modelLoaded self then self else snd (loadModel self) in
  let key := _hashPlanet planet in
  match cache self !! key with
  | Some cached => (Ok cached, self)
  | None =>
      match classify self planet with
      | Ok result => (Ok result, set_cache (<[key := result]> (cache self)) self)
      | Throw e => (Throw e, self)
      end
  end.

End WithRuntime.

(** The classifier once the model is loaded, as every call leaves it *)
Definition loaded (self : t) : t :=
  if modelLoaded self then self else snd (loadModel self).

(** The keys of [base], hence of every [probabilities] object *)
Definition base_labels : list string :=
  ["Terrestrial"; "Super Earth"; "Mini-Neptune"; "Gas Giant"; "Hot Jupiter";
   "Ice Giant"; "Puffy Planet"; "Ocean World"; "Desert World"].

(** A result whose probabilities are a distribution over the nine labels, up
    to the rounding to four decimals, and whose confidence is capped *)
Definition normalised (r : ClassificationResult) : Prop :=
  map fst (probabilities r) = base_labels
  /\ List.Forall (fun kv => 0 <= snd kv <= 1) (probabilities r)
  /\ Qabs (sumQ (map snd (probabilities r)) - 1) <= 0.001
  /\ confidence r <= 0.999.

Definition cache_normalised (self : t) : Prop :=
  forall key r, cache self !! key = Some r -> normalised r.

(** Platt parameters under which [Math.exp] stays finite in [_calibrate]:
    the clamped probability is within [0.5] of [0.5], so [-z] is at most
    [|a| * 0.5 - b].  The default [a = 1], [b = 0] is such a pair. *)
Definition calibration_in_range (a b : Q) : Prop :=
  Qabs a * 0.5 - b <= exp_overflow.

(** An atmosphere as the data model has it: a string, or nothing (any falsy
    value) *)
Definition atmosphere_is_text (v : jsval) : bool :=
  match v with
  | JStr _ => true
  | _ => negb (truthy v)
  end.

(** [o[key]] on an object given by its entries *)
Fixpoint prop_get (o : list (string * Q)) (key : string) : option Q :=
  match o with
  | [] => None
  | (k, v) :: rest => if String.eqb k key then Some v else prop_get rest key
  end.

End Classifier.

(** ** SpectroscopyAI.jsx *)

Module SpectroscopyAI.

(** A spectral sample.  The three derived properties are the ones the
    pipeline adds with [{ ...p, k: v }]; [None] is an absent property. *)
Module Point.
Record t : Type := mk {
  wavelength : Q;
  intensity : Q;
  snr : Q;
  intensity_smoothed : option Q;
  continuum : option Q;
  intensity_norm : option Q
}.

(** A sample as measured: [{ wavelength, intensity, snr }] *)
Definition raw (w i s : Q) : t := mk w i s None None None.

Definition with_smoothed (v : Q) (p : t) : t :=
  mk (wavelength p) (intensity p) (snr p) (Some v) (continuum p) (intensity_norm p).

Definition with_norm (c v : Q) (p : t) : t :=
  mk (wavelength p) (intensity p) (snr p) (intensity_smoothed p) (Some c) (Some v).
End Point.

(** One window's verdict, the object [_detectInRange] returns *)
Module Window.
Record t : Type := mk {
  ew : Q;
  meanSnr : Q;
  absorptionFraction : Q;
  detected : bool;
  points : nat
}.
End Window.

(** One molecule's entry of [_matchTemplates]; the entry of a molecule none
    of whose windows holds a sample has no [windows] property, read nowhere:
    it is the empty list here. *)
Module Match.
Record t : Type := mk {
  detected : bool;
  confidence : Q;
  windows : list Window.t
}.
End Match.

Module Detection.
Record t : Type := mk {
  molecule : string;
  confidence : Q;
  windows : list Window.t
}.
End Detection.

Record Features : Type := mkFeatures {
  absorptionLines : nat;
  avgSnr : Q;
  spectralPoints : nat
}.

Record Biosignature : Type := mkBiosignature {
  level : string;
  reason : string
}.

(** The result of [analyzeSpectrum], in the properties its two [return]s
    share.  The full result repeats the detections ([perMoleculeDetails]),
    echoes the normalized samples and adds a summary line, a synthetic
    overlay and the configured delay; none is computed from anything but
    the values below and the samples, and they are left out. *)
Record Analysis : Type := mkAnalysis {
  detectedMolecules : list Detection.t;
  moleculeConfidences : list (string * Q);
  features : Features;
  biosignaturePotential : Biosignature;
  recommendations : list string;
  confidence : Q
}.

(** The first argument of [analyzeSpectrum]: an array of samples or any
    other value. *)
Inductive spectral_arg : Type :=
| NotAnArray
| Samples (spectralData : list Point.t).

(** The analyzer object; [smoothingWindow] is a count of samples. *)
Record t : Type := mk {
  minSnrForDetection : Q;
  smoothingWindow : nat;
  polyOrder : nat
}.

(** [new SpectroscopyAI()] *)
Definition default : t := mk 8 7 3.

(** [_moleculeWindows()], i.e. [this.templateWindows] *)
Definition _moleculeWindows : list (string * list (Q * Q)) :=
  [ ("H2O", [(590, 600); (650, 662); (720, 740); (940, 980)]);
    ("CO2", [(660, 672); (720, 740); (1400, 1600)]);
    ("CH4", [(530, 555); (780, 805); (1200, 1300)]);
    ("O2", [(687, 695); (760, 770)]);
    ("N2", [(516, 532)]);
    ("SO2", [(400, 430); (280, 320)]);
    ("NH3", [(645, 665); (1000, 1080)]);
    ("Na", [(588, 590)]);
    ("K", [(766, 770)]);
    ("O3", [(255, 320)]) ].

(** [_savitzkyGolay(y, window, order)] on an array *)
Definition _savitzkyGolay (y : list Point.t) (window order : nat) : list Point.t :=
  if (List.length y <? window)%nat then
    map (fun v => Point.with_smoothed (Point.intensity v) v) y
  else
    let half := (window / 2)%nat in
    mapi (fun idx p =>
            let start := Nat.max 0 (idx - half) in
            let stop := Nat.min (List.length y - 1) (idx + half) in
            let sl := slice start (stop + 1) y in
            let avg :=
              sumQ (map Point.intensity sl) / inject_Z (Z.of_nat (List.length sl)) in
            Point.with_smoothed (toFixed 6 avg) p)
         y.

(** [p.intensity_smoothed ?? p.intensity] *)
Definition smoothed_or_raw (p : Point.t) : Q :=
  match Point.intensity_smoothed p with
  | Some v => v
  | None => Point.intensity p
  end.

(** [p.intensity_norm || p.intensity] *)
Definition norm_or_raw (p : Point.t) : Q :=
  match Point.intensity_norm p with
  | Some v => num_or v (Point.intensity p)
  | None => Point.intensity p
  end.

(** [_continuumEnvelope(data, win)] on a non-empty array; on an empty one
    the array itself is returned, the same empty list. *)
Definition _continuumEnvelope (data : list Point.t) (win : option nat) : list Q :=
  let n := List.length data in
  let dflt := Nat.max 11 (Nat.lor (n / 20) 1) in
  let window :=
    match win with
    | Some w => if (w =? 0)%nat then dflt else w
    | None => dflt
    end in
  let half := (window / 2)%nat in
  mapi (fun i _ =>
          let start := Nat.max 0 (i - half) in
          let stop := Nat.min (n - 1) (i + half) in
          let sl := map smoothed_or_raw (slice start (stop + 1) data) in
          let sorted := sort_by Qle_bool sl in
          let idx := (List.length sorted * 9 / 10)%nat in
          Math_max 0.000001 (nth idx sorted 0))
       data.

(** [_normalize(data)] *)
Definition _normalize (data : list Point.t) : list Point.t :=
  let envelope := _continuumEnvelope data None in
  mapi (fun i p =>
          let e := nth i envelope 0 in
          Point.with_norm e (toFixed 6 (Point.intensity p / e)) p)
       data.

(** The [for] of [_equivalentWidth]: [prev] is [dataInWindow[i-1]]. *)
Fixpoint ew_loop (prev : Point.t) (rest : list Point.t) (ew : Q) : Q :=
  match rest with
  | [] => ew
  | p :: rest' =>
      let x0 := Point.wavelength prev in
      let x1 := Point.wavelength p in
      let y0 := 1 - Math_min 1 (norm_or_raw prev) in
      let y1 := 1 - Math_min 1 (norm_or_raw p) in
      let width := Math_abs (x1 - x0) in
      let area := Math_max 0 ((y0 + y1) / 2 * width) in
      ew_loop p rest' (ew + area)
  end.

(** [_equivalentWidth(dataInWindow)] *)
Definition _equivalentWidth (dataInWindow : list Point.t) : Q :=
  match dataInWindow with
  | p0 :: (_ :: _) as rest => toFixed 4 (ew_loop p0 rest 0)
  | _ => 0
  end.

(** [xs.filter(f).length] *)
Definition count_if {A} (f : A -> bool) (l : list A) : nat :=
  List.length (List.filter f l).

Definition Qnat (n : nat) : Q := inject_Z (Z.of_nat n).

(** [_detectInRange(spectralData, minW, maxW)]; [None] is [null]. *)
Definition _detectInRange (self : t) (spectralData : list Point.t) (minW maxW : Q)
  : option Window.t :=
  let window :=
    List.filter (fun p => (Qle_bool minW (Point.wavelength p)
                      && Qle_bool (Point.wavelength p) maxW)%bool)
           spectralData in
  match window with
  | [] => None
  | _ :: _ =>
      let len := Qnat (List.length window) in
      let meanSnr := sumQ (map (fun p => num_or (Point.snr p) 0) window) / len in
      let ew := _equivalentWidth window in
      let absorptionFraction :=
        Qnat (count_if (fun p => Qlt_bool (norm_or_raw p) 0.98) window) / len in
      let detected :=
        (Qle_bool (minSnrForDetection self) meanSnr
         && Qgt_bool ew 0.01 && Qgt_bool absorptionFraction 0.06)%bool in
      Some (Window.mk (toFixed 4 ew) (toFixed 2 meanSnr)
                      (toFixed 3 absorptionFraction) detected (List.length window))
  end.

(** A loop that pushes [f(x)] for each [x] unless it is [null] *)
Fixpoint collect {A B} (f : A -> option B) (l : list A) : list B :=
  match l with
  | [] => []
  | x :: l' =>
      match f x with
      | Some y => y :: collect f l'
      | None => collect f l'
      end
  end.

Section WithRuntime.
Context {rt : Runtime}.

(** One turn of the outer [for] of [_matchTemplates] *)
Definition match_molecule (self : t) (normData : list Point.t)
  (ranges : list (Q * Q)) : Match.t :=
  let perRange :=
    collect (fun r => _detectInRange self normData (fst r) (snd r)) ranges in
  match perRange with
  | [] => Match.mk false 0 []
  | _ :: _ =>
      let winsDetected := count_if Window.detected perRange in
      let sumEW := sumQ (map (fun p => num_or (Window.ew p) 0) perRange) in
      let avgSnr :=
        sumQ (map (fun p => num_or (Window.meanSnr p) 0) perRange)
        / Qnat (List.length perRange) in
      let confidence :=
        Math_tanh (Qnat winsDetected * 0.8 + Math_min 3 sumEW * 0.18
                   + Math_min 1 (avgSnr / 50) * 0.4) in
      let confidence :=
        if Qlt_bool avgSnr (minSnrForDetection self)
        then confidence * 0.5 else confidence in
      Match.mk (0 <? winsDetected)%nat (toFixed 3 confidence) perRange
  end.

(** [_matchTemplates(normData)]: the entries of [results], in key order *)
Definition _matchTemplates (self : t) (normData : list Point.t)
  : list (string * Match.t) :=
  map (fun mr => (fst mr, match_molecule self normData (snd mr))) _moleculeWindows.

End WithRuntime.

(** [Object.fromEntries(pairs)[key]]: of two pairs with one key the later
    one stays. *)
Fixpoint fromEntries_get (pairs : list (string * Q)) (key : string) : option Q :=
  match pairs with
  | [] => None
  | (k, v) :: rest =>
      match fromEntries_get rest key with
      | Some v' => Some v'
      | None => if String.eqb k key then Some v else None
      end
  end.

(** [has(m)] of [analyzeSpectrum], over the object [present] *)
Definition has (present : list (string * Q)) (m : string) : bool :=
  match fromEntries_get present (toUpperCase m) with
  | Some c => (negb (Qeq_bool c 0) && Qgt_bool c 0.25)%bool
  | None => false
  end.

(** The [if]/[else if] chain that settles the biosignature level *)
Definition biosignature (self : t) (detectedMolecules : list Detection.t)
  (avgSnr : Q) : Biosignature :=
  let present :=
    map (fun d => (toUpperCase (Detection.molecule d), Detection.confidence d))
        detectedMolecules in
  let has := has present in
  if (has "O2" && has "CH4")%bool then
    mkBiosignature "High" "Possible disequilibrium (O2 + CH4)"
  else if (has "H2O" && (has "CO2" || has "N2"))%bool then
    mkBiosignature "Medium" "Water + major background gas detected"
  else if ((3 <=? List.length detectedMolecules)%nat && Qgt_bool avgSnr 12)%bool then
    mkBiosignature "Medium" "Multiple species with good S/N"
  else if Qlt_bool avgSnr (minSnrForDetection self) then
    mkBiosignature "Low" "Low average S/N"
  else
    mkBiosignature "Low" "No clear biosignature pattern".

Section WithRuntime.
Context {rt : Runtime}.

(** [suggestFollowUps(analysis, planet)]; [analysis] is the pair of
    [features.avgSnr] and [biosignaturePotential.level], [None] when the
    object or its [features] is missing; a [None] planet is [null]. *)
Definition suggestFollowUps (analysis : option (Q * string))
  (planet : option Planet.t) : list string :=
  match analysis with
  | None => ["Acquire baseline spectrum."]
  | Some (avgSnr, level) =>
      let avgSnr := num_or avgSnr 0 in
      (if Qlt_bool avgSnr 10
       then ["Increase exposure time to reach avg S/N > 15 or co-add more transits."]
       else [])
      ++ (if String.eqb level "High"
          then ["Immediate multi-epoch high-resolution follow-up."] else [])
      ++ ["Observe reference stars to remove telluric features."]
      ++ (match planet with
          | Some p =>
              if (truthy (Planet.distance p)
                  && match ToNumber (Planet.distance p) with
                     | Some d => Qgt_bool d 500
                     | None => false
                     end)%bool
              then ["Use space-based instruments (JWST) for highest sensitivity."]
              else []
          | None => []
          end)
  end.

(** [analyzeSpectrum(spectralData, planet)] *)
Definition analyzeSpectrum (self : t) (spectralData : spectral_arg)
  (planet : option Planet.t) : Analysis :=
  match spectralData with
  | NotAnArray | Samples [] =>
      mkAnalysis [] [] (mkFeatures 0 0 0) (mkBiosignature "Low" "No data") [] 0
  | Samples ((_ :: _) as spectralData) =>
      let smoothed :=
        _savitzkyGolay spectralData (smoothingWindow self) (polyOrder self) in
      let normalized := _normalize smoothed in
      let avgSnr :=
        sumQ (map (fun p => num_or (Point.snr p) 0) normalized)
        / Qnat (List.length normalized) in
      let absorptionCount :=
        count_if (fun p => Qlt_bool (norm_or_raw p) 0.98) normalized in
      let matches := _matchTemplates self normalized in
      let detectedMolecules :=
        collect (fun mi =>
                   if (Match.detected (snd mi)
                       && Qgt_bool (Match.confidence (snd mi)) 0.2)%bool
                   then Some (Detection.mk (fst mi) (Match.confidence (snd mi))
                                           (Match.windows (snd mi)))
                   else None)
                matches in
      let moleculeConfidences :=
        map (fun mi => (fst mi, Match.confidence (snd mi))) matches in
      let biosig := biosignature self detectedMolecules avgSnr in
      let meanMoleculeConfidence :=
        match detectedMolecules with
        | [] => 0
        | _ :: _ =>
            sumQ (map Detection.confidence detectedMolecules)
            / Qnat (List.length detectedMolecules)
        end in
      let overallConfidence :=
        Math_min 0.999
          (Math_max 0.05 (0.2 * (avgSnr / 40) + 0.75 * meanMoleculeConfidence)) in
      mkAnalysis detectedMolecules moleculeConfidences
        (mkFeatures absorptionCount (toFixed 2 avgSnr) (List.length normalized))
        biosig
        (suggestFollowUps (Some (avgSnr, level biosig)) planet)
        (toFixed 3 overallConfidence)
  end.

End WithRuntime.
End SpectroscopyAI.

(** ** A reference runtime

    Rational stand-ins for the engine's functions, to run the model on
    concrete inputs: the second-order exponential (its reciprocal below
    zero), the hyperbolic tangent and the logarithm it induces, decimal
    printing and reading of numbers. *)

Module Reference.

Definition exp (x : Q) : Q :=
  if Qle_bool 0 x then 1 + x + 0.5 * x * x else / (1 - x + 0.5 * x * x).

Definition tanh (x : Q) : Q :=
  let e := exp (2 * x) in (e - 1) / (e + 1).

Definition log (x : Q) : Q :=
  if Qle_bool x 0 then 0 else 2 * (x - 1) / (x + 1).

Definition digit_char (d : Z) : ascii := ascii_of_nat (48 + Z.to_nat d).

Fixpoint frac_digits (fuel : nat) (num den : Z) : string :=
  match fuel with
  | O => EmptyString
  | S fuel' =>
      if (num =? 0)%Z then EmptyString
      else String (digit_char (10 * num / den))
                  (frac_digits fuel' ((10 * num) mod den) den)
  end.

Definition print_number (q : Q) : string :=
  let r := Qred q in
  let n := Z.abs (Qnum r) in
  let d := Zpos (Qden r) in
  (if (Qnum r <? 0)%Z then "-" else "")
  +:+ pretty (n / d)%Z
  +:+ (if (n mod d =? 0)%Z then "" else "." +:+ frac_digits 17 (n mod d) d).

Definition digit_value (c : ascii) : option Z :=
  let n := nat_of_ascii c in
  if (Nat.leb 48 n && Nat.leb n 57)%bool then Some (Z.of_nat (n - 48)) else None.

Fixpoint read_fraction (s : string) (num : Z) (den : positive) : option Q :=
  match s with
  | EmptyString => Some (num # den)
  | String c s' =>
      match digit_value c with
      | Some d => read_fraction s' (10 * num + d)%Z (10 * den)%positive
      | None => None
      end
  end.

Fixpoint read_digits (s : string) (num : Z) (seen : bool) : option Q :=
  match s with
  | EmptyString => if seen then Some (inject_Z num) else None
  | String c s' =>
      if Ascii.eqb c "." then
        match s' with
        | EmptyString => if seen then Some (inject_Z num) else None
        | _ => read_fraction s' num 1
        end
      else
        match digit_value c with
        | Some d => read_digits s' (10 * num + d)%Z true
        | None => None
        end
  end.

Definition read_number (s : string) : option Q :=
  match s with
  | EmptyString => Some 0
  | String c s' =>
      if Ascii.eqb c "-" then option_map Qopp (read_digits s' 0 false)
      else read_digits s 0 false
  end.

Definition runtime : Runtime :=
  {| Math_exp := exp;
     Math_log := log;
     Math_tanh := tanh;
     NumberToString := print_number;
     StringToNumber := read_number;
     currentYear := 2025 |}.

End Reference.

(** ** Sample inputs *)

Module Examples.

(** [{mass: 1.0, radius: 1.0, temperature: 288, orbital_period: 365,
      distance: 50, atmosphere: "N2/O2", ai_confidence: 0.9}] *)
Definition earthlike : Planet.t :=
  Planet.mk JUndefined (JNum 1.0) (JNum 1.0) (JNum 288) (JNum 365) (JNum 50)
            (JStr "N2/O2") JUndefined (JNum 0.9) JUndefined JUndefined JUndefined.

(** The same planet but for the four fields the cache key leaves out *)
Definition earthlike_far : Planet.t :=
  Planet.mk JUndefined (JNum 1.0) (JNum 1.0) (JNum 288) (JNum 3) (JNum 900)
            (JStr "N2/O2") (JNum 12) (JNum 0.2) JUndefined JUndefined JUndefined.

(** [{atmosphere: 42}] *)
Definition numeric_atmosphere : Planet.t :=
  Planet.mk JUndefined JUndefined JUndefined JUndefined JUndefined JUndefined
            (JNum 42) JUndefined JUndefined JUndefined JUndefined JUndefined.

(** [{temperature: true}] *)
Definition boolean_temperature : Planet.t :=
  Planet.mk JUndefined JUndefined JUndefined (JBool true) JUndefined JUndefined
            JUndefined JUndefined JUndefined JUndefined JUndefined JUndefined.



(** [new ExoplanetClassifier({calibration: {a: 1, b: -1000}})] *)
Definition saturated : Classifier.t :=
  Classifier.mk false (Some (1, -1000)) ∅ (Classifier.labels Classifier.create).

(** Five samples under a flat continuum: two in a CH4 window and two in an
    O2 window, each at half the continuum *)
Definition o2_ch4_spectrum : list SpectroscopyAI.Point.t :=
  [ SpectroscopyAI.Point.raw 500 1 50;
    SpectroscopyAI.Point.raw 530 0.5 50;
    SpectroscopyAI.Point.raw 540 0.5 50;
    SpectroscopyAI.Point.raw 690 0.5 50;
    SpectroscopyAI.Point.raw 691 0.5 50 ].

End Examples.

(** ** The rest of the three services *)

(** Records that differ from a given one in a single field *)
Module PlanetUpdates.

Definition with_confirmed_status (v : jsval) (p : Planet.t) : Planet.t :=
  Planet.mk (Planet.name p) (Planet.mass p) (Planet.radius p)
    (Planet.temperature p) (Planet.orbital_period p) (Planet.distance p)
    (Planet.atmosphere p) (Planet.follow_up_observations p)
    (Planet.ai_confidence p) (Planet.habitability_score p) v
    (Planet.discovery_year p).

Definition with_distance (v : jsval) (p : Planet.t) : Planet.t :=
  Planet.mk (Planet.name p) (Planet.mass p) (Planet.radius p)
    (Planet.temperature p) (Planet.orbital_period p) v
    (Planet.atmosphere p) (Planet.follow_up_observations p)
    (Planet.ai_confidence p) (Planet.habitability_score p)
    (Planet.confirmed_status p) (Planet.discovery_year p).

Definition with_follow_up_observations (v : jsval) (p : Planet.t) : Planet.t :=
  Planet.mk (Planet.name p) (Planet.mass p) (Planet.radius p)
    (Planet.temperature p) (Planet.orbital_period p) (Planet.distance p)
    (Planet.atmosphere p) v
    (Planet.ai_confidence p) (Planet.habitability_score p)
    (Planet.confirmed_status p) (Planet.discovery_year p).

End PlanetUpdates.

(** *** ExoplanetClassifier.js: [classifyBatch] *)

Module ClassifierBatch.
Import Classifier.

(** [Promise.all(promises)] over promises that are settled, or settle, in
    the order of the array: the results in order, or the first rejection. *)
Fixpoint Promise_all {A} (os : list (outcome A)) : outcome (list A) :=
  match os with
  | [] => Ok []
  | Throw e :: _ => Throw e
  | Ok a :: os' =>
      match Promise_all os' with
      | Ok l => Ok (a :: l)
      | Throw e => Throw e
      end
  end.


Section WithRuntime.
Context {rt : Runtime}.

(** [planets.map(p => this.classifyPlanet(p))]: with the model loaded, a
    call runs without a pause from its cache lookup to its cache write, so
    the calls act on the cache one after the other, in the order of the
    array; every call is made, whatever the earlier ones settle to. *)
Fixpoint classify_each (self : t) (planets : list (option Planet.t))
  : list (outcome ClassificationResult) * t :=
  match planets with
  | [] => ([], self)
  | p :: ps =>
      let (o, self1) := classifyPlanet self p in
      let (os, self2) := classify_each self1 ps in
      (o :: os, self2)
  end.

(** [classifyBatch(planets)] *)
Definition classifyBatch (self : t) (planets : list (option Planet.t))
  : outcome (list ClassificationResult) * t :=
  let self := if modelLoaded self then self else snd (loadModel self) in
  let (os, self') := classify_each self planets in
  (Promise_all os, self').

End WithRuntime.
End ClassifierBatch.

(** *** PredictiveAnalytics.js: [recommendObservationPlan] *)

Module ObservationPlan.

Record t : Type := mk {
  target : jsval;
  recommendedInstruments : list string;
  exposureEstimateHours : Q;
  suggestedCadence : string;
  rationale : string
}.

Section WithRuntime.
Context {rt : Runtime}.

(** [recommendObservationPlan(planet)]; a [None] planet is [null].  The
    second parameter is read nowhere. *)
Definition recommendObservationPlan (planet : option Planet.t) : outcome t :=
  match planet with
  | None => Throw (TypeError "Cannot read properties of null")
  | Some p =>
      let name_or_unknown :=
        if truthy (Planet.name p) then Planet.name p else JStr "Unknown" in
      let dist := Number_or (Planet.distance p) 200 in
      let plan :=
        if Qlt_bool dist 100 then
          mk name_or_unknown
             ["Ground-based high-resolution spectrograph (e.g., HARPS/HARPS-N)"]
             1.5 "Weekly"
             "Nearby target; ground-based facilities sufficient for high S/N."
        else if Qlt_bool dist 500 then
          mk name_or_unknown ["JWST NIRSpec / NIRISS"] 3 "Monthly"
             "Moderate distance; space-based IR yields better molecular access."
        else
          mk name_or_unknown ["JWST deep spectroscopy + ALMA (for sub-mm)"] 6
             "Per-transit stacking"
             "Distant target; requires deep integrations and multi-epoch stacking." in
      bind (Classifier.atmosphere_has_h2o (Planet.atmosphere p)) (fun h2o =>
      Ok (if h2o
          then mk (target plan)
                  (recommendedInstruments plan
                   ++ ["High-resolution optical for water-line cross correlation"])
                  (exposureEstimateHours plan) (suggestedCadence plan)
                  (rationale plan)
          else plan))
  end.

End WithRuntime.
End ObservationPlan.

(** * Properties *)

(** ** Numbers: comparisons, clamps and rounding *)

Section Numbers.

Lemma pow10_pos d : 0 < pow10 d.
Proof.
  unfold pow10. change 0 with (inject_Z 0). rewrite <- Zlt_Qlt.
  apply Z.pow_pos_nonneg; lia.
Qed.

Lemma Qle_bool_reflect a b : reflect (a <= b) (Qle_bool a b).
Proof. apply iff_reflect. symmetry. apply Qle_bool_iff. Qed.

Lemma Qle_bool_false a b : Qle_bool a b = false -> b < a.
Proof.
  intros H. apply Qnot_le_lt. intros Hle. apply Qle_bool_iff in Hle. congruence.
Qed.

Lemma Math_max_spec a b : (a <= b /\ Math_max a b = b) \/ (b < a /\ Math_max a b = a).
Proof.
  unfold Math_max. destruct (Qle_bool a b) eqn:E.
  - left. split; [apply Qle_bool_iff; exact E | reflexivity].
  - right. split; [apply Qle_bool_false; exact E | reflexivity].
Qed.

Lemma Math_min_spec a b : (a <= b /\ Math_min a b = a) \/ (b < a /\ Math_min a b = b).
Proof.
  unfold Math_min. destruct (Qle_bool a b) eqn:E.
  - left. split; [apply Qle_bool_iff; exact E | reflexivity].
  - right. split; [apply Qle_bool_false; exact E | reflexivity].
Qed.

Lemma Math_max_mono_r a x y : x <= y -> Math_max a x <= Math_max a y.
Proof.
  intros H. destruct (Math_max_spec a x) as [[? ->]|[? ->]],
    (Math_max_spec a y) as [[? ->]|[? ->]]; lra.
Qed.

Lemma Math_min_mono_r a x y : x <= y -> Math_min a x <= Math_min a y.
Proof.
  intros H. destruct (Math_min_spec a x) as [[? ->]|[? ->]],
    (Math_min_spec a y) as [[? ->]|[? ->]]; lra.
Qed.

Lemma sgn_num_pos x : 0 < x -> Z.sgn (Qnum x) = 1%Z.
Proof. unfold Qlt. simpl. intros H. apply Z.sgn_pos. lia. Qed.

Lemma sgn_num_neg x : x < 0 -> Z.sgn (Qnum x) = (-1)%Z.
Proof. unfold Qlt. simpl. intros H. apply Z.sgn_neg. lia. Qed.

Lemma sgn_num_zero x : x == 0 -> Z.sgn (Qnum x) = 0%Z.
Proof. unfold Qeq. simpl. intros H. apply Z.sgn_null_iff. lia. Qed.

Lemma round_half_away_nonneg d x :
  0 <= x -> round_half_away d x == inject_Z (Qfloor (x * pow10 d + 0.5)) / pow10 d.
Proof.
  intros H. unfold round_half_away.
  assert (Hs := pow10_pos d).
  rewrite (Qfloor_comp _ (x * pow10 d + 0.5)) by (rewrite Qabs_pos by exact H; reflexivity).
  destruct (Qlt_le_dec 0 x) as [Hp|Hz].
  - rewrite sgn_num_pos by exact Hp. rewrite Z.mul_1_l. reflexivity.
  - assert (x == 0) as E by lra.
    rewrite (sgn_num_zero _ E). rewrite Z.mul_0_l.
    rewrite (Qfloor_comp (x * pow10 d + 0.5) 0.5) by (rewrite E; ring).
    reflexivity.
Qed.

Lemma round_half_away_neg d x :
  x < 0 -> round_half_away d x == - (inject_Z (Qfloor (- x * pow10 d + 0.5)) / pow10 d).
Proof.
  intros H. unfold round_half_away.
  assert (Hs := pow10_pos d).
  rewrite (Qfloor_comp _ (- x * pow10 d + 0.5)) by (rewrite Qabs_neg by lra; reflexivity).
  rewrite sgn_num_neg by exact H.
  rewrite inject_Z_mult. change (inject_Z (-1)) with (- (1)). field. lra.
Qed.

Lemma scaled_floor_mono d a b :
  a <= b ->
  inject_Z (Qfloor (a * pow10 d + 0.5)) / pow10 d
  <= inject_Z (Qfloor (b * pow10 d + 0.5)) / pow10 d.
Proof.
  intros Hab. assert (Hs := pow10_pos d).
  apply Qmult_le_compat_r.
  - rewrite <- Zle_Qle. apply Qfloor_resp_le.
    assert (a * pow10 d <= b * pow10 d) by (apply Qmult_le_compat_r; lra).
    lra.
  - apply Qlt_le_weak, Qinv_lt_0_compat, Hs.
Qed.

Lemma scaled_floor_nonneg d a :
  0 <= a -> 0 <= inject_Z (Qfloor (a * pow10 d + 0.5)) / pow10 d.
Proof.
  intros Ha. assert (Hs := pow10_pos d).
  apply Qle_shift_div_l; [exact Hs|]. rewrite Qmult_0_l.
  change 0 with (inject_Z 0). rewrite <- Zle_Qle.
  rewrite <- (Qfloor_Z 0). apply Qfloor_resp_le.
  change (inject_Z 0) with 0.
  assert (0 <= a * pow10 d) by (apply Qmult_le_0_compat; lra).
  lra.
Qed.

Lemma round_half_away_mono d x y : x <= y -> round_half_away d x <= round_half_away d y.
Proof.
  intros H.
  destruct (Qlt_le_dec x 0) as [Hx|Hx], (Qlt_le_dec y 0) as [Hy|Hy].
  - rewrite (round_half_away_neg _ _ Hx), (round_half_away_neg _ _ Hy).
    apply Qopp_le_compat, scaled_floor_mono. lra.
  - rewrite (round_half_away_neg _ _ Hx), (round_half_away_nonneg _ _ Hy).
    assert (H1 := scaled_floor_nonneg d (- x)).
    assert (H2 := scaled_floor_nonneg d y Hy).
    lra.
  - lra.
  - rewrite (round_half_away_nonneg _ _ Hx), (round_half_away_nonneg _ _ Hy).
    apply scaled_floor_mono, H.
Qed.

(** A multiple of [10^-d] is its own rounding. *)
Lemma round_half_away_multiple d (n : Z) :
  round_half_away d (inject_Z n / pow10 d) == inject_Z n / pow10 d.
Proof.
  assert (Hs := pow10_pos d).
  assert (Hfl : forall m : Z, Qfloor (inject_Z m / pow10 d * pow10 d + 0.5) = m).
  { intros m. rewrite (Qfloor_comp _ (inject_Z m + 0.5)) by (field; lra).
    apply Z.le_antisymm.
    - apply Z.lt_succ_r. rewrite Zlt_Qlt.
      eapply Qle_lt_trans; [apply Qfloor_le|].
      unfold Z.succ. rewrite inject_Z_plus. change (inject_Z 1) with 1. lra.
    - rewrite <- (Qfloor_Z m) at 1. apply Qfloor_resp_le. lra. }
  destruct (Z_lt_le_dec n 0) as [Hn|Hn].
  - assert (inject_Z n / pow10 d < 0) as Hneg.
    { apply Qlt_shift_div_r; [exact Hs|]. rewrite Qmult_0_l.
      change 0 with (inject_Z 0). rewrite <- Zlt_Qlt. exact Hn. }
    rewrite (round_half_away_neg _ _ Hneg).
    rewrite (Qfloor_comp _ (inject_Z (- n) / pow10 d * pow10 d + 0.5))
      by (rewrite inject_Z_opp; field; lra).
    rewrite Hfl, inject_Z_opp. field. lra.
  - assert (0 <= inject_Z n / pow10 d) as Hnn.
    { apply Qle_shift_div_l; [exact Hs|]. rewrite Qmult_0_l.
      change 0 with (inject_Z 0). rewrite <- Zle_Qle. exact Hn. }
    rewrite (round_half_away_nonneg _ _ Hnn), Hfl. reflexivity.
Qed.

(** Rounding moves a number by at most half a unit of the last place. *)
Lemma round_half_away_error d x :
  Qabs (round_half_away d x - x) <= 0.5 / pow10 d.
Proof.
  assert (Hs := pow10_pos d).
  assert (Hfl : forall a, Qabs (inject_Z (Qfloor (a * pow10 d + 0.5)) / pow10 d - a)
                          <= 0.5 / pow10 d).
  { intros a.
    assert (L := Qfloor_le (a * pow10 d + 0.5)).
    assert (U := Qlt_floor (a * pow10 d + 0.5)).
    rewrite inject_Z_plus in U. change (inject_Z 1) with 1 in U.
    set (n := inject_Z (Qfloor (a * pow10 d + 0.5))) in *.
    assert (E : n / pow10 d - a == (n - a * pow10 d) / pow10 d) by (field; lra).
    rewrite E. unfold Qdiv at 1. rewrite Qabs_Qmult.
    rewrite (Qabs_pos (/ pow10 d)) by (apply Qlt_le_weak, Qinv_lt_0_compat, Hs).
    apply Qmult_le_compat_r; [|apply Qlt_le_weak, Qinv_lt_0_compat, Hs].
    apply Qabs_Qle_condition. lra. }
  destruct (Qlt_le_dec x 0) as [Hx|Hx].
  - rewrite (round_half_away_neg _ _ Hx).
    specialize (Hfl (- x)).
    rewrite <- Qabs_opp.
    assert (E : - (- (inject_Z (Qfloor (- x * pow10 d + 0.5)) / pow10 d) - x)
                == inject_Z (Qfloor (- x * pow10 d + 0.5)) / pow10 d - - x) by ring.
    rewrite E. exact Hfl.
  - rewrite (round_half_away_nonneg _ _ Hx). apply Hfl.
Qed.

Lemma pow10_21_multiple d : exists n : Z, pow10 21 == inject_Z n / pow10 d.
Proof.
  exists (10 ^ 21 * 10 ^ Z.of_nat d)%Z. unfold pow10.
  change (Z.of_nat 21) with 21%Z.
  rewrite inject_Z_mult.
  assert (Hs := pow10_pos d). unfold pow10 in Hs.
  set (s := inject_Z (10 ^ Z.of_nat d)) in *.
  set (b := inject_Z (10 ^ 21)).
  field. lra.
Qed.

Lemma round_half_away_comp d x y : x == y -> round_half_away d x == round_half_away d y.
Proof.
  intros E. apply Qle_antisym; apply round_half_away_mono; lra.
Qed.

Lemma toFixed_mono d x y : x <= y -> toFixed d x <= toFixed d y.
Proof.
  intros H. unfold toFixed.
  destruct (pow10_21_multiple d) as [n Hn].
  assert (Hfix : round_half_away d (pow10 21) == pow10 21).
  { rewrite (round_half_away_comp _ _ _ Hn), round_half_away_multiple. lra. }
  assert (Hfixn : round_half_away d (- pow10 21) == - pow10 21).
  { assert (E : - pow10 21 == inject_Z (- n) / pow10 d).
    { rewrite Hn, inject_Z_opp. field. assert (Hs := pow10_pos d). lra. }
    rewrite (round_half_away_comp _ _ _ E), round_half_away_multiple. lra. }
  assert (Hb := pow10_pos 21).
  destruct (Qle_bool (pow10 21) (Qabs x)) eqn:Ex, (Qle_bool (pow10 21) (Qabs y)) eqn:Ey.
  - exact H.
  - apply Qle_bool_iff in Ex. apply Qle_bool_false in Ey.
    apply Qabs_Qlt_condition in Ey.
    assert (x <= - pow10 21).
    { destruct (Qlt_le_dec x 0) as [Hx|Hx].
      - rewrite Qabs_neg in Ex by lra. lra.
      - rewrite Qabs_pos in Ex by lra. lra. }
    assert (round_half_away d (- pow10 21) <= round_half_away d y)
      by (apply round_half_away_mono; lra).
    lra.
  - apply Qle_bool_iff in Ey. apply Qle_bool_false in Ex.
    apply Qabs_Qlt_condition in Ex.
    assert (pow10 21 <= y).
    { destruct (Qlt_le_dec y 0) as [Hy|Hy].
      - rewrite Qabs_neg in Ey by lra. lra.
      - rewrite Qabs_pos in Ey by lra. lra. }
    assert (round_half_away d x <= round_half_away d (pow10 21))
      by (apply round_half_away_mono; lra).
    lra.
  - apply round_half_away_mono, H.
Qed.


Lemma num_or_self q d : num_or q d == q \/ (q == 0 /\ num_or q d = d).
Proof.
  unfold num_or. destruct (Qeq_bool q 0) eqn:E.
  - right. split; [apply Qeq_bool_iff; exact E | reflexivity].
  - left. reflexivity.
Qed.

Lemma num_or_zero q : num_or q 0 == q.
Proof. destruct (num_or_self q 0) as [H|[H ->]]; [exact H | symmetry; exact H]. Qed.

End Numbers.

(** ** The reference runtime meets what the proofs ask of an engine *)

Module ReferenceFacts.

Lemma taylor2_mono x y : 0 <= x -> x <= y -> 1 + x + 0.5 * x * x <= 1 + y + 0.5 * y * y.
Proof.
  intros Hx Hxy.
  assert (0 <= (y - x) * (x + y)) by (apply Qmult_le_0_compat; lra).
  lra.
Qed.

Lemma taylor2_ge_1 x : 0 <= x -> 1 <= 1 + x + 0.5 * x * x.
Proof.
  intros Hx. assert (0 <= x * x) by (apply Qmult_le_0_compat; lra). lra.
Qed.

Lemma exp_pos x : 0 < Reference.exp x.
Proof.
  unfold Reference.exp. destruct (Qle_bool 0 x) eqn:E.
  - apply Qle_bool_iff in E. pose proof (taylor2_ge_1 x E). lra.
  - apply Qle_bool_false in E. apply Qinv_lt_0_compat.
    pose proof (taylor2_ge_1 (- x) ltac:(lra)). lra.
Qed.

Lemma exp_nonneg x : 0 <= Reference.exp x.
Proof. apply Qlt_le_weak, exp_pos. Qed.

Lemma exp_mono x y : x <= y -> Reference.exp x <= Reference.exp y.
Proof.
  intros Hxy. unfold Reference.exp.
  destruct (Qle_bool 0 x) eqn:Ex, (Qle_bool 0 y) eqn:Ey.
  - apply Qle_bool_iff in Ex. apply taylor2_mono; assumption.
  - apply Qle_bool_iff in Ex. apply Qle_bool_false in Ey. lra.
  - apply Qle_bool_false in Ex. apply Qle_bool_iff in Ey.
    pose proof (taylor2_ge_1 (- x) ltac:(lra)) as Hd.
    pose proof (taylor2_ge_1 y Ey) as Hn.
    apply Qle_trans with 1; [|lra].
    assert (E1 : / (1 - x + 0.5 * x * x) == 1 / (1 - x + 0.5 * x * x))
      by (unfold Qdiv; ring).
    rewrite E1. apply Qle_shift_div_r; lra.
  - apply Qle_bool_false in Ex. apply Qle_bool_false in Ey.
    pose proof (taylor2_ge_1 (- x) ltac:(lra)) as Hdx.
    pose proof (taylor2_ge_1 (- y) ltac:(lra)) as Hdy.
    pose proof (taylor2_mono (- y) (- x) ltac:(lra) ltac:(lra)) as Hm.
    assert (Ex1 : / (1 - x + 0.5 * x * x) == 1 / (1 - x + 0.5 * x * x))
      by (unfold Qdiv; ring).
    assert (Ey1 : / (1 - y + 0.5 * y * y) == 1 / (1 - y + 0.5 * y * y))
      by (unfold Qdiv; ring).
    rewrite Ex1, Ey1.
    apply Qle_shift_div_l; [lra|].
    assert (E : 1 / (1 - x + 0.5 * x * x) * (1 - y + 0.5 * y * y)
                == (1 - y + 0.5 * y * y) / (1 - x + 0.5 * x * x)) by (field; lra).
    rewrite E. apply Qle_shift_div_r; lra.
Qed.

End ReferenceFacts.

(** ** Sums of numbers *)

Section Sums.

Lemma fold_left_Qplus_acc (l : list Q) (a : Q) :
  fold_left Qplus l a == a + sumQ l.
Proof.
  unfold sumQ. revert a.
  induction l as [|x l IH]; intros a; simpl.
  - ring.
  - rewrite (IH (a + x)), (IH (0 + x)). ring.
Qed.

Lemma sumQ_cons x l : sumQ (x :: l) == x + sumQ l.
Proof.
  unfold sumQ at 1. simpl. rewrite fold_left_Qplus_acc. ring.
Qed.

Lemma sumQ_nil : sumQ [] == 0.
Proof. reflexivity. Qed.

Lemma sumQ_nonneg l : List.Forall (fun x => 0 <= x) l -> 0 <= sumQ l.
Proof.
  induction 1 as [|x l Hx _ IH]; [apply Qle_refl|].
  rewrite sumQ_cons. lra.
Qed.

Lemma sumQ_pos l : List.Forall (fun x => 0 < x) l -> l <> [] -> 0 < sumQ l.
Proof.
  intros H Hne. destruct H as [|x l Hx Hl]; [congruence|].
  rewrite sumQ_cons.
  assert (0 <= sumQ l).
  { apply sumQ_nonneg. eapply List.Forall_impl; [|exact Hl].
    intros; now apply Qlt_le_weak. }
  lra.
Qed.

Lemma sumQ_le_member l x :
  List.Forall (fun x => 0 <= x) l -> In x l -> x <= sumQ l.
Proof.
  induction 1 as [|y l Hy Hl IH]; simpl; [tauto|].
  intros [->|Hin]; rewrite sumQ_cons.
  - pose proof (sumQ_nonneg l Hl). lra.
  - specialize (IH Hin). lra.
Qed.

Lemma sumQ_map_div l s : ~ s == 0 -> sumQ (map (fun v => v / s) l) == sumQ l / s.
Proof.
  intros Hs. induction l as [|x l IH]; simpl.
  - unfold sumQ. simpl. field. exact Hs.
  - rewrite !sumQ_cons, IH. field. exact Hs.
Qed.

(** Rounding [n] numbers moves their sum by at most [n] half-units. *)
Lemma sumQ_map_round d (l : list Q) :
  Qabs (sumQ (map (round_half_away d) l) - sumQ l)
  <= inject_Z (Z.of_nat (List.length l)) * (0.5 / pow10 d).
Proof.
  induction l as [|x l IH].
  - vm_compute. discriminate.
  - cbn [map List.length]. rewrite !sumQ_cons.
    rewrite Nat2Z.inj_succ. unfold Z.succ. rewrite inject_Z_plus.
    change (inject_Z 1) with 1.
    pose proof (round_half_away_error d x) as Hx.
    apply Qabs_Qle_condition in Hx. apply Qabs_Qle_condition in IH.
    apply Qabs_Qle_condition.
    set (e := 0.5 / pow10 d) in *.
    set (n := inject_Z (Z.of_nat (List.length l))) in *.
    split; lra.
Qed.

End Sums.

(** ** Arrays: sorting and slicing *)

Section Arrays.
Context {A : Type}.

Lemma insert_sorted_In (before : A -> A -> bool) x y l :
  In y (insert_sorted before x l) <-> y = x \/ In y l.
Proof.
  induction l as [|z l IH]; simpl.
  - intuition.
  - destruct (before x z); simpl; [intuition|].
    rewrite IH. intuition.
Qed.

Lemma sort_by_In (before : A -> A -> bool) y l :
  In y (sort_by before l) <-> In y l.
Proof.
  induction l as [|x l IH]; simpl; [tauto|].
  rewrite insert_sorted_In, IH. intuition.
Qed.

Lemma insert_sorted_length (before : A -> A -> bool) x l :
  List.length (insert_sorted before x l) = S (List.length l).
Proof.
  induction l as [|z l IH]; simpl; [reflexivity|].
  destruct (before x z); simpl; [reflexivity | now rewrite IH].
Qed.

Lemma sort_by_length (before : A -> A -> bool) l :
  List.length (sort_by before l) = List.length l.
Proof.
  induction l as [|x l IH]; simpl; [reflexivity|].
  now rewrite insert_sorted_length, IH.
Qed.

(** An element that no later one beats stays first. *)
Lemma sort_by_head (before : A -> A -> bool) x l :
  (forall y, In y l -> before x y = true) ->
  sort_by before (x :: l) = x :: sort_by before l.
Proof.
  intros H. simpl.
  destruct (sort_by before l) as [|z s] eqn:E; [reflexivity|].
  simpl. rewrite H; [reflexivity|].
  apply (sort_by_In before). rewrite E. now left.
Qed.



Lemma last_opt_map {B} (f : A -> B) (l : list A) :
  last_opt (map f l) = option_map f (last_opt l).
Proof.
  induction l as [|y l IH]; [reflexivity|].
  destruct l as [|z l]; [reflexivity|]. exact IH.
Qed.

Lemma slice_from_In (start : Z) (l : list A) x :
  In x (slice_from start l) -> In x l.
Proof.
  unfold slice_from. intros H.
  rewrite <- (firstn_skipn (Z.to_nat
    (if (start <? 0)%Z
     then Z.max (Z.of_nat (List.length l) + start) 0
     else Z.min start (Z.of_nat (List.length l)))) l).
  apply in_or_app. now right.
Qed.


End Arrays.

(** ** PredictiveAnalytics: forecasts and the priority score *)

Module PredictiveAnalyticsFacts.
Import PredictiveAnalytics.

Section Forecasts.
Context {rt : Runtime}.


(** The three forecasts: step [k] scales the baseline smoothed [k] times
    against itself. *)
Lemma forecast_loop_baseline alpha lastYear L :
  forecast_loop alpha lastYear L 1 3
  = map (fun k : nat =>
           Forecast.mk (lastYear + inject_Z (Z.of_nat k))
             (Math_round (baseline alpha L k
                          * (1 + float_of_Z (Z.of_nat k) * 0.03))%float))
        [1; 2; 3]%nat.
Proof. reflexivity. Qed.







(** *** The table [countsByYear] *)

Lemma bump_total y m :
  fold_right Z.add 0%Z (map snd (bump y m)) = (fold_right Z.add 0%Z (map snd m) + 1)%Z.
Proof.
  induction m as [|[k c] m IH]; simpl; [reflexivity|].
  destruct (Qeq_bool k y); simpl; lia.
Qed.

Lemma bump_counts_pos y m :
  List.Forall (fun kc => (1 <= snd kc)%Z) m ->
  List.Forall (fun kc => (1 <= snd kc)%Z) (bump y m).
Proof.
  induction 1 as [|[k c] m Hk Hm IH]; simpl.
  - constructor; [simpl; lia | constructor].
  - simpl in Hk. destruct (Qeq_bool k y); constructor; simpl; auto; lia.
Qed.

Lemma StronglySorted_snoc {A} (R : A -> A -> Prop) l y :
  StronglySorted R l -> List.Forall (fun k => R k y) l -> StronglySorted R (l ++ [y]).
Proof.
  induction 1 as [|x l Hl IH Hx]; intros Hy; simpl.
  - repeat constructor.
  - inversion Hy; subst. constructor; [now apply IH|].
    apply List.Forall_app. split; [exact Hx | now repeat constructor].
Qed.

Lemma bump_keys_cases y m :
  map fst (bump y m) = map fst m
  \/ (List.Forall (fun k => ~ k == y) (map fst m)
      /\ map fst (bump y m) = map fst m ++ [y]).
Proof.
  induction m as [|[k c] m IH]; simpl.
  - right. split; [constructor | reflexivity].
  - destruct (Qeq_bool k y) eqn:E; simpl; [now left|].
    destruct IH as [IH|[Hall IH]]; [left | right]; rewrite IH; [reflexivity|].
    split; [|reflexivity]. constructor; [|exact Hall].
    intros Hk. apply Qeq_bool_iff in Hk. congruence.
Qed.

Lemma bump_keys_distinct y m :
  StronglySorted (fun a b => ~ a == b) (map fst m) ->
  StronglySorted (fun a b => ~ a == b) (map fst (bump y m)).
Proof.
  intros H. destruct (bump_keys_cases y m) as [->|[Hall ->]]; [exact H|].
  apply StronglySorted_snoc; assumption.
Qed.

Lemma countsByYear_invariant planets :
  let m := countsByYear planets in
  fold_right Z.add 0%Z (map snd m) = Z.of_nat (List.length planets)
  /\ List.Forall (fun kc => (1 <= snd kc)%Z) m
  /\ StronglySorted (fun a b => ~ a == b) (map fst m).
Proof.
  unfold countsByYear.
  assert (G : forall ps m,
    List.Forall (fun kc => (1 <= snd kc)%Z) m ->
    StronglySorted (fun a b => ~ a == b) (map fst m) ->
    let m' := fold_left
      (fun m p => bump (Number_or (Planet.discovery_year p) (inject_Z currentYear)) m)
      ps m in
    fold_right Z.add 0%Z (map snd m')
    = (fold_right Z.add 0%Z (map snd m) + Z.of_nat (List.length ps))%Z
    /\ List.Forall (fun kc => (1 <= snd kc)%Z) m'
    /\ StronglySorted (fun a b => ~ a == b) (map fst m')).
  { induction ps as [|p ps IH]; intros m Hpos Hd; cbn [fold_left List.length].
    - split; [lia | split; assumption].
    - set (y := Number_or (Planet.discovery_year p) (inject_Z currentYear)).
      destruct (IH (bump y m) (bump_counts_pos y m Hpos) (bump_keys_distinct y m Hd))
        as (E & P & D).
      split; [|split; assumption].
      rewrite E, bump_total. lia. }
  destruct (G planets [] ltac:(constructor) ltac:(constructor)) as (E & P & D).
  split; [|split; assumption]. rewrite E. simpl. lia.
Qed.

Lemma count_of_found y m :
  In y (map fst m) -> List.Forall (fun kc => (1 <= snd kc)%Z) m ->
  (1 <= count_of y m)%Z.
Proof.
  induction m as [|[k c] m IH]; simpl; [tauto|].
  intros Hin Hpos. inversion Hpos as [|? ? Hc Hm]; subst. simpl in Hc.
  destruct (Qeq_bool k y) eqn:E; [exact Hc|].
  destruct Hin as [->|Hin]; [|now apply IH].
  assert (Qeq_bool y y = true) by (apply Qeq_bool_iff; reflexivity). congruence.
Qed.

Lemma count_of_nonneg y m :
  List.Forall (fun kc => (1 <= snd kc)%Z) m -> (0 <= count_of y m)%Z.
Proof.
  induction 1 as [|[k c] m Hc Hm IH]; simpl; [lia|].
  simpl in Hc. destruct (Qeq_bool k y); lia.
Qed.

(** Over distinct keys, the counts read back key by key add up to the
    counts stored. *)
Lemma count_of_keys_total m :
  StronglySorted (fun a b => ~ a == b) (map fst m) ->
  fold_right Z.add 0%Z (map (fun y => count_of y m) (map fst m))
  = fold_right Z.add 0%Z (map snd m).
Proof.
  induction m as [|[k c] m IH]; [reflexivity|].
  cbn [map fst snd]. intros Hd. inversion Hd as [|? ? Hm Hk]; subst.
  cbn [fold_right]. f_equal.
  - cbn [count_of]. assert (Qeq_bool k k = true) as -> by (apply Qeq_bool_iff; reflexivity).
    reflexivity.
  - rewrite <- (IH Hm). f_equal. apply map_ext_in. intros y Hy. cbn [count_of].
    rewrite List.Forall_forall in Hk. specialize (Hk y Hy).
    destruct (Qeq_bool k y) eqn:E; [|reflexivity].
    apply Qeq_bool_iff in E. contradiction.
Qed.

(** *** Sorting the years *)

Lemma insert_sorted_strict x s :
  StronglySorted Qlt s -> List.Forall (fun k => ~ x == k) s ->
  StronglySorted Qlt (insert_sorted Qle_bool x s).
Proof.
  induction 1 as [|z s Hs IH Hz]; intros Hx; simpl.
  - repeat constructor.
  - inversion Hx as [|? ? Hxz Hxs]; subst.
    destruct (Qle_bool x z) eqn:E.
    + apply Qle_bool_iff in E.
      assert (x < z) by (apply Qle_lteq in E; destruct E; [assumption|contradiction]).
      constructor; [constructor; assumption|].
      constructor; [assumption|].
      eapply List.Forall_impl; [|exact Hz]. intros a Ha.
      apply Qlt_trans with z; assumption.
    + apply Qle_bool_false in E.
      constructor; [now apply IH|].
      apply List.Forall_forall. intros a Ha.
      apply insert_sorted_In in Ha. destruct Ha as [->|Ha]; [exact E|].
      rewrite List.Forall_forall in Hz. now apply Hz.
Qed.

Lemma sort_by_strict l :
  StronglySorted (fun a b => ~ a == b) l -> StronglySorted Qlt (sort_by Qle_bool l).
Proof.
  induction 1 as [|x l Hl IH Hx]; simpl; [constructor|].
  apply insert_sorted_strict; [exact IH|].
  apply List.Forall_forall. intros k Hk. apply sort_by_In in Hk.
  rewrite List.Forall_forall in Hx. now apply Hx.
Qed.

Lemma insert_sorted_Permutation {A} (before : A -> A -> bool) x l :
  Permutation (insert_sorted before x l) (x :: l).
Proof.
  induction l as [|y l IH]; simpl; [reflexivity|].
  destruct (before x y); [reflexivity|].
  rewrite IH. apply perm_swap.
Qed.

Lemma sort_by_Permutation {A} (before : A -> A -> bool) l :
  Permutation (sort_by before l) l.
Proof.
  induction l as [|x l IH]; simpl; [reflexivity|].
  rewrite insert_sorted_Permutation. now constructor.
Qed.

Lemma sum_Permutation (l l' : list Z) :
  Permutation l l' -> fold_right Z.add 0%Z l = fold_right Z.add 0%Z l'.
Proof. induction 1; simpl; lia. Qed.

Lemma StronglySorted_skipn {A} (R : A -> A -> Prop) n l :
  StronglySorted R l -> StronglySorted R (skipn n l).
Proof.
  revert l. induction n as [|n IH]; intros l H; [exact H|].
  destruct l as [|x l]; [constructor|]. simpl. apply IH.
  now inversion H.
Qed.

Lemma sum_skipn_le n (l : list Z) :
  List.Forall (fun c => (0 <= c)%Z) l ->
  (fold_right Z.add 0%Z (skipn n l) <= fold_right Z.add 0%Z l)%Z.
Proof.
  revert l. induction n as [|n IH]; intros l H; [apply Z.le_refl|].
  destruct l as [|x l]; [apply Z.le_refl|]. inversion H; subst.
  cbn [skipn fold_right]. specialize (IH l ltac:(assumption)).
  match goal with Hx : (0 <= x)%Z |- _ => revert Hx end. revert IH.
  generalize (fold_right Z.add 0%Z (skipn n l)) (fold_right Z.add 0%Z l).
  intros. lia.
Qed.

Lemma series_years self planets :
  map Series.year (series (analyzeDiscoveryPatterns self planets))
  = slice_from (- timeWindowYears self)
      (sort_by Qle_bool (map fst (countsByYear planets))).
Proof.
  unfold analyzeDiscoveryPatterns. cbn [series]. rewrite map_map. cbn [Series.year].
  apply map_id.
Qed.

Lemma series_counts self planets :
  map Series.count (series (analyzeDiscoveryPatterns self planets))
  = map (fun y => count_of y (countsByYear planets))
        (slice_from (- timeWindowYears self)
           (sort_by Qle_bool (map fst (countsByYear planets)))).
Proof.
  unfold analyzeDiscoveryPatterns. cbn [series]. rewrite map_map. reflexivity.
Qed.

(** *** The series against the history *)









End Forecasts.

Section PriorityScore.
Context {rt : Runtime}.

(** C6.  With every other field fixed, [calculatePriorityScore] does not
    decrease when the numeric [habitability_score] grows. *)
Theorem calculatePriorityScore_monotone (planet : Planet.t) (h1 h2 : Q) :
  h1 <= h2 ->
  calculatePriorityScore (Planet.with_habitability_score (JNum h1) planet)
  <= calculatePriorityScore (Planet.with_habitability_score (JNum h2) planet).
Proof.
  intros H. unfold calculatePriorityScore. cbn [Planet.with_habitability_score
    Planet.habitability_score Planet.ai_confidence Planet.follow_up_observations
    Planet.distance Planet.confirmed_status].
  unfold Number_or at 1 5. cbn [ToNumber].
  apply toFixed_mono, Math_max_mono_r, Math_min_mono_r.
  pose proof (num_or_zero h1). pose proof (num_or_zero h2).
  lra.
Qed.

End PriorityScore.



Lemma calculatePriorityScore_monotone_witness :
  calculatePriorityScore (rt := Reference.runtime)
    (Planet.with_habitability_score (JNum 0.2) Examples.earthlike)
  <= calculatePriorityScore (rt := Reference.runtime)
       (Planet.with_habitability_score (JNum 0.8) Examples.earthlike).
Proof.
  apply (calculatePriorityScore_monotone (rt := Reference.runtime)
           Examples.earthlike 0.2 0.8).
  unfold Qle. simpl. lia.
Defined.

End PredictiveAnalyticsFacts.

(** ** SpectroscopyAI: smoothing, the empty input, the biosignature rules *)

Module SpectroscopyFacts.
Import SpectroscopyAI.

(** C9.  On fewer samples than the window, the smoothing stage copies each
    raw intensity into [intensity_smoothed] and changes nothing else. *)
Theorem savitzkyGolay_short_input (y : list Point.t) (window order : nat) :
  (List.length y < window)%nat ->
  let out := _savitzkyGolay y window order in
  map Point.intensity_smoothed out = map (fun p => Some (Point.intensity p)) y
  /\ map Point.intensity out = map Point.intensity y
  /\ map Point.wavelength out = map Point.wavelength y
  /\ map Point.snr out = map Point.snr y.
Proof.
  intros Hlen out. subst out. unfold _savitzkyGolay.
  apply Nat.ltb_lt in Hlen. rewrite Hlen.
  rewrite !map_map. repeat split; apply map_ext; intros p; reflexivity.
Qed.

Section Analysis.
Context {rt : Runtime}.

(** C5.  Whatever the planet, an empty array and a value that is no array
    get the fixed result: no detection, no molecule confidence, confidence
    [0], level "Low" for the reason "No data". *)
Theorem analyzeSpectrum_no_data (self : t) (planet : option Planet.t) :
  let no_data :=
    mkAnalysis [] [] (mkFeatures 0 0 0) (mkBiosignature "Low" "No data") [] 0 in
  analyzeSpectrum self NotAnArray planet = no_data
  /\ analyzeSpectrum self (Samples []) planet = no_data
  /\ detectedMolecules no_data = []
  /\ moleculeConfidences no_data = []
  /\ confidence no_data = 0
  /\ biosignaturePotential no_data = mkBiosignature "Low" "No data".
Proof. repeat split. Qed.

End Analysis.

(** *** The object [present] and its reader [has] *)

Lemma fromEntries_get_unique (pairs : list (string * Q)) k v :
  List.NoDup (map fst pairs) -> In (k, v) pairs -> fromEntries_get pairs k = Some v.
Proof.
  induction pairs as [|[k' v'] rest IH]; simpl; [tauto|].
  intros Hnd [E|Hin].
  - injection E as -> ->.
    destruct (fromEntries_get rest k) as [w|] eqn:G.
    + exfalso. inversion Hnd as [|? ? Hnotin _]; subst. apply Hnotin.
      clear -G. induction rest as [|[k2 v2] rest IH]; simpl in *; [discriminate|].
      destruct (fromEntries_get rest k) eqn:G'.
      * right. now apply IH.
      * destruct (String.eqb k2 k) eqn:Ek; [|discriminate].
        left. now apply String.eqb_eq.
    + now rewrite String.eqb_refl.
  - inversion Hnd; subst. rewrite (IH ltac:(assumption) Hin). reflexivity.
Qed.

(** The detections keep the order of the molecule table and add no name. *)
Lemma collect_detections_names (matches : list (string * Match.t)) :
  let keep := fun mi : string * Match.t =>
    (Match.detected (snd mi) && Qgt_bool (Match.confidence (snd mi)) 0.2)%bool in
  map Detection.molecule
    (collect (fun mi =>
                if keep mi
                then Some (Detection.mk (fst mi) (Match.confidence (snd mi))
                                        (Match.windows (snd mi)))
                else None) matches)
  = map fst (List.filter keep matches).
Proof.
  intros keep.
  induction matches as [|mi ms IH]; [reflexivity|].
  cbn [collect List.filter]. destruct (keep mi); cbn [map]; now rewrite IH.
Qed.

Lemma NoDup_map_filter {A B} (f : A -> B) (c : A -> bool) (l : list A) :
  List.NoDup (map f l) -> List.NoDup (map f (List.filter c l)).
Proof.
  induction l as [|x l IH]; simpl; [intros; constructor|].
  intros Hnd. inversion Hnd as [|? ? Hnotin Hnd']; subst.
  destruct (c x); simpl; [|now apply IH].
  constructor; [|now apply IH].
  intros Hin. apply Hnotin.
  apply in_map_iff in Hin. destruct Hin as [y [Ey Hy]].
  apply filter_In in Hy. apply in_map_iff. exists y. tauto.
Qed.

Lemma molecule_names_upper_NoDup :
  List.NoDup (map (fun mr => toUpperCase (fst mr)) _moleculeWindows).
Proof.
  vm_compute.
  repeat (constructor; [simpl; intros H; repeat (destruct H as [H|H]; [discriminate H|]); exact H|]).
  constructor.
Qed.

Section Precedence.
Context {rt : Runtime}.

Lemma has_detected (self : t) (normalized : list Point.t) :
  let matches := _matchTemplates self normalized in
  let detected :=
    collect (fun mi =>
               if (Match.detected (snd mi)
                   && Qgt_bool (Match.confidence (snd mi)) 0.2)%bool
               then Some (Detection.mk (fst mi) (Match.confidence (snd mi))
                                       (Match.windows (snd mi)))
               else None) matches in
  let present :=
    map (fun d => (toUpperCase (Detection.molecule d), Detection.confidence d))
        detected in
  forall d, In d detected -> 0.25 < Detection.confidence d ->
            has present (Detection.molecule d) = true.
Proof.
  intros matches detected present d Hin Hc. unfold has.
  rewrite (fromEntries_get_unique present _ (Detection.confidence d)).
  - apply andb_true_intro. split.
    + apply negb_true_iff. destruct (Qeq_bool (Detection.confidence d) 0) eqn:E;
        [|reflexivity].
      apply Qeq_bool_iff in E. lra.
    + unfold Qgt_bool. apply negb_true_iff.
      destruct (Qle_bool (Detection.confidence d) 0.25) eqn:E; [|reflexivity].
      apply Qle_bool_iff in E. lra.
  - unfold present. rewrite map_map. cbn [fst].
    rewrite <- (map_map Detection.molecule toUpperCase).
    unfold detected. rewrite collect_detections_names, map_map.
    apply NoDup_map_filter. unfold matches, _matchTemplates.
    rewrite map_map. cbn [fst]. exact molecule_names_upper_NoDup.
  - unfold present.
    apply (in_map (fun d => (toUpperCase (Detection.molecule d), Detection.confidence d))).
    exact Hin.
Qed.

(** C2.  When the analysis of a non-empty spectrum lists O2 and CH4 among
    the detected molecules, each with a confidence above 0.25, the level is
    "High", whatever the other rules would say. *)
Theorem biosignature_precedence (self : t) (samples : list Point.t)
  (planet : option Planet.t) (o2 ch4 : Detection.t) :
  samples <> [] ->
  let r := analyzeSpectrum self (Samples samples) planet in
  In o2 (detectedMolecules r) -> Detection.molecule o2 = "O2" ->
  0.25 < Detection.confidence o2 ->
  In ch4 (detectedMolecules r) -> Detection.molecule ch4 = "CH4" ->
  0.25 < Detection.confidence ch4 ->
  level (biosignaturePotential r) = "High".
Proof.
  intros Hne r. subst r.
  destruct samples as [|s0 samples]; [congruence|]. clear Hne.
  cbn [analyzeSpectrum detectedMolecules biosignaturePotential].
  set (normalized := _normalize _).
  set (detected := collect _ _).
  intros Ho Hno Hco Hc Hnc Hcc.
  pose proof (has_detected self normalized o2 Ho Hco) as H1.
  pose proof (has_detected self normalized ch4 Hc Hcc) as H2.
  cbv zeta in H1, H2. rewrite Hno in H1. rewrite Hnc in H2.
  fold detected in H1, H2.
  cbv beta zeta delta [biosignature].
  rewrite H1, H2. reflexivity.
Qed.

End Precedence.

(** The sample spectrum of [Examples], analysed with the reference runtime *)
Lemma biosignature_precedence_witness :
  level (biosignaturePotential
           (analyzeSpectrum (rt := Reference.runtime) default
              (Samples Examples.o2_ch4_spectrum) None)) = "High".
Proof.
  set (r := analyzeSpectrum (rt := Reference.runtime) default
              (Samples Examples.o2_ch4_spectrum) None).
  set (dflt := Detection.mk "" 0 []).
  refine (biosignature_precedence (rt := Reference.runtime) default
            Examples.o2_ch4_spectrum None
            (nth 1 (detectedMolecules r) dflt) (nth 0 (detectedMolecules r) dflt)
            _ _ _ _ _ _ _).
  - discriminate.
  - apply nth_In. vm_compute. lia.
  - vm_compute. reflexivity.
  - vm_compute. reflexivity.
  - apply nth_In. vm_compute. lia.
  - vm_compute. reflexivity.
  - vm_compute. reflexivity.
Defined.

Lemma savitzkyGolay_short_input_witness :
  let y := Examples.o2_ch4_spectrum in
  let out := _savitzkyGolay y 7 3 in
  map Point.intensity_smoothed out = map (fun p => Some (Point.intensity p)) y
  /\ map Point.intensity out = map Point.intensity y
  /\ map Point.wavelength out = map Point.wavelength y
  /\ map Point.snr out = map Point.snr y.
Proof.
  apply (savitzkyGolay_short_input Examples.o2_ch4_spectrum 7 3).
  simpl. lia.
Defined.

End SpectroscopyFacts.

(** ** ExoplanetClassifier: the cache, totality, the probabilities *)

Module ClassifierFacts.
Import Classifier.

Section Cache.
Context {rt : Runtime}.

Lemma loaded_modelLoaded self : modelLoaded (loaded self) = true.
Proof. unfold loaded, loadModel. destruct (modelLoaded self) eqn:E; [exact E | reflexivity]. Qed.

Lemma loaded_cache self : cache (loaded self) = cache self.
Proof. unfold loaded, loadModel. destruct (modelLoaded self); reflexivity. Qed.

Lemma loaded_calibration self : calibration (loaded self) = calibration self.
Proof. unfold loaded, loadModel. destruct (modelLoaded self); reflexivity. Qed.

Lemma loaded_labels self : labels (loaded self) = labels self.
Proof. unfold loaded, loadModel. destruct (modelLoaded self); reflexivity. Qed.

Lemma loaded_fixed self : modelLoaded self = true -> loaded self = self.
Proof. unfold loaded. intros ->. reflexivity. Qed.

(** The computation reads the calibration and the labels of the classifier,
    never its cache. *)
Lemma classify_ext self self' planet :
  calibration self = calibration self' -> labels self = labels self' ->
  classify self planet = classify self' planet.
Proof.
  intros Hc Hl. unfold classify, probabilities_from, _calibrate.
  rewrite Hc, Hl. reflexivity.
Qed.

Lemma classifyPlanet_unfold self planet :
  classifyPlanet self planet =
  match cache (loaded self) !! _hashPlanet planet with
  | Some cached => (Ok cached, loaded self)
  | None =>
      match classify (loaded self) planet with
      | Ok result =>
          (Ok result,
           set_cache (<[_hashPlanet planet := result]> (cache (loaded self)))
                     (loaded self))
      | Throw e => (Throw e, loaded self)
      end
  end.
Proof. reflexivity. Qed.

(** A call that returns a result leaves it in the cache under the key of
    its argument, in a classifier whose model is loaded. *)
Lemma classifyPlanet_caches self planet r :
  fst (classifyPlanet self planet) = Ok r ->
  let self1 := snd (classifyPlanet self planet) in
  modelLoaded self1 = true
  /\ cache self1 !! _hashPlanet planet = Some r
  /\ calibration self1 = calibration self
  /\ labels self1 = labels self.
Proof.
  rewrite classifyPlanet_unfold.
  destruct (cache (loaded self) !! _hashPlanet planet) as [c|] eqn:Hc.
  - cbn [fst snd]. intros [= ->].
    repeat split; auto using loaded_modelLoaded, loaded_calibration, loaded_labels.
  - destruct (classify (loaded self) planet) as [r'|e]; cbn [fst snd]; [|discriminate].
    intros [= ->]. cbn [set_cache modelLoaded cache calibration labels].
    repeat split; auto using loaded_modelLoaded, loaded_calibration, loaded_labels.
    apply lookup_insert_eq.
Qed.

Lemma classifyPlanet_hit self planet r :
  modelLoaded self = true -> cache self !! _hashPlanet planet = Some r ->
  classifyPlanet self planet = (Ok r, self).
Proof.
  intros Hl Hc. rewrite classifyPlanet_unfold, (loaded_fixed self Hl), Hc.
  reflexivity.
Qed.

(** C3.  Of two successive calls whose arguments have one fingerprint, the
    second returns the result of the first and leaves the classifier as it
    was; after [clearCache()] the call computes afresh from its own argument;
    [clearCache] empties the cache and touches nothing else. *)
Theorem classifyPlanet_cache_idempotent (self : t) (p1 p2 : option Planet.t)
  (r1 : ClassificationResult) :
  fst (classifyPlanet self p1) = Ok r1 ->
  _hashPlanet p1 = _hashPlanet p2 ->
  let self1 := snd (classifyPlanet self p1) in
  classifyPlanet self1 p2 = (Ok r1, self1)
  /\ fst (classifyPlanet (clearCache self1) p2) = classify self p2
  /\ cache (clearCache self1) = ∅
  /\ modelLoaded (clearCache self1) = modelLoaded self1
  /\ calibration (clearCache self1) = calibration self1
  /\ labels (clearCache self1) = labels self1.
Proof.
  intros H1 Hk self1.
  destruct (classifyPlanet_caches self p1 r1 H1) as (Hl & Hc & Hcal & Hlab).
  fold self1 in Hl, Hc, Hcal, Hlab.
  split; [|split; [|repeat split]].
  - apply classifyPlanet_hit; [exact Hl|]. rewrite <- Hk. exact Hc.
  - rewrite classifyPlanet_unfold.
    assert (Hl' : modelLoaded (clearCache self1) = true) by exact Hl.
    rewrite (loaded_fixed _ Hl').
    cbn [clearCache set_cache cache]. rewrite lookup_empty.
    rewrite (classify_ext _ self p2) by (cbn; assumption).
    destruct (classify self p2); reflexivity.
Qed.

(** C10.  The fingerprint reads [name], [mass], [radius], [temperature] and
    [atmosphere] only: a record that agrees with an earlier one on these
    gets the earlier record's result, whatever its other fields. *)
Theorem classifyPlanet_cache_key_blindness (self : t) (p1 p2 : Planet.t)
  (r1 : ClassificationResult) :
  Planet.name p1 = Planet.name p2 ->
  Planet.mass p1 = Planet.mass p2 ->
  Planet.radius p1 = Planet.radius p2 ->
  Planet.temperature p1 = Planet.temperature p2 ->
  Planet.atmosphere p1 = Planet.atmosphere p2 ->
  fst (classifyPlanet self (Some p1)) = Ok r1 ->
  fst (classifyPlanet (snd (classifyPlanet self (Some p1))) (Some p2)) = Ok r1.
Proof.
  intros Hn Hm Hr Ht Ha H1.
  destruct (classifyPlanet_caches self (Some p1) r1 H1) as (Hl & Hc & _).
  assert (Hk : _hashPlanet (Some p1) = _hashPlanet (Some p2)).
  { unfold _hashPlanet. rewrite Hn, Hm, Hr, Ht, Ha. reflexivity. }
  rewrite (classifyPlanet_hit _ (Some p2) r1 Hl); [reflexivity|].
  rewrite <- Hk. exact Hc.
Qed.

End Cache.

Section Totality.
Context {rt : Runtime}.

Lemma base_scores_text (p : Planet.t) (f : FeatureVector.t) :
  atmosphere_is_text (Planet.atmosphere p) = true ->
  exists base, base_scores (Some p) f = Ok base /\ map fst base = base_labels.
Proof.
  intros Ha. unfold base_scores, atmosphere_has_h2o.
  destruct (Planet.atmosphere p) as [| |[|]|q| |s] eqn:E; cbn in Ha |- *;
    try discriminate Ha;
    try (eexists; split; reflexivity).
  - destruct (Qeq_bool q 0) eqn:Eq; cbn in Ha |- *; [|discriminate Ha].
    eexists; split; reflexivity.
  - destruct (String.eqb s ""); cbn; eexists; split; reflexivity.
Qed.

Lemma base_scores_not_text (p : Planet.t) (f : FeatureVector.t) :
  atmosphere_is_text (Planet.atmosphere p) = false ->
  base_scores (Some p) f
  = Throw (TypeError "planet.atmosphere.toLowerCase is not a function").
Proof.
  intros Ha. unfold base_scores, atmosphere_has_h2o.
  destruct (Planet.atmosphere p) as [| |[|]|q| |s] eqn:E; cbn in Ha |- *;
    try discriminate Ha; try reflexivity.
  destruct (Qeq_bool q 0) eqn:Eq; cbn in Ha |- *; [discriminate Ha | reflexivity].
Qed.

Lemma map_values_fst g o : map fst (map_values g o) = map fst o.
Proof. unfold map_values. rewrite map_map. reflexivity. Qed.

Lemma map_values_snd g o : map snd (map_values g o) = map g (map snd o).
Proof. unfold map_values. rewrite !map_map. reflexivity. Qed.

Lemma probabilities_from_keys self f base :
  map fst (probabilities_from self f base) = map fst base.
Proof. unfold probabilities_from. now rewrite !map_values_fst. Qed.

(** With a non-empty [base] the computation reaches its [return]. *)
Lemma classify_returns self (p : Planet.t) f base :
  _featureVector (Some p) = Ok f ->
  base_scores (Some p) f = Ok base ->
  base <> [] ->
  exists e0 rest,
    sort_entries (probabilities_from self f base) = e0 :: rest
    /\ classify self (Some p)
       = Ok (mkResult (fst e0) (probabilities_from self f base)
               (toFixed 3
                  (Math_min 0.999
                     (0.45 + snd e0 * 0.45
                      + (FeatureVector.ai_confidence f - 0.7) * 0.25)))
               (mkExplanation f (_explainFeatures f)
                  (map (fun e => (fst e, toFixed 4 (snd e)))
                       (slice 0 3 (e0 :: rest))))
               (mkModelMeta "heuristic-sim-v2" (labels self))).
Proof.
  intros Hf Hb Hne. unfold classify. rewrite Hf. cbn [bind]. rewrite Hb. cbn [bind].
  destruct (sort_entries (probabilities_from self f base)) as [|e0 rest] eqn:E.
  - exfalso. apply (f_equal (@List.length (string * Q))) in E.
    unfold sort_entries in E. rewrite sort_by_length in E.
    pose proof (f_equal (@List.length string) (probabilities_from_keys self f base)) as Hk.
    rewrite !length_map in Hk. destruct base; [congruence|].
    rewrite Hk in E. discriminate E.
  - exists e0, rest. split; reflexivity.
Qed.

Lemma classify_throws_on_not_text self (p : Planet.t) :
  atmosphere_is_text (Planet.atmosphere p) = false ->
  classify self (Some p)
  = Throw (TypeError "planet.atmosphere.toLowerCase is not a function").
Proof.
  intros Ha. unfold classify. cbn [_featureVector bind].
  rewrite (base_scores_not_text p _ Ha). reflexivity.
Qed.

Lemma classifyPlanet_returns_on_text (self : t) (p : Planet.t) :
  atmosphere_is_text (Planet.atmosphere p) = true ->
  exists r, fst (classifyPlanet self (Some p)) = Ok r.
Proof.
  intros Ha. rewrite classifyPlanet_unfold.
  destruct (cache (loaded self) !! _hashPlanet (Some p)) as [c|].
  - now exists c.
  - destruct (_featureVector (Some p)) as [f|] eqn:Hf; [|discriminate Hf].
    destruct (base_scores_text p f Ha) as (base & Hb & Hk).
    destruct (classify_returns (loaded self) p f base Hf Hb) as (e0 & rest & _ & Hr).
    { intros ->. discriminate Hk. }
    rewrite Hr. eexists. reflexivity.
Qed.

Lemma Number_or_coerced (v : jsval) (d : Q) : coerced_or_default v d (Number_or v d).
Proof.
  unfold coerced_or_default, Number_or, num_or.
  destruct (ToNumber v) as [q|]; [|reflexivity].
  destruct (Qeq_bool q 0); reflexivity.
Qed.

(** C4, as the code has it.  On a record whose atmosphere is a string or a
    falsy value, [classifyPlanet] throws nothing and returns a result; when
    the result is computed (the key is not cached), each numeric feature is
    the field passed through [Number]: the documented default if that is
    [NaN] or zero, the coerced number otherwise. *)
Theorem classifyPlanet_total_on_text_atmosphere (self : t) (p : Planet.t) :
  atmosphere_is_text (Planet.atmosphere p) = true ->
  exists r,
    fst (classifyPlanet self (Some p)) = Ok r
    /\ (cache self !! _hashPlanet (Some p) = None ->
        let f := features (explanation r) in
        coerced_or_default (Planet.mass p) 1 (FeatureVector.mass f)
        /\ coerced_or_default (Planet.radius p) 1 (FeatureVector.radius f)
        /\ coerced_or_default (Planet.temperature p) 288 (FeatureVector.temperature f)
        /\ coerced_or_default (Planet.orbital_period p) 365
             (FeatureVector.orbital_period f)
        /\ coerced_or_default (Planet.distance p) 100 (FeatureVector.distance f)
        /\ coerced_or_default (Planet.follow_up_observations p) 0
             (FeatureVector.follow_up f)
        /\ coerced_or_default (Planet.ai_confidence p) 0.75
             (FeatureVector.ai_confidence f)).
Proof.
  intros Ha. rewrite classifyPlanet_unfold, loaded_cache.
  destruct (cache self !! _hashPlanet (Some p)) as [c|] eqn:Hc.
  - exists c. split; [reflexivity | discriminate].
  - destruct (base_scores_text p
                (FeatureVector.mk
                   (Number_or (Planet.mass p) 1) (Number_or (Planet.radius p) 1)
                   (Number_or (Planet.temperature p) 288)
                   (Number_or (Planet.orbital_period p) 365)
                   (Number_or (Planet.distance p) 100)
                   (if (truthy (Planet.atmosphere p)
                        && negb match Planet.atmosphere p with
                                | JStr s => String.eqb s "Unknown"
                                | _ => false
                                end)%bool
                    then 1 else 0)
                   (Number_or (Planet.follow_up_observations p) 0)
                   (Number_or (Planet.ai_confidence p) 0.75)) Ha)
      as (base & Hb & Hk).
    destruct (classify_returns (loaded self) p _ base eq_refl Hb) as (e0 & rest & _ & Hr).
    { intros ->. discriminate Hk. }
    rewrite Hr. eexists. split; [reflexivity|]. intros _.
    cbn [features explanation FeatureVector.mass FeatureVector.radius
         FeatureVector.temperature FeatureVector.orbital_period
         FeatureVector.distance FeatureVector.follow_up FeatureVector.ai_confidence].
    repeat split; apply Number_or_coerced.
Qed.

End Totality.

Section Probabilities.
Context {rt : Runtime}.
Hypothesis Math_exp_nonneg : forall x, 0 <= Math_exp x.

Lemma logistic_range e : 0 <= e -> 0 < 1 / (1 + e) <= 1.
Proof.
  intros He. split.
  - apply Qlt_shift_div_l; lra.
  - apply Qle_shift_div_r; lra.
Qed.

Lemma clamp_unit x :
  0.000001 <= Math_max 0.000001 (Math_min (1 - 0.000001) x) <= 1 - 0.000001.
Proof.
  destruct (Math_min_spec (1 - 0.000001) x) as [[? ->]|[? ->]];
    match goal with |- _ <= Math_max ?u ?v <= _ =>
      destruct (Math_max_spec u v) as [[? ->]|[? ->]]
    end; lra.
Qed.

(** Under Platt parameters in range, [Math.exp] does not overflow. *)
Lemma calibrate_in_range self a b x :
  calibration self = Some (a, b) -> calibration_in_range a b ->
  _calibrate self x
  = 1 / (1 + Math_exp
             (- (a * (Math_max 0.000001 (Math_min (1 - 0.000001) x) - 0.5) + b))).
Proof.
  intros Hc Hr. unfold _calibrate. rewrite Hc.
  pose proof (clamp_unit x) as Hx.
  set (cx := Math_max 0.000001 (Math_min (1 - 0.000001) x)) in *.
  assert (Hz : - (a * (cx - 0.5) + b) <= exp_overflow).
  { unfold calibration_in_range in Hr. revert Hr. generalize exp_overflow.
    intros T Hr. apply Qle_trans with (Qabs a * 0.5 - b); [|exact Hr].
    destruct (Qlt_le_dec a 0) as [Ha|Ha].
    - rewrite (Qabs_neg a) by lra.
      assert ((0.5 - (cx - 0.5)) * (- a) >= 0) by (apply Qmult_le_0_compat; lra).
      lra.
    - rewrite (Qabs_pos a) by lra.
      assert ((0.5 + (cx - 0.5)) * a >= 0) by (apply Qmult_le_0_compat; lra).
      lra. }
  unfold Qlt_bool. apply Qle_bool_iff in Hz. rewrite Hz. reflexivity.
Qed.

Lemma calibrate_range self a b x :
  calibration self = Some (a, b) -> calibration_in_range a b ->
  0 < _calibrate self x <= 1.
Proof.
  intros Hc Hr. rewrite (calibrate_in_range self a b x Hc Hr).
  apply logistic_range, Math_exp_nonneg.
Qed.

(** Past the overflow the calibrated value is [0], never less. *)
Lemma calibrate_unit self a b x :
  calibration self = Some (a, b) -> 0 <= _calibrate self x <= 1.
Proof.
  intros Hc. unfold _calibrate. rewrite Hc.
  destruct (Qlt_bool exp_overflow _); [lra|].
  match goal with |- 0 <= 1 / (1 + ?e) <= 1 =>
    destruct (logistic_range e (Math_exp_nonneg _)) end.
  lra.
Qed.

Lemma toFixed_small d x : Qabs x < pow10 21 -> toFixed d x = round_half_away d x.
Proof.
  intros H. unfold toFixed.
  destruct (Qle_bool (pow10 21) (Qabs x)) eqn:E; [|reflexivity].
  apply Qle_bool_iff in E. lra.
Qed.

Lemma toFixed_multiple d (n : Z) :
  toFixed d (inject_Z n / pow10 d) == inject_Z n / pow10 d.
Proof.
  unfold toFixed. destruct (Qle_bool _ _); [reflexivity|].
  apply round_half_away_multiple.
Qed.

Lemma toFixed_unit_interval d x : 0 <= x <= 1 -> 0 <= toFixed d x <= 1.
Proof.
  intros [H0 H1]. assert (Hs := pow10_pos d).
  assert (E0 : 0 == inject_Z 0 / pow10 d) by (unfold Qdiv; ring).
  assert (E1 : 1 == inject_Z (10 ^ Z.of_nat d) / pow10 d) by (unfold pow10; field; exact (Qnot_eq_sym _ _ (Qlt_not_eq _ _ Hs))).
  pose proof (toFixed_mono d _ _ H0) as L.
  pose proof (toFixed_mono d _ _ H1) as U.
  pose proof (toFixed_multiple d 0) as F0.
  pose proof (toFixed_multiple d (10 ^ Z.of_nat d)) as F1.
  assert (T0 : toFixed d 0 == 0).
  { apply Qle_antisym.
    - pose proof (toFixed_mono d 0 (inject_Z 0 / pow10 d)) as M. lra.
    - pose proof (toFixed_mono d (inject_Z 0 / pow10 d) 0) as M. lra. }
  assert (T1 : toFixed d 1 == 1).
  { apply Qle_antisym.
    - pose proof (toFixed_mono d 1 (inject_Z (10 ^ Z.of_nat d) / pow10 d)) as M. lra.
    - pose proof (toFixed_mono d (inject_Z (10 ^ Z.of_nat d) / pow10 d) 1) as M. lra. }
  lra.
Qed.

(** Dividing positive numbers by their sum and rounding each quotient gives
    numbers of the unit interval whose sum is 1 up to the roundings. *)
Lemma normalise_and_round d (cs : list Q) :
  List.Forall (fun c => 0 < c) cs -> cs <> [] ->
  let ps := map (fun v => toFixed d (v / num_or (sumQ cs) 1)) cs in
  List.Forall (fun p => 0 <= p <= 1) ps
  /\ Qabs (sumQ ps - 1) <= inject_Z (Z.of_nat (List.length cs)) * (0.5 / pow10 d).
Proof.
  intros Hpos Hne ps.
  pose proof (sumQ_pos cs Hpos Hne) as Hs.
  assert (Hns : num_or (sumQ cs) 1 = sumQ cs).
  { unfold num_or. destruct (Qeq_bool (sumQ cs) 0) eqn:E; [|reflexivity].
    apply Qeq_bool_iff in E. lra. }
  subst ps. rewrite Hns. set (s := sumQ cs) in *.
  assert (Hunit : forall v, In v cs -> 0 <= v / s <= 1).
  { intros v Hv. rewrite List.Forall_forall in Hpos. pose proof (Hpos v Hv).
    assert (v <= s).
    { apply sumQ_le_member; [|exact Hv]. apply List.Forall_forall.
      intros y Hy. apply Qlt_le_weak. now apply Hpos. }
    split; [apply Qle_shift_div_l | apply Qle_shift_div_r]; lra. }
  split.
  - apply List.Forall_forall. intros p Hp. apply in_map_iff in Hp.
    destruct Hp as [v [<- Hv]]. apply toFixed_unit_interval, Hunit, Hv.
  - assert (E : map (fun v => toFixed d (v / s)) cs
                = map (round_half_away d) (map (fun v => v / s) cs)).
    { rewrite map_map. apply map_ext_in. intros v Hv. apply toFixed_small.
      destruct (Hunit v Hv). rewrite Qabs_pos by assumption.
      assert (1 < pow10 21) by (vm_compute; reflexivity).
      lra. }
    rewrite E.
    pose proof (sumQ_map_round d (map (fun v => v / s) cs)) as R.
    rewrite length_map in R.
    assert (S1 : sumQ (map (fun v => v / s) cs) == 1).
    { rewrite sumQ_map_div by lra. fold s. field. lra. }
    apply Qabs_Qle_condition in R. apply Qabs_Qle_condition.
    lra.
Qed.

Lemma probabilities_from_normalised self f base a b :
  calibration self = Some (a, b) -> calibration_in_range a b -> base <> [] ->
  let ps := probabilities_from self f base in
  List.Forall (fun kv => 0 <= snd kv <= 1) ps
  /\ Qabs (sumQ (map snd ps) - 1)
     <= inject_Z (Z.of_nat (List.length base)) * (0.5 / pow10 4).
Proof.
  intros Hc Hrange Hne ps. subst ps. unfold probabilities_from.
  set (smoothed := map_values _ (map_values _ base)).
  assert (Hlen : List.length (map snd smoothed) = List.length base).
  { unfold smoothed, map_values. now rewrite !length_map. }
  assert (Hpos : List.Forall (fun c => 0 < c) (map snd smoothed)).
  { unfold smoothed. rewrite map_values_snd. apply List.Forall_forall.
    intros c Hin. apply in_map_iff in Hin. destruct Hin as [raw [<- _]].
    apply (calibrate_range self a b _ Hc Hrange). }
  assert (Hne' : map snd smoothed <> []).
  { intros E. rewrite E in Hlen. destruct base; [congruence | discriminate Hlen]. }
  destruct (normalise_and_round 4 (map snd smoothed) Hpos Hne') as [Hunit Hsum].
  rewrite Hlen in Hsum. unfold sum_or_1. rewrite map_values_snd.
  split; [|exact Hsum].
  apply List.Forall_forall. intros kv Hkv.
  rewrite List.Forall_forall in Hunit. apply Hunit.
  rewrite <- map_values_snd. apply in_map. exact Hkv.
Qed.

Lemma confidence_capped x : toFixed 3 (Math_min 0.999 x) <= 0.999.
Proof.
  assert (E : toFixed 3 0.999 == 0.999) by (vm_compute; reflexivity).
  rewrite <- E at 2. apply toFixed_mono.
  destruct (Math_min_spec 0.999 x) as [[? ->]|[? ->]]; lra.
Qed.

(** What [classify] returns is normalised. *)
Lemma classify_normalised self (p : Planet.t) a b r :
  calibration self = Some (a, b) -> calibration_in_range a b ->
  classify self (Some p) = Ok r -> normalised r.
Proof.
  intros Hc Hin Hr.
  destruct (atmosphere_is_text (Planet.atmosphere p)) eqn:Ha.
  2: { rewrite (classify_throws_on_not_text self p Ha) in Hr. discriminate Hr. }
  destruct (_featureVector (Some p)) as [f|] eqn:Hf; [|discriminate Hf].
  destruct (base_scores_text p f Ha) as (base & Hb & Hk).
  assert (Hne : base <> []) by (intros ->; discriminate Hk).
  destruct (classify_returns self p f base Hf Hb Hne) as (e0 & rest & _ & Hret).
  rewrite Hret in Hr. injection Hr as <-.
  destruct (probabilities_from_normalised self f base a b Hc Hin Hne) as [Hunit Hsum].
  unfold normalised. cbn [probabilities confidence].
  repeat split.
  - rewrite probabilities_from_keys. exact Hk.
  - exact Hunit.
  - eapply Qle_trans; [exact Hsum|].
    apply (f_equal (@List.length string)) in Hk. rewrite length_map in Hk.
    rewrite Hk. vm_compute. discriminate.
  - apply confidence_capped.
Qed.

(** C1.  Let the classifier have Platt parameters [a], [b] under which
    [Math.exp] stays finite, [|a| / 2 - b] at most the overflow threshold
    (about [709.78]; the default [a = 1], [b = 0] is such a pair), and a
    cache of normalised results (as a fresh one has, and as every call
    leaves it).  Whatever [classifyPlanet] returns for a record has its
    probabilities over the nine labels, each within [0, 1], their sum within
    [0.001] of 1, and a confidence that, when not negative, is at most
    [0.999]; and it does return on every record of the data model, whose
    atmosphere is a string or absent. *)
Theorem classifyPlanet_probabilities (self : t) (p : Planet.t) (a b : Q) :
  calibration self = Some (a, b) ->
  calibration_in_range a b ->
  cache_normalised self ->
  (atmosphere_is_text (Planet.atmosphere p) = true ->
   exists r, fst (classifyPlanet self (Some p)) = Ok r)
  /\ (forall r,
        fst (classifyPlanet self (Some p)) = Ok r ->
        map fst (probabilities r) = base_labels
        /\ List.Forall (fun kv => 0 <= snd kv <= 1) (probabilities r)
        /\ Qabs (sumQ (map snd (probabilities r)) - 1) <= 0.001
        /\ (0 <= confidence r -> confidence r <= 0.999))
  /\ cache_normalised (snd (classifyPlanet self (Some p))).
Proof.
  intros Hc Hrange Hinv.
  split; [apply classifyPlanet_returns_on_text|].
  assert (Hn : (forall r, fst (classifyPlanet self (Some p)) = Ok r -> normalised r)
               /\ cache_normalised (snd (classifyPlanet self (Some p)))).
  { rewrite classifyPlanet_unfold, loaded_cache.
    destruct (cache self !! _hashPlanet (Some p)) as [c|] eqn:Hhit.
    - cbn [fst snd]. split.
      + intros r [= ->]. exact (Hinv _ _ Hhit).
      + intros k r'. rewrite loaded_cache. apply Hinv.
    - destruct (classify (loaded self) (Some p)) as [r'|e] eqn:Hcl; cbn [fst snd].
      + assert (Hnr : normalised r').
        { apply (classify_normalised (loaded self) p a b r'); [|exact Hrange|exact Hcl].
          rewrite loaded_calibration. exact Hc. }
        split; [intros r [= <-]; exact Hnr|].
        intros k r. cbn [set_cache cache]. rewrite lookup_insert.
        destruct (decide (_hashPlanet (Some p) = k)) as [_|_].
        * intros [= <-]. exact Hnr.
        * apply Hinv.
      + split; [discriminate|].
        intros k r. rewrite loaded_cache. apply Hinv. }
  destruct Hn as [Hres Hinv']. split; [|exact Hinv'].
  intros r Hr. destruct (Hres r Hr) as (H1 & H2 & H3 & H4).
  split; [exact H1|]. split; [exact H2|]. split; [exact H3|].
  intros _; exact H4.
Qed.

End Probabilities.

Section Argmax.
Context {rt : Runtime}.
Hypothesis Math_exp_nonneg : forall x, 0 <= Math_exp x.
Hypothesis Math_exp_mono : forall x y, x <= y -> Math_exp x <= Math_exp y.

Lemma logistic_antitone e1 e2 : 0 <= e1 -> e1 <= e2 -> 1 / (1 + e2) <= 1 / (1 + e1).
Proof.
  intros H1 H12.
  apply Qle_shift_div_l; [lra|].
  assert (E : 1 / (1 + e2) * (1 + e1) == (1 + e1) / (1 + e2)) by (field; lra).
  rewrite E. apply Qle_shift_div_r; lra.
Qed.

(** With a slope that is not negative, [_calibrate] keeps the order. *)
Lemma calibrate_mono self a b x y :
  calibration self = Some (a, b) -> calibration_in_range a b -> 0 <= a -> x <= y ->
  _calibrate self x <= _calibrate self y.
Proof.
  intros Hc Hin Ha Hxy.
  rewrite (calibrate_in_range self a b x Hc Hin),
          (calibrate_in_range self a b y Hc Hin).
  set (cx := Math_max 0.000001 (Math_min (1 - 0.000001) x)).
  set (cy := Math_max 0.000001 (Math_min (1 - 0.000001) y)).
  assert (Hcl : cx <= cy) by (apply Math_max_mono_r, Math_min_mono_r, Hxy).
  apply logistic_antitone; [apply Math_exp_nonneg|].
  apply Math_exp_mono.
  assert ((cx - 0.5) * a <= (cy - 0.5) * a) by (apply Qmult_le_compat_r; lra).
  lra.
Qed.

Lemma map_values_head_max g (e0 : string * Q) rest :
  (forall u v, u <= v -> g u <= g v) ->
  List.Forall (fun e => snd e <= snd e0) rest ->
  List.Forall (fun e => snd e <= g (snd e0)) (map_values g rest).
Proof.
  intros Hg Hall. apply List.Forall_forall. intros e He.
  apply in_map_iff in He. destruct He as [e' [<- He']].
  rewrite List.Forall_forall in Hall. cbn [snd]. apply Hg, Hall, He'.
Qed.

(** When the first entry of [base] has the largest score, the first entry
    of the probabilities has the largest probability. *)
Lemma probabilities_from_head_max self f (e0 : string * Q) rest a b :
  calibration self = Some (a, b) -> calibration_in_range a b -> 0 <= a ->
  0 <= 0.6 + 0.4 * FeatureVector.ai_confidence f ->
  0 < sum_or_1 (e0 :: rest) ->
  List.Forall (fun e => snd e <= snd e0) rest ->
  exists p0 rest',
    probabilities_from self f (e0 :: rest) = (fst e0, p0) :: rest'
    /\ List.Forall (fun e => snd e <= p0) rest'.
Proof.
  intros Hc Hrange Ha Hai Hsum Hmax. unfold probabilities_from.
  set (sum := sum_or_1 (e0 :: rest)) in *.
  set (g1 := fun v : Q => v / sum).
  set (g2 := fun raw : Q =>
               _calibrate self (raw * (0.6 + 0.4 * FeatureVector.ai_confidence f))).
  set (smoothed := map_values g2 (map_values g1 (e0 :: rest))).
  set (s2 := sum_or_1 smoothed).
  set (g3 := fun v : Q => toFixed 4 (v / s2)).
  assert (Hg1 : forall u v, u <= v -> g1 u <= g1 v).
  { intros u v Huv. unfold g1. apply Qmult_le_compat_r; [exact Huv|].
    apply Qlt_le_weak, Qinv_lt_0_compat, Hsum. }
  assert (Hg2 : forall u v, u <= v -> g2 u <= g2 v).
  { intros u v Huv. unfold g2. apply (calibrate_mono self a b); auto.
    apply Qmult_le_compat_r; assumption. }
  assert (Hs2 : 0 < s2).
  { unfold s2, sum_or_1.
    assert (Hpos : List.Forall (fun c => 0 < c) (map snd smoothed)).
    { unfold smoothed. rewrite map_values_snd. apply List.Forall_forall.
      intros c Hin. apply in_map_iff in Hin. destruct Hin as [raw [<- _]].
      apply (calibrate_range Math_exp_nonneg self a b _ Hc Hrange). }
    assert (Hne : map snd smoothed <> []) by (unfold smoothed; discriminate).
    pose proof (sumQ_pos _ Hpos Hne) as Hp.
    unfold num_or. destruct (Qeq_bool _ 0); lra. }
  assert (Hg3 : forall u v, u <= v -> g3 u <= g3 v).
  { intros u v Huv. unfold g3. apply toFixed_mono.
    apply Qmult_le_compat_r; [exact Huv|].
    apply Qlt_le_weak, Qinv_lt_0_compat, Hs2. }
  exists (g3 (g2 (g1 (snd e0)))),
         (map_values g3 (map_values g2 (map_values g1 rest))).
  split; [reflexivity|].
  apply (map_values_head_max g3 (fst e0, g2 (g1 (snd e0)))); [exact Hg3|].
  apply (map_values_head_max g2 (fst e0, g1 (snd e0))); [exact Hg2|].
  apply (map_values_head_max g1 e0); assumption.
Qed.

Lemma classify_head_max self (p : Planet.t) f (e0 : string * Q) rest a b :
  calibration self = Some (a, b) -> calibration_in_range a b -> 0 <= a ->
  0 <= 0.6 + 0.4 * FeatureVector.ai_confidence f ->
  _featureVector (Some p) = Ok f ->
  base_scores (Some p) f = Ok (e0 :: rest) ->
  0 < sum_or_1 (e0 :: rest) ->
  List.Forall (fun e => snd e <= snd e0) rest ->
  exists r p0,
    classify self (Some p) = Ok r
    /\ predictedType r = fst e0
    /\ prop_get (probabilities r) (fst e0) = Some p0
    /\ List.Forall (fun kv => snd kv <= p0) (probabilities r).
Proof.
  intros Hc Hin Ha Hai Hf Hb Hsum Hmax.
  destruct (probabilities_from_head_max self f e0 rest a b Hc Hin Ha Hai Hsum Hmax)
    as (p0 & rest' & Hps & Hle).
  destruct (classify_returns self p f (e0 :: rest) Hf Hb ltac:(discriminate))
    as (e & es & Hsort & Hr).
  assert (He : e = (fst e0, p0)).
  { rewrite Hps in Hsort. unfold sort_entries in Hsort.
    rewrite sort_by_head in Hsort.
    - now injection Hsort as <- _.
    - intros y Hy. cbn [snd]. apply Qle_bool_iff.
      rewrite List.Forall_forall in Hle. now apply Hle. }
  eexists. exists p0. split; [exact Hr|].
  cbn [predictedType probabilities]. rewrite He, Hps. cbn [fst prop_get].
  rewrite String.eqb_refl. repeat split.
  constructor; [apply Qle_refl | exact Hle].
Qed.

(** C7.  A fresh classifier (default calibration, empty cache) gives the
    planet of the scenario the type "Terrestrial", and no label a greater
    probability than that one. *)
Theorem earthlike_is_terrestrial :
  exists r pT,
    fst (classifyPlanet create (Some Examples.earthlike)) = Ok r
    /\ predictedType r = "Terrestrial"
    /\ prop_get (probabilities r) "Terrestrial" = Some pT
    /\ List.Forall (fun kv => snd kv <= pT) (probabilities r).
Proof.
  rewrite classifyPlanet_unfold, loaded_cache. cbn [create cache].
  rewrite lookup_empty.
  destruct (_featureVector (Some Examples.earthlike)) as [f|] eqn:Hf;
    [|discriminate Hf].
  assert (Hb : exists e0 rest,
             base_scores (Some Examples.earthlike) f = Ok (e0 :: rest)
             /\ fst e0 = "Terrestrial"
             /\ 0 < sum_or_1 (e0 :: rest)
             /\ List.Forall (fun e => snd e <= snd e0) rest
             /\ 0 <= 0.6 + 0.4 * FeatureVector.ai_confidence f).
  { injection Hf as <-. do 2 eexists.
    split; [vm_compute; reflexivity|].
    split; [reflexivity|].
    split; [vm_compute; reflexivity|].
    split; [|vm_compute; discriminate].
    repeat (constructor; [vm_compute; discriminate|]). constructor. }
  destruct Hb as (e0 & rest & Hb & Hname & Hsum & Hmax & Hai).
  destruct (classify_head_max (loaded create) Examples.earthlike f e0 rest 1 0
              eq_refl ltac:(vm_compute; discriminate) ltac:(lra) Hai Hf Hb Hsum Hmax)
    as (r & p0 & Hr & Ht & Hp & Hall).
  rewrite Hr. exists r, p0. rewrite Hname in Ht, Hp. auto.
Qed.

End Argmax.

(** C4, as stated, fails twice over with the reference runtime: a numeric
    atmosphere makes a fresh classifier throw, and a boolean temperature
    is coerced to 1 where the documented default is 288. *)
Lemma classifyPlanet_not_total :
  fst (classifyPlanet (rt := Reference.runtime) create
         (Some Examples.numeric_atmosphere))
  = Throw (TypeError "planet.atmosphere.toLowerCase is not a function")
  /\ exists r,
       fst (classifyPlanet (rt := Reference.runtime) create
              (Some Examples.boolean_temperature)) = Ok r
       /\ FeatureVector.temperature (features (explanation r)) = 1.
Proof.
  split.
  - vm_compute. reflexivity.
  - vm_compute. eexists. split; reflexivity.
Qed.

Lemma classifyPlanet_total_on_text_atmosphere_witness :
  exists r,
    fst (classifyPlanet (rt := Reference.runtime) create (Some Examples.earthlike)) = Ok r
    /\ (cache create !! _hashPlanet (rt := Reference.runtime) (Some Examples.earthlike)
        = None ->
        let f := features (explanation r) in
        let p := Examples.earthlike in
        coerced_or_default (rt := Reference.runtime) (Planet.mass p) 1 (FeatureVector.mass f)
        /\ coerced_or_default (rt := Reference.runtime) (Planet.radius p) 1 (FeatureVector.radius f)
        /\ coerced_or_default (rt := Reference.runtime) (Planet.temperature p) 288 (FeatureVector.temperature f)
        /\ coerced_or_default (rt := Reference.runtime) (Planet.orbital_period p) 365
             (FeatureVector.orbital_period f)
        /\ coerced_or_default (rt := Reference.runtime) (Planet.distance p) 100 (FeatureVector.distance f)
        /\ coerced_or_default (rt := Reference.runtime) (Planet.follow_up_observations p) 0
             (FeatureVector.follow_up f)
        /\ coerced_or_default (rt := Reference.runtime) (Planet.ai_confidence p) 0.75
             (FeatureVector.ai_confidence f)).
Proof.
  apply (classifyPlanet_total_on_text_atmosphere (rt := Reference.runtime)
           create Examples.earthlike).
  reflexivity.
Defined.

Lemma classifyPlanet_cache_idempotent_witness :
  let p := Some Examples.earthlike in
  let self1 := snd (classifyPlanet (rt := Reference.runtime) create p) in
  exists r1,
    fst (classifyPlanet (rt := Reference.runtime) create p) = Ok r1
    /\ classifyPlanet (rt := Reference.runtime) self1 p = (Ok r1, self1)
    /\ fst (classifyPlanet (rt := Reference.runtime) (clearCache self1) p)
       = classify (rt := Reference.runtime) create p
    /\ cache (clearCache self1) = ∅
    /\ modelLoaded (clearCache self1) = modelLoaded self1
    /\ calibration (clearCache self1) = calibration self1
    /\ labels (clearCache self1) = labels self1.
Proof.
  intros p self1.
  assert (E : exists r1, fst (classifyPlanet (rt := Reference.runtime) create p) = Ok r1)
    by (vm_compute; eexists; reflexivity).
  destruct E as [r1 E]. exists r1. split; [exact E|].
  exact (classifyPlanet_cache_idempotent (rt := Reference.runtime) create p p r1 E eq_refl).
Defined.

Lemma classifyPlanet_cache_key_blindness_witness :
  exists r1,
    fst (classifyPlanet (rt := Reference.runtime) create (Some Examples.earthlike)) = Ok r1
    /\ fst (classifyPlanet (rt := Reference.runtime)
              (snd (classifyPlanet (rt := Reference.runtime) create
                      (Some Examples.earthlike)))
              (Some Examples.earthlike_far)) = Ok r1.
Proof.
  assert (E : exists r1, fst (classifyPlanet (rt := Reference.runtime) create
                                (Some Examples.earthlike)) = Ok r1)
    by (vm_compute; eexists; reflexivity).
  destruct E as [r1 E]. exists r1. split; [exact E|].
  exact (classifyPlanet_cache_key_blindness (rt := Reference.runtime) create
           Examples.earthlike Examples.earthlike_far r1
           eq_refl eq_refl eq_refl eq_refl eq_refl E).
Defined.

Lemma create_cache_normalised : cache_normalised create.
Proof. intros k r H. cbn [create cache] in H. rewrite lookup_empty in H. discriminate H. Qed.

Lemma clearCache_cache_normalised self : cache_normalised (clearCache self).
Proof.
  intros k r H. cbn [clearCache set_cache cache] in H.
  rewrite lookup_empty in H. discriminate H.
Qed.

Lemma classifyPlanet_probabilities_witness :
  let self := create in
  let p := Examples.earthlike in
  (atmosphere_is_text (Planet.atmosphere p) = true ->
   exists r, fst (classifyPlanet (rt := Reference.runtime) self (Some p)) = Ok r)
  /\ (forall r,
        fst (classifyPlanet (rt := Reference.runtime) self (Some p)) = Ok r ->
        map fst (probabilities r) = base_labels
        /\ List.Forall (fun kv => 0 <= snd kv <= 1) (probabilities r)
        /\ Qabs (sumQ (map snd (probabilities r)) - 1) <= 0.001
        /\ (0 <= confidence r -> confidence r <= 0.999))
  /\ cache_normalised (snd (classifyPlanet (rt := Reference.runtime) self (Some p))).
Proof.
  refine (classifyPlanet_probabilities (rt := Reference.runtime)
            ReferenceFacts.exp_nonneg create Examples.earthlike 1 0
            eq_refl _ create_cache_normalised).
  vm_compute. discriminate.
Defined.

(** C1, as stated, fails for a classifier built with
    [calibration: {a: 1, b: -1000}]: every [Math.exp] overflows, the nine
    calibrated values are [0], their sum falls back to [1], and the
    probabilities returned are all [0]. *)
Lemma classifyPlanet_probabilities_vanish :
  exists r,
    fst (classifyPlanet (rt := Reference.runtime) Examples.saturated
           (Some Examples.earthlike)) = Ok r
    /\ map fst (probabilities r) = base_labels
    /\ List.Forall (fun kv => snd kv == 0) (probabilities r)
    /\ sumQ (map snd (probabilities r)) == 0.
Proof.
  eexists. split; [vm_compute; reflexivity|].
  vm_compute. split; [reflexivity|]. split; [|reflexivity].
  repeat constructor.
Qed.

Lemma earthlike_is_terrestrial_witness :
  exists r pT,
    fst (classifyPlanet (rt := Reference.runtime) create (Some Examples.earthlike)) = Ok r
    /\ predictedType r = "Terrestrial"
    /\ prop_get (probabilities r) "Terrestrial" = Some pT
    /\ List.Forall (fun kv => snd kv <= pT) (probabilities r).
Proof.
  exact (earthlike_is_terrestrial (rt := Reference.runtime)
           ReferenceFacts.exp_nonneg ReferenceFacts.exp_mono).
Defined.

End ClassifierFacts.

(** * Further properties of the three services *)

(** ** Rounding to a number of decimals *)

Module RoundingFacts.

Lemma toFixed_within d (lo hi x : Q) :
  toFixed d lo == lo -> toFixed d hi == hi -> lo <= x <= hi ->
  lo <= toFixed d x <= hi.
Proof.
  intros Hlo Hhi [H1 H2].
  pose proof (toFixed_mono d _ _ H1). pose proof (toFixed_mono d _ _ H2). lra.
Qed.

Lemma toFixed_nonneg d x : 0 <= x -> 0 <= toFixed d x.
Proof.
  intros H. pose proof (toFixed_mono d 0 x H) as M.
  pose proof (ClassifierFacts.toFixed_multiple d 0) as F.
  assert (E0 : 0 == inject_Z 0 / pow10 d) by (unfold Qdiv; ring).
  pose proof (toFixed_mono d 0 (inject_Z 0 / pow10 d)) as M1.
  pose proof (toFixed_mono d (inject_Z 0 / pow10 d) 0) as M2.
  lra.
Qed.

Lemma toFixed_comp d x y : x == y -> toFixed d x == toFixed d y.
Proof.
  intros E. apply Qle_antisym; apply toFixed_mono; lra.
Qed.

End RoundingFacts.

(** ** PredictiveAnalytics: the score and the discovery patterns *)

Module PredictiveAnalyticsMore.
Import PredictiveAnalytics PredictiveAnalyticsFacts RoundingFacts.

Section Score.
Context {rt : Runtime}.

(** X1.  Whatever the record, the priority score lies in [[0, 0.999]]. *)
Theorem calculatePriorityScore_range (planet : Planet.t) :
  0 <= calculatePriorityScore planet <= 0.999.
Proof.
  unfold calculatePriorityScore.
  apply toFixed_within;
    [vm_compute; reflexivity | vm_compute; reflexivity |].
  match goal with |- _ <= Math_max 0 (Math_min 0.999 ?x) <= _ =>
    destruct (Math_min_spec 0.999 x) as [[? ->]|[? ->]];
    [destruct (Math_max_spec 0 0.999) as [[? ->]|[? ->]]
    |destruct (Math_max_spec 0 x) as [[? ->]|[? ->]]]; lra
  end.
Qed.

(** X2.  The status "Candidate" never lowers the score: with every other
    field fixed, a candidate scores at least what the record scores under
    any other status. *)
Theorem calculatePriorityScore_candidate_bonus (planet : Planet.t) (status : jsval) :
  calculatePriorityScore (PlanetUpdates.with_confirmed_status status planet)
  <= calculatePriorityScore
       (PlanetUpdates.with_confirmed_status (JStr "Candidate") planet).
Proof.
  unfold calculatePriorityScore.
  cbn [PlanetUpdates.with_confirmed_status Planet.habitability_score
       Planet.ai_confidence Planet.follow_up_observations Planet.distance
       Planet.confirmed_status].
  apply toFixed_mono, Math_max_mono_r, Math_min_mono_r.
  change (String.eqb "Candidate" "Candidate") with true. cbv iota.
  destruct status as [| |b|q| |s]; try lra.
  destruct (String.eqb s "Candidate"); lra.
Qed.

(** X3.  With every other field fixed, the score does not decrease when
    the numeric count of follow-up observations grows. *)
Theorem calculatePriorityScore_follow_up_monotone (planet : Planet.t) (n1 n2 : Q) :
  n1 <= n2 ->
  calculatePriorityScore (PlanetUpdates.with_follow_up_observations (JNum n1) planet)
  <= calculatePriorityScore
       (PlanetUpdates.with_follow_up_observations (JNum n2) planet).
Proof.
  intros H. unfold calculatePriorityScore.
  cbn [PlanetUpdates.with_follow_up_observations Planet.habitability_score
       Planet.ai_confidence Planet.follow_up_observations Planet.distance
       Planet.confirmed_status].
  apply toFixed_mono, Math_max_mono_r, Math_min_mono_r.
  assert (Hf : Math_min 1 (Number_or (JNum n1) 0 / 20)
               <= Math_min 1 (Number_or (JNum n2) 0 / 20)).
  { apply Math_min_mono_r. unfold Number_or. cbn [ToNumber].
    pose proof (num_or_zero n1). pose proof (num_or_zero n2).
    apply Qmult_le_compat_r; [lra|]. vm_compute. discriminate. }
  revert Hf.
  generalize (Math_min 1 (Number_or (JNum n1) 0 / 20))
             (Math_min 1 (Number_or (JNum n2) 0 / 20)).
  intros u v Huv. lra.
Qed.

End Score.

Section Distance.
Context {rt : Runtime}.
Hypothesis Math_exp_mono : forall x y, x <= y -> Math_exp x <= Math_exp y.

(** X4.  Between two records that differ in a positive numeric distance
    only, the farther one never scores higher, for any exponential that is
    monotone. *)
Theorem calculatePriorityScore_distance_antitone (planet : Planet.t) (d1 d2 : Q) :
  0 < d1 -> d1 <= d2 ->
  calculatePriorityScore (PlanetUpdates.with_distance (JNum d2) planet)
  <= calculatePriorityScore (PlanetUpdates.with_distance (JNum d1) planet).
Proof.
  intros H1 H12. unfold calculatePriorityScore.
  cbn [PlanetUpdates.with_distance Planet.habitability_score
       Planet.ai_confidence Planet.follow_up_observations Planet.distance
       Planet.confirmed_status].
  apply toFixed_mono, Math_max_mono_r, Math_min_mono_r.
  assert (E1 : Number_or (JNum d1) 100 = d1).
  { unfold Number_or, num_or. cbn [ToNumber].
    destruct (Qeq_bool d1 0) eqn:E; [|reflexivity]. apply Qeq_bool_iff in E. lra. }
  assert (E2 : Number_or (JNum d2) 100 = d2).
  { unfold Number_or, num_or. cbn [ToNumber].
    destruct (Qeq_bool d2 0) eqn:E; [|reflexivity]. apply Qeq_bool_iff in E. lra. }
  rewrite E1, E2.
  assert (Hp : Math_exp (- Math_min 1500 d2 / 500)
               <= Math_exp (- Math_min 1500 d1 / 500)).
  { apply Math_exp_mono. pose proof (Math_min_mono_r 1500 d1 d2 H12) as Hm.
    apply Qmult_le_compat_r; [lra|]. vm_compute. discriminate. }
  revert Hp.
  generalize (Math_exp (- Math_min 1500 d2 / 500))
             (Math_exp (- Math_min 1500 d1 / 500)).
  intros u v Huv. lra.
Qed.

End Distance.

Lemma calculatePriorityScore_follow_up_monotone_witness :
  calculatePriorityScore (rt := Reference.runtime)
    (PlanetUpdates.with_follow_up_observations (JNum 2) Examples.earthlike)
  <= calculatePriorityScore (rt := Reference.runtime)
       (PlanetUpdates.with_follow_up_observations (JNum 12) Examples.earthlike).
Proof.
  apply (calculatePriorityScore_follow_up_monotone (rt := Reference.runtime)
           Examples.earthlike 2 12).
  vm_compute. discriminate.
Defined.

Lemma calculatePriorityScore_distance_antitone_witness :
  calculatePriorityScore (rt := Reference.runtime)
    (PlanetUpdates.with_distance (JNum 900) Examples.earthlike)
  <= calculatePriorityScore (rt := Reference.runtime)
       (PlanetUpdates.with_distance (JNum 50) Examples.earthlike).
Proof.
  apply (calculatePriorityScore_distance_antitone (rt := Reference.runtime)
           ReferenceFacts.exp_mono Examples.earthlike 50 900).
  - vm_compute. reflexivity.
  - vm_compute. discriminate.
Defined.

Section Buckets.
Context {rt : Runtime}.

(** X5.  The series lists its years in strictly increasing order, each with
    a count of at least one; a window of [w >= 1] years keeps at most [w] of
    them. *)
Theorem analyzeDiscoveryPatterns_series_shape (self : t) (planets : list Planet.t) :
  let r := analyzeDiscoveryPatterns self planets in
  StronglySorted Qlt (map Series.year (series r))
  /\ List.Forall (fun s => (1 <= Series.count s)%Z) (series r)
  /\ ((0 < timeWindowYears self)%Z ->
      (Z.of_nat (List.length (series r)) <= timeWindowYears self)%Z).
Proof.
  intros r. subst r.
  destruct (countsByYear_invariant planets) as (Htot & Hpos & Hdist).
  cbv zeta in Htot, Hpos, Hdist.
  split; [|split].
  - rewrite series_years. unfold slice_from.
    apply StronglySorted_skipn, sort_by_strict, Hdist.
  - apply List.Forall_forall. intros s Hs.
    unfold analyzeDiscoveryPatterns in Hs. cbn [series] in Hs.
    apply in_map_iff in Hs. destruct Hs as [y [<- Hy]]. cbn [Series.count].
    apply count_of_found; [|exact Hpos].
    apply (sort_by_In Qle_bool). eapply slice_from_In. exact Hy.
  - intros Hw.
    rewrite <- (length_map Series.year), series_years. unfold slice_from.
    rewrite length_skipn.
    destruct (- timeWindowYears self <? 0)%Z eqn:E; lia.
Qed.

(** X6.  The counts of the series never add up to more than the number of
    records, which is [totalPlanets]; with a window of [0] years, where
    [slice(-0)] keeps every year, they add up to exactly that number. *)
Theorem analyzeDiscoveryPatterns_counts_total (self : t) (planets : list Planet.t) :
  let r := analyzeDiscoveryPatterns self planets in
  let total := fold_right Z.add 0%Z (map Series.count (series r)) in
  totalPlanets r = List.length planets
  /\ (total <= Z.of_nat (totalPlanets r))%Z
  /\ (timeWindowYears self = 0%Z -> total = Z.of_nat (totalPlanets r)).
Proof.
  intros r total. subst r total.
  destruct (countsByYear_invariant planets) as (Htot & Hpos & Hdist).
  cbv zeta in Htot, Hpos, Hdist.
  set (counts := countsByYear planets) in *.
  set (years := sort_by Qle_bool (map fst counts)).
  assert (Hall : fold_right Z.add 0%Z (map (fun y => count_of y counts) years)
                 = Z.of_nat (List.length planets)).
  { rewrite <- Htot, <- (count_of_keys_total counts Hdist).
    apply sum_Permutation, Permutation_map, sort_by_Permutation. }
  split; [reflexivity|].
  rewrite series_counts. fold counts years.
  change (totalPlanets (analyzeDiscoveryPatterns self planets))
    with (List.length planets).
  unfold slice_from. rewrite <- skipn_map. split.
  - rewrite <- Hall. apply sum_skipn_le.
    apply List.Forall_forall. intros c Hc. apply in_map_iff in Hc.
    destruct Hc as [y [<- _]]. apply count_of_nonneg, Hpos.
  - intros ->. cbn [Z.opp Z.ltb Z.compare]. rewrite Z.min_l by lia.
    cbn [Z.to_nat skipn]. exact Hall.
Qed.

(** X7.  An empty history gives an empty series and no growth, and the
    three forecasts are for the years after the current one, each of zero
    discoveries. *)
Theorem analyzeDiscoveryPatterns_empty_history (self : t) :
  let r := analyzeDiscoveryPatterns self [] in
  series r = []
  /\ map Forecast.year (forecasts r)
     = [inject_Z currentYear + 1; inject_Z currentYear + 2; inject_Z currentYear + 3]
  /\ map Forecast.predicted (forecasts r) = [0; 0; 0]%float
  /\ totalPlanets r = 0%nat
  /\ recentGrowth r = 0.
Proof.
  intros r. subst r. unfold analyzeDiscoveryPatterns, slice_from.
  cbn [countsByYear fold_left map fst sort_by fold_right skipn].
  rewrite skipn_nil.
  cbn [map series forecasts totalPlanets recentGrowth last_year_or_now last_opt
       smooth List.length].
  rewrite forecast_loop_baseline.
  repeat split.
Qed.

End Buckets.
End PredictiveAnalyticsMore.

(** ** PredictiveAnalytics: the observation plan *)

Module ObservationPlanFacts.
Import ObservationPlan.

Section Plan.
Context {rt : Runtime}.

Lemma atmosphere_has_h2o_text (v : jsval) :
  Classifier.atmosphere_is_text v = true ->
  Classifier.atmosphere_has_h2o v
  = Ok match v with
       | JStr s => includes "h2o" (toLowerCase s)
       | _ => false
       end.
Proof.
  unfold Classifier.atmosphere_has_h2o, Classifier.atmosphere_is_text.
  destruct v as [| |[|]|q| |s]; cbn; try reflexivity; try discriminate.
  - destruct (Qeq_bool q 0); cbn; [reflexivity | discriminate].
  - intros _. destruct (String.eqb s "") eqn:E; cbn; [|reflexivity].
    apply String.eqb_eq in E. subst s. reflexivity.
Qed.

Lemma atmosphere_has_h2o_not_text (v : jsval) :
  Classifier.atmosphere_is_text v = false ->
  Classifier.atmosphere_has_h2o v
  = Throw (TypeError "planet.atmosphere.toLowerCase is not a function").
Proof.
  unfold Classifier.atmosphere_has_h2o, Classifier.atmosphere_is_text.
  destruct v as [| |[|]|q| |s]; cbn; try reflexivity; try discriminate.
  destruct (Qeq_bool q 0); cbn; [discriminate | reflexivity].
Qed.

(** X8.  [recommendObservationPlan] returns a plan exactly when the
    atmosphere is a string or falsy, and throws a [TypeError] on any other
    atmosphere.  The plan names one instrument for the distance, followed by
    the water-line instrument exactly when the atmosphere is a string that
    contains "h2o" in any letter case. *)
Theorem recommendObservationPlan_outcome (p : Planet.t) :
  (Classifier.atmosphere_is_text (Planet.atmosphere p) = false ->
   recommendObservationPlan (Some p)
   = Throw (TypeError "planet.atmosphere.toLowerCase is not a function"))
  /\ (Classifier.atmosphere_is_text (Planet.atmosphere p) = true ->
      exists plan tier_instrument,
        recommendObservationPlan (Some p) = Ok plan
        /\ (recommendedInstruments plan = [tier_instrument]
            \/ recommendedInstruments plan
               = [tier_instrument;
                  "High-resolution optical for water-line cross correlation"])
        /\ (List.length (recommendedInstruments plan) = 2%nat
            <-> exists s, Planet.atmosphere p = JStr s
                          /\ includes "h2o" (toLowerCase s) = true)).
Proof.
  split; intros Ha; unfold recommendObservationPlan.
  - rewrite (atmosphere_has_h2o_not_text _ Ha). reflexivity.
  - rewrite (atmosphere_has_h2o_text _ Ha). cbn [bind].
    set (h2o := match Planet.atmosphere p with
                | JStr s => includes "h2o" (toLowerCase s)
                | _ => false
                end).
    assert (Hh : h2o = true <-> exists s, Planet.atmosphere p = JStr s
                                   /\ includes "h2o" (toLowerCase s) = true).
    { unfold h2o. destruct (Planet.atmosphere p) as [| |b|q| |s];
        try (split; [discriminate | intros (s' & E & _); discriminate E]).
      split; [intros H; now exists s | intros (s' & [= <-] & H); exact H]. }
    destruct (Qlt_bool (Number_or (Planet.distance p) 200) 100);
      [|destruct (Qlt_bool (Number_or (Planet.distance p) 200) 500)];
      destruct h2o; eexists; eexists; (split; [reflexivity|]);
      cbn [recommendedInstruments app List.length];
      (split; [(left; reflexivity) || (right; reflexivity)|]);
      rewrite <- Hh; split; congruence.
Qed.

Lemma exposure_of_plan (p : Planet.t) plan :
  recommendObservationPlan (Some p) = Ok plan ->
  exposureEstimateHours plan
  = if Qlt_bool (Number_or (Planet.distance p) 200) 100 then 1.5
    else if Qlt_bool (Number_or (Planet.distance p) 200) 500 then 3 else 6.
Proof.
  unfold recommendObservationPlan.
  destruct (Classifier.atmosphere_has_h2o (Planet.atmosphere p)) as [h2o|e];
    cbn [bind]; [|discriminate].
  intros [= <-].
  destruct (Qlt_bool (Number_or (Planet.distance p) 200) 100);
    [|destruct (Qlt_bool (Number_or (Planet.distance p) 200) 500)];
    destruct h2o; reflexivity.
Qed.

Lemma Qlt_bool_true a b : Qlt_bool a b = true <-> a < b.
Proof.
  unfold Qlt_bool. rewrite negb_true_iff. split.
  - apply Qle_bool_false.
  - intros H. destruct (Qle_bool b a) eqn:E; [|reflexivity].
    apply Qle_bool_iff in E. lra.
Qed.

(** X9.  Between two records that differ in a positive numeric distance
    only, the farther one is never given the shorter exposure. *)
Theorem recommendObservationPlan_exposure_monotone (p : Planet.t) (d1 d2 : Q)
  (plan1 plan2 : t) :
  0 < d1 -> d1 <= d2 ->
  recommendObservationPlan (Some (PlanetUpdates.with_distance (JNum d1) p)) = Ok plan1 ->
  recommendObservationPlan (Some (PlanetUpdates.with_distance (JNum d2) p)) = Ok plan2 ->
  exposureEstimateHours plan1 <= exposureEstimateHours plan2.
Proof.
  intros H1 H12 E1 E2.
  rewrite (exposure_of_plan _ _ E1), (exposure_of_plan _ _ E2).
  cbn [PlanetUpdates.with_distance Planet.distance]. unfold Number_or. cbn [ToNumber].
  destruct (num_or_self d1 200) as [N1|[Z1 _]]; [|lra].
  destruct (num_or_self d2 200) as [N2|[Z2 _]]; [|lra].
  destruct (Qlt_bool (num_or d1 200) 100) eqn:A1;
    destruct (Qlt_bool (num_or d2 200) 100) eqn:A2;
    destruct (Qlt_bool (num_or d1 200) 500) eqn:B1;
    destruct (Qlt_bool (num_or d2 200) 500) eqn:B2;
    try (vm_compute; discriminate);
    exfalso;
    repeat match goal with
      | H : Qlt_bool _ _ = true |- _ => apply Qlt_bool_true in H
      | H : Qlt_bool _ _ = false |- _ =>
          apply negb_false_iff, Qle_bool_iff in H
      end; lra.
Qed.

(** X10.  A record whose distance is missing, zero or not a number is
    planned as a target at 200: monthly cadence, three hours, whatever
    its other fields (its atmosphere being a string or falsy). *)
Theorem recommendObservationPlan_default_distance (p : Planet.t) :
  Number_or (Planet.distance p) 200 = 200 ->
  Classifier.atmosphere_is_text (Planet.atmosphere p) = true ->
  exists plan,
    recommendObservationPlan (Some p) = Ok plan
    /\ suggestedCadence plan = "Monthly"
    /\ exposureEstimateHours plan = 3.
Proof.
  intros Hd Ha. unfold recommendObservationPlan.
  rewrite (atmosphere_has_h2o_text _ Ha), Hd. cbn [bind].
  change (Qlt_bool 200 100) with false. change (Qlt_bool 200 500) with true.
  cbv iota.
  destruct (match Planet.atmosphere p with
            | JStr s => includes "h2o" (toLowerCase s)
            | _ => false
            end); eexists; repeat split.
Qed.

End Plan.

Lemma recommendObservationPlan_exposure_monotone_witness :
  exists plan1 plan2,
    recommendObservationPlan (rt := Reference.runtime)
      (Some (PlanetUpdates.with_distance (JNum 50) Examples.earthlike)) = Ok plan1
    /\ recommendObservationPlan (rt := Reference.runtime)
         (Some (PlanetUpdates.with_distance (JNum 800) Examples.earthlike)) = Ok plan2
    /\ exposureEstimateHours plan1 <= exposureEstimateHours plan2.
Proof.
  assert (E1 : exists plan1,
             recommendObservationPlan (rt := Reference.runtime)
               (Some (PlanetUpdates.with_distance (JNum 50) Examples.earthlike))
             = Ok plan1) by (vm_compute; eexists; reflexivity).
  assert (E2 : exists plan2,
             recommendObservationPlan (rt := Reference.runtime)
               (Some (PlanetUpdates.with_distance (JNum 800) Examples.earthlike))
             = Ok plan2) by (vm_compute; eexists; reflexivity).
  destruct E1 as [plan1 E1], E2 as [plan2 E2].
  exists plan1, plan2. split; [exact E1|]. split; [exact E2|].
  refine (recommendObservationPlan_exposure_monotone (rt := Reference.runtime)
            Examples.earthlike 50 800 plan1 plan2 _ _ E1 E2).
  - reflexivity.
  - vm_compute. discriminate.
Defined.

Lemma recommendObservationPlan_default_distance_witness :
  exists plan,
    recommendObservationPlan (rt := Reference.runtime)
      (Some Examples.boolean_temperature) = Ok plan
    /\ suggestedCadence plan = "Monthly"
    /\ exposureEstimateHours plan = 3.
Proof.
  exact (recommendObservationPlan_default_distance (rt := Reference.runtime)
           Examples.boolean_temperature eq_refl eq_refl).
Defined.

End ObservationPlanFacts.

(** ** ExoplanetClassifier: the cache as a store, the prediction, the batch *)

Module ClassifierMore.
Import Classifier ClassifierFacts ClassifierBatch RoundingFacts.

Section Store.
Context {rt : Runtime}.



(** X11.  A call never rewrites the cache: an entry that is there stays as
    it is, no key but the fingerprint of the argument is touched, and a
    call that throws leaves the cache as it found it. *)
Theorem classifyPlanet_keeps_cache (self : t) (planet : option Planet.t) :
  let self1 := snd (classifyPlanet self planet) in
  (forall key r, cache self !! key = Some r -> cache self1 !! key = Some r)
  /\ (forall key, key <> _hashPlanet planet -> cache self1 !! key = cache self !! key)
  /\ (forall e, fst (classifyPlanet self planet) = Throw e -> cache self1 = cache self).
Proof.
  intros self1. subst self1. rewrite classifyPlanet_unfold, loaded_cache.
  destruct (cache self !! _hashPlanet planet) as [c|] eqn:Hc.
  - cbn [fst snd]. rewrite loaded_cache.
    split; [auto | split; [auto | discriminate]].
  - destruct (classify (loaded self) planet) as [r'|e']; cbn [fst snd].
    + cbn [set_cache cache]. split; [|split].
      * intros key r Hk. rewrite lookup_insert_ne; [exact Hk|].
        intros <-. congruence.
      * intros key Hk. rewrite lookup_insert_ne; [reflexivity | congruence].
      * discriminate.
    + rewrite loaded_cache. split; [auto | split; auto].
Qed.


End Store.


Section Prediction.
Context {rt : Runtime}.

(** The first entry of the sorted array is the first entry of the object
    that no other entry exceeds. *)
Lemma sort_entries_first_maximum (l : list (string * Q)) x s :
  sort_entries l = x :: s ->
  exists l1 l2,
    l = l1 ++ x :: l2
    /\ List.Forall (fun e => snd e < snd x) l1
    /\ List.Forall (fun e => snd e <= snd x) l2.
Proof.
  unfold sort_entries. revert x s.
  induction l as [|y l IH]; intros x s; [discriminate|].
  cbn [sort_by fold_right]. fold (sort_by (fun a b : string * Q => Qle_bool (snd b) (snd a)) l).
  destruct (sort_by (fun a b : string * Q => Qle_bool (snd b) (snd a)) l)
    as [|z s'] eqn:E.
  - pose proof (sort_by_length (fun a b : string * Q => Qle_bool (snd b) (snd a)) l) as Hl.
    rewrite E in Hl. destruct l; [|discriminate Hl].
    cbn [insert_sorted]. intros [= <- <-].
    exists [], []. repeat split; constructor.
  - destruct (IH z s' eq_refl) as (l1 & l2 & -> & H1 & H2).
    cbn [insert_sorted]. destruct (Qle_bool (snd z) (snd y)) eqn:B.
    + intros [= <- <-]. apply Qle_bool_iff in B.
      exists [], (l1 ++ z :: l2). split; [reflexivity|]. split; [constructor|].
      apply List.Forall_app. split.
      * eapply List.Forall_impl; [|exact H1]. intros e He. cbv beta in He.
        apply Qlt_le_weak. eapply Qlt_le_trans; eassumption.
      * constructor; [exact B|].
        eapply List.Forall_impl; [|exact H2]. intros e He. cbv beta in He.
        eapply Qle_trans; eassumption.
    + intros [= <- <-]. apply Qle_bool_false in B.
      exists (y :: l1), l2. split; [reflexivity|]. split; [|exact H2].
      constructor; assumption.
Qed.



Lemma classifyPlanet_miss self planet :
  cache self !! _hashPlanet planet = None ->
  fst (classifyPlanet self planet) = classify (loaded self) planet.
Proof.
  intros Hm. rewrite classifyPlanet_unfold, loaded_cache, Hm.
  destruct (classify (loaded self) planet); reflexivity.
Qed.

(** What a computed result is made of. *)
Lemma classify_inv self planet r :
  classify self planet = Ok r ->
  exists p f base e0 rest,
    planet = Some p
    /\ _featureVector (Some p) = Ok f
    /\ base_scores (Some p) f = Ok base
    /\ map fst base = base_labels
    /\ sort_entries (probabilities_from self f base) = e0 :: rest
    /\ r = mkResult (fst e0) (probabilities_from self f base)
             (toFixed 3
                (Math_min 0.999
                   (0.45 + snd e0 * 0.45
                    + (FeatureVector.ai_confidence f - 0.7) * 0.25)))
             (mkExplanation f (_explainFeatures f)
                (map (fun e => (fst e, toFixed 4 (snd e)))
                     (slice 0 3 (e0 :: rest))))
             (mkModelMeta "heuristic-sim-v2" (labels self)).
Proof.
  intros Hr. destruct planet as [p|]; [|discriminate Hr].
  destruct (atmosphere_is_text (Planet.atmosphere p)) eqn:Ha.
  2: { rewrite (classify_throws_on_not_text self p Ha) in Hr. discriminate Hr. }
  destruct (_featureVector (Some p)) as [f|] eqn:Hf; [|discriminate Hf].
  destruct (base_scores_text p f Ha) as (base & Hb & Hk).
  assert (Hne : base <> []) by (intros ->; discriminate Hk).
  destruct (classify_returns self p f base Hf Hb Hne) as (e0 & rest & Hs & Hret).
  rewrite Hret in Hr. injection Hr as <-.
  exists p, f, base, e0, rest. repeat split; assumption.
Qed.

(** X13.  The predicted type of a computed result is a label of largest
    probability, and the first such label in the order of the keys: every
    label before it has a strictly smaller probability, every label after
    it a probability that is not larger. *)
Theorem classifyPlanet_predicts_first_maximum (self : t)
  (planet : option Planet.t) (r : ClassificationResult) :
  cache self !! _hashPlanet planet = None ->
  fst (classifyPlanet self planet) = Ok r ->
  exists earlier top later,
    probabilities r = earlier ++ (predictedType r, top) :: later
    /\ List.Forall (fun kv => snd kv < top) earlier
    /\ List.Forall (fun kv => snd kv <= top) later.
Proof.
  intros Hm Hr. rewrite (classifyPlanet_miss self planet Hm) in Hr.
  destruct (classify_inv _ _ _ Hr) as (p & f & base & e0 & rest & _ & _ & _ & _ & Hs & ->).
  destruct (sort_entries_first_maximum _ _ _ Hs) as (l1 & l2 & E & H1 & H2).
  exists l1, (snd e0), l2. cbn [probabilities predictedType].
  rewrite E. destruct e0 as [k v]. repeat split; assumption.
Qed.


End Prediction.

Section Confidence.
Context {rt : Runtime}.
Hypothesis Math_exp_nonneg : forall x, 0 <= Math_exp x.

Lemma probabilities_from_nonneg self f base a b :
  calibration self = Some (a, b) ->
  List.Forall (fun kv => 0 <= snd kv) (probabilities_from self f base).
Proof.
  intros Hc. unfold probabilities_from.
  set (smoothed := map_values _ (map_values _ base)).
  assert (Hpos : List.Forall (fun c => 0 <= c) (map snd smoothed)).
  { unfold smoothed. rewrite map_values_snd. apply List.Forall_forall.
    intros c Hin. apply in_map_iff in Hin. destruct Hin as [raw [<- _]].
    apply (calibrate_unit Math_exp_nonneg self a b _ Hc). }
  assert (Hs : 0 < sum_or_1 smoothed).
  { unfold sum_or_1, num_or. pose proof (sumQ_nonneg _ Hpos) as Hn.
    destruct (Qeq_bool (sumQ (map snd smoothed)) 0) eqn:E0; [lra|].
    apply Qle_lteq in Hn. destruct Hn as [Hn|Hn]; [exact Hn|].
    symmetry in Hn. apply Qeq_bool_iff in Hn. congruence. }
  apply List.Forall_forall. intros kv Hkv. unfold map_values in Hkv at 1.
  apply in_map_iff in Hkv. destruct Hkv as [e [<- He]]. cbn [snd].
  apply toFixed_nonneg, Qle_shift_div_l; [exact Hs|].
  rewrite List.Forall_forall in Hpos. specialize (Hpos (snd e) (in_map snd _ _ He)).
  lra.
Qed.

(** X15.  With Platt parameters, a computed result has a confidence of at
    least [0.275] whenever the record's [ai_confidence], once coerced and
    defaulted, is not negative; a negative confidence needs a negative
    [ai_confidence]. *)
Theorem classifyPlanet_confidence_floor (self : t) (p : Planet.t) (a b : Q)
  (r : ClassificationResult) :
  calibration self = Some (a, b) ->
  cache self !! _hashPlanet (Some p) = None ->
  fst (classifyPlanet self (Some p)) = Ok r ->
  0 <= Number_or (Planet.ai_confidence p) 0.75 ->
  0.275 <= confidence r <= 0.999.
Proof.
  intros Hc Hm Hr Hai. rewrite (classifyPlanet_miss self _ Hm) in Hr.
  destruct (classify_inv _ _ _ Hr)
    as (p' & f & base & e0 & rest & [= <-] & Hf & _ & Hk & Hs & ->).
  cbn [confidence].
  assert (Hai' : 0 <= FeatureVector.ai_confidence f) by (injection Hf as <-; exact Hai).
  pose proof (probabilities_from_nonneg (loaded self) f base a b
                ltac:(rewrite loaded_calibration; exact Hc)) as Hnn.
  assert (H0 : 0 <= snd e0).
  { rewrite List.Forall_forall in Hnn. apply Hnn.
    apply (sort_by_In (fun a b : string * Q => Qle_bool (snd b) (snd a))).
    fold (sort_entries (probabilities_from (loaded self) f base)).
    rewrite Hs. now left. }
  apply toFixed_within;
    [vm_compute; reflexivity | vm_compute; reflexivity |].
  match goal with |- _ <= Math_min 0.999 ?x <= _ =>
    destruct (Math_min_spec 0.999 x) as [[? ->]|[? ->]]; split; lra
  end.
Qed.

End Confidence.

Section Importances.
Context {rt : Runtime}.

(** Dividing numbers that are not negative by their positive sum and
    rounding each quotient. *)
Lemma normalise_and_round_nonneg d (cs : list Q) :
  List.Forall (fun c => 0 <= c) cs -> 0 < sumQ cs ->
  let ps := map (fun v => toFixed d (v / num_or (sumQ cs) 1)) cs in
  List.Forall (fun p => 0 <= p <= 1) ps
  /\ Qabs (sumQ ps - 1) <= inject_Z (Z.of_nat (List.length cs)) * (0.5 / pow10 d).
Proof.
  intros Hpos Hs ps.
  assert (Hns : num_or (sumQ cs) 1 = sumQ cs).
  { unfold num_or. destruct (Qeq_bool (sumQ cs) 0) eqn:E; [|reflexivity].
    apply Qeq_bool_iff in E. lra. }
  subst ps. rewrite Hns. set (s := sumQ cs) in *.
  assert (Hunit : forall v, In v cs -> 0 <= v / s <= 1).
  { intros v Hv. assert (v <= s) by (apply sumQ_le_member; assumption).
    rewrite List.Forall_forall in Hpos. pose proof (Hpos v Hv).
    split; [apply Qle_shift_div_l | apply Qle_shift_div_r]; lra. }
  split.
  - apply List.Forall_forall. intros q Hq. apply in_map_iff in Hq.
    destruct Hq as [v [<- Hv]].
    apply toFixed_unit_interval, Hunit, Hv.
  - assert (E : map (fun v => toFixed d (v / s)) cs
                = map (round_half_away d) (map (fun v => v / s) cs)).
    { rewrite map_map. apply map_ext_in. intros v Hv.
      apply toFixed_small.
      destruct (Hunit v Hv). rewrite Qabs_pos by assumption.
      assert (1 < pow10 21) by (vm_compute; reflexivity).
      lra. }
    rewrite E.
    pose proof (sumQ_map_round d (map (fun v => v / s) cs)) as R.
    rewrite length_map in R.
    assert (S1 : sumQ (map (fun v => v / s) cs) == 1).
    { rewrite sumQ_map_div by lra. fold s. field. lra. }
    apply Qabs_Qle_condition in R. apply Qabs_Qle_condition.
    lra.
Qed.

(** X16.  For features whose distance and follow-up count are not negative,
    the five importances are each within [[0, 1]] and add up to 1 within
    [0.0025], whatever the engine's [exp] and [log]. *)
Theorem explainFeatures_normalised (f : FeatureVector.t) :
  0 <= FeatureVector.distance f ->
  0 <= FeatureVector.follow_up f ->
  let imp := _explainFeatures f in
  map fst imp = ["temperature"; "mass"; "distance"; "atmosphere"; "follow_up"]
  /\ List.Forall (fun kv => 0 <= snd kv <= 1) imp
  /\ Qabs (sumQ (map snd imp) - 1) <= 0.0025.
Proof.
  intros Hd Hfu imp. subst imp. unfold _explainFeatures.
  set (t := Math_abs _). set (m := Math_abs _).
  set (dd := Math_min 1 (FeatureVector.distance f / 500)).
  set (at_ := if Qeq_bool (FeatureVector.atmosphere f) 0 then 0.02 else 0.1).
  set (fu := Math_min 1 (FeatureVector.follow_up f / 20)).
  cbn [map fst snd].
  assert (Ht : 0 <= t) by apply Qabs_nonneg.
  assert (Hm : 0 <= m) by apply Qabs_nonneg.
  assert (Hdd : 0 <= dd).
  { unfold dd. destruct (Math_min_spec 1 (FeatureVector.distance f / 500))
      as [[? ->]|[? ->]]; [lra|]. apply Qle_shift_div_l; lra. }
  assert (Hfu' : 0 <= fu).
  { unfold fu. destruct (Math_min_spec 1 (FeatureVector.follow_up f / 20))
      as [[? ->]|[? ->]]; [lra|]. apply Qle_shift_div_l; lra. }
  assert (Hat : 0.02 <= at_) by (unfold at_; destruct (Qeq_bool _ 0); lra).
  assert (Hall : List.Forall (fun c => 0 <= c) [t; m; dd; at_; fu]).
  { repeat constructor; lra. }
  assert (Hsum : 0 < sumQ [t; m; dd; at_; fu]).
  { rewrite !sumQ_cons, sumQ_nil. lra. }
  destruct (normalise_and_round_nonneg 3 [t; m; dd; at_; fu] Hall Hsum) as [Hu Hs].
  cbn [map List.length] in Hu, Hs.
  split; [reflexivity|]. split.
  - inversion Hu as [|? ? U1 Hu1]; subst. inversion Hu1 as [|? ? U2 Hu2]; subst.
    inversion Hu2 as [|? ? U3 Hu3]; subst. inversion Hu3 as [|? ? U4 Hu4]; subst.
    inversion Hu4 as [|? ? U5 _]; subst.
    constructor; [exact U1|]. constructor; [exact U2|]. constructor; [exact U3|].
    constructor; [exact U4|]. constructor; [exact U5|]. constructor.
  - eapply Qle_trans; [exact Hs|]. vm_compute. discriminate.
Qed.

End Importances.

Section Batch.
Context {rt : Runtime}.

Lemma classifyPlanet_cache_grows self planet key r :
  cache self !! key = Some r ->
  cache (snd (classifyPlanet self planet)) !! key = Some r.
Proof.
  intros Hk. rewrite classifyPlanet_unfold, loaded_cache.
  destruct (cache self !! _hashPlanet planet) as [c|] eqn:Hc.
  - cbn [snd]. now rewrite ?loaded_cache.
  - destruct (classify (loaded self) planet) as [r'|e']; cbn [snd].
    + cbn [set_cache cache]. rewrite lookup_insert_ne, ?loaded_cache; [exact Hk|].
      intros <-. congruence.
    + now rewrite ?loaded_cache.
Qed.

Lemma classifyPlanet_stays_loaded self planet :
  modelLoaded (snd (classifyPlanet self planet)) = true.
Proof.
  rewrite classifyPlanet_unfold.
  destruct (cache (loaded self) !! _hashPlanet planet);
    [|destruct (classify (loaded self) planet)]; cbn [snd set_cache modelLoaded];
    apply loaded_modelLoaded.
Qed.

Lemma classify_each_cons self p ps :
  classify_each self (p :: ps)
  = (fst (classifyPlanet self p)
       :: fst (classify_each (snd (classifyPlanet self p)) ps),
     snd (classify_each (snd (classifyPlanet self p)) ps)).
Proof.
  cbn [classify_each]. destruct (classifyPlanet self p) as [o self1]. cbn [fst snd].
  destruct (classify_each self1 ps). reflexivity.
Qed.

Lemma classify_each_length self ps :
  List.length (fst (classify_each self ps)) = List.length ps.
Proof.
  revert self. induction ps as [|p ps IH]; intros self; [reflexivity|].
  rewrite classify_each_cons. cbn [fst List.length]. now rewrite IH.
Qed.

Lemma classify_each_cache_grows self ps key r :
  cache self !! key = Some r ->
  cache (snd (classify_each self ps)) !! key = Some r.
Proof.
  revert self. induction ps as [|p ps IH]; intros self Hk; [exact Hk|].
  rewrite classify_each_cons. cbn [snd]. apply IH, classifyPlanet_cache_grows, Hk.
Qed.

Lemma classify_each_stays_loaded self ps :
  modelLoaded self = true -> modelLoaded (snd (classify_each self ps)) = true.
Proof.
  revert self. induction ps as [|p ps IH]; intros self Hl; [exact Hl|].
  rewrite classify_each_cons. cbn [snd]. apply IH, classifyPlanet_stays_loaded.
Qed.

(** Every result a batch returns is in the cache when the batch ends, under
    the key of its record. *)
Lemma classify_each_cached self ps :
  Forall2 (fun p o => forall r, o = Ok r ->
             cache (snd (classify_each self ps)) !! _hashPlanet p = Some r)
          ps (fst (classify_each self ps)).
Proof.
  revert self. induction ps as [|p ps IH]; intros self.
  - constructor.
  - rewrite classify_each_cons. cbn [fst snd]. constructor; [|apply IH].
    intros r Hr. apply classify_each_cache_grows.
    now destruct (classifyPlanet_caches self p r Hr) as (_ & Hc & _).
Qed.

Lemma Promise_all_Ok {A} (os : list (outcome A)) rs :
  Promise_all os = Ok rs -> os = map Ok rs.
Proof.
  revert rs. induction os as [|[a|e] os IH]; intros rs; cbn [Promise_all].
  - now intros [= <-].
  - destruct (Promise_all os) as [l|e]; [|discriminate].
    intros [= <-]. cbn [map]. now rewrite (IH l eq_refl).
  - discriminate.
Qed.

Lemma Promise_all_map_Ok {A} (rs : list A) : Promise_all (map Ok rs) = Ok rs.
Proof. induction rs as [|r rs IH]; cbn [map Promise_all]; [|rewrite IH]; reflexivity. Qed.

Lemma classify_each_hits self ps rs :
  modelLoaded self = true ->
  Forall2 (fun p r => cache self !! _hashPlanet p = Some r) ps rs ->
  classify_each self ps = (map Ok rs, self).
Proof.
  intros Hl. induction 1 as [|p r ps rs Hp _ IH]; [reflexivity|].
  rewrite classify_each_cons, (classifyPlanet_hit self p r Hl Hp). cbn [fst snd].
  now rewrite IH.
Qed.

Lemma classifyBatch_unfold self ps :
  classifyBatch self ps
  = (Promise_all (fst (classify_each (loaded self) ps)),
     snd (classify_each (loaded self) ps)).
Proof.
  unfold classifyBatch. fold (loaded self).
  destruct (classify_each (loaded self) ps). reflexivity.
Qed.

Lemma Forall2_map_Ok_cached (self : t) ps (rs : list ClassificationResult) :
  Forall2 (fun (p : option Planet.t) (o : outcome ClassificationResult) =>
             forall r, o = Ok r -> cache self !! _hashPlanet p = Some r)
          ps (map Ok rs) ->
  Forall2 (fun p r => cache self !! _hashPlanet p = Some r) ps rs.
Proof.
  revert ps. induction rs as [|r rs IH]; intros ps H; inversion H; subst.
  - constructor.
  - constructor; [auto | now apply IH].
Qed.

(** X17.  A batch that resolved resolves again to the same results, and the
    second run changes nothing in the classifier. *)
Theorem classifyBatch_idempotent (self : t) (planets : list (option Planet.t))
  (results : list ClassificationResult) :
  fst (classifyBatch self planets) = Ok results ->
  let self1 := snd (classifyBatch self planets) in
  classifyBatch self1 planets = (Ok results, self1).
Proof.
  rewrite classifyBatch_unfold. cbn [fst snd]. intros Hall.
  apply Promise_all_Ok in Hall.
  pose proof (classify_each_cached (loaded self) planets) as Hc. rewrite Hall in Hc.
  apply Forall2_map_Ok_cached in Hc.
  set (self1 := snd (classify_each (loaded self) planets)) in *.
  assert (Hl : modelLoaded self1 = true)
    by apply classify_each_stays_loaded, loaded_modelLoaded.
  rewrite classifyBatch_unfold, (loaded_fixed self1 Hl).
  rewrite (classify_each_hits self1 planets results Hl Hc). cbn [fst snd].
  now rewrite Promise_all_map_Ok.
Qed.

(** X18.  On records whose atmospheres are strings or falsy, a batch
    resolves, with one result per record. *)
Theorem classifyBatch_resolves (self : t) (planets : list Planet.t) :
  List.Forall (fun p => atmosphere_is_text (Planet.atmosphere p) = true) planets ->
  exists results,
    fst (classifyBatch self (map Some planets)) = Ok results
    /\ List.length results = List.length planets.
Proof.
  intros Hall. rewrite classifyBatch_unfold. cbn [fst].
  generalize (loaded self). clear self.
  induction Hall as [|p ps Hp _ IH]; intros self.
  - exists []. split; reflexivity.
  - cbn [map]. rewrite classify_each_cons. cbn [fst Promise_all].
    destruct (classifyPlanet_returns_on_text self p Hp) as [r ->].
    destruct (IH (snd (classifyPlanet self (Some p)))) as (rs & -> & Hlen).
    exists (r :: rs). split; [reflexivity|]. cbn [List.length]. now rewrite Hlen.
Qed.

(** X19.  In a batch that resolved, the result of each record is the one the
    cache holds under its key afterwards; so two records with one
    fingerprint have the same result. *)
Theorem classifyBatch_one_result_per_key (self : t) (planets : list (option Planet.t))
  (results : list ClassificationResult) :
  fst (classifyBatch self planets) = Ok results ->
  Forall2 (fun p r => cache (snd (classifyBatch self planets)) !! _hashPlanet p = Some r)
          planets results
  /\ (forall i j pi pj ri rj,
        nth_error planets i = Some pi -> nth_error results i = Some ri ->
        nth_error planets j = Some pj -> nth_error results j = Some rj ->
        _hashPlanet pi = _hashPlanet pj -> ri = rj).
Proof.
  rewrite classifyBatch_unfold. cbn [fst snd]. intros Hall.
  apply Promise_all_Ok in Hall.
  pose proof (classify_each_cached (loaded self) planets) as Hc. rewrite Hall in Hc.
  apply Forall2_map_Ok_cached in Hc.
  split; [exact Hc|].
  revert Hc. clear Hall.
  generalize (cache (snd (classify_each (loaded self) planets))). intros c Hc.
  assert (Hnth : forall i p r, nth_error planets i = Some p ->
                   nth_error results i = Some r -> c !! _hashPlanet p = Some r).
  { induction Hc as [|p0 r0 ps rs H0 _ IH]; intros [|i] p r Hp Hr;
      try discriminate.
    - injection Hp as <-. injection Hr as <-. exact H0.
    - exact (IH i p r Hp Hr). }
  intros i j pi pj ri rj Hpi Hri Hpj Hrj Hk.
  pose proof (Hnth i pi ri Hpi Hri) as Hi. pose proof (Hnth j pj rj Hpj Hrj) as Hj.
  rewrite Hk in Hi. congruence.
Qed.

End Batch.

Lemma classifyPlanet_confidence_floor_witness :
  exists r,
    fst (classifyPlanet (rt := Reference.runtime) create (Some Examples.earthlike)) = Ok r
    /\ 0.275 <= confidence r <= 0.999.
Proof.
  assert (E : exists r, fst (classifyPlanet (rt := Reference.runtime) create
                               (Some Examples.earthlike)) = Ok r)
    by (vm_compute; eexists; reflexivity).
  destruct E as [r E]. exists r. split; [exact E|].
  refine (classifyPlanet_confidence_floor (rt := Reference.runtime)
            ReferenceFacts.exp_nonneg create Examples.earthlike 1 0 r
            eq_refl (lookup_empty _) E _).
  vm_compute. discriminate.
Defined.

Lemma explainFeatures_normalised_witness :
  let f := FeatureVector.mk 1 1 288 365 50 1 0 0.9 in
  let imp := _explainFeatures (rt := Reference.runtime) f in
  map fst imp = ["temperature"; "mass"; "distance"; "atmosphere"; "follow_up"]
  /\ List.Forall (fun kv => 0 <= snd kv <= 1) imp
  /\ Qabs (sumQ (map snd imp) - 1) <= 0.0025.
Proof.
  refine (explainFeatures_normalised (rt := Reference.runtime)
            (FeatureVector.mk 1 1 288 365 50 1 0 0.9) _ _);
    vm_compute; discriminate.
Defined.

Lemma classifyBatch_idempotent_witness :
  let planets := [Some Examples.earthlike; Some Examples.earthlike_far;
                  Some Examples.boolean_temperature] in
  let self1 := snd (classifyBatch (rt := Reference.runtime) create planets) in
  exists results,
    fst (classifyBatch (rt := Reference.runtime) create planets) = Ok results
    /\ classifyBatch (rt := Reference.runtime) self1 planets = (Ok results, self1).
Proof.
  intros planets self1.
  assert (E : exists results,
             fst (classifyBatch (rt := Reference.runtime) create planets) = Ok results)
    by (vm_compute; eexists; reflexivity).
  destruct E as [results E]. exists results. split; [exact E|].
  exact (classifyBatch_idempotent (rt := Reference.runtime) create planets results E).
Defined.

Lemma classifyBatch_resolves_witness :
  let planets := [Examples.earthlike; Examples.earthlike_far;
                  Examples.boolean_temperature] in
  exists results,
    fst (classifyBatch (rt := Reference.runtime) create (map Some planets)) = Ok results
    /\ List.length results = List.length planets.
Proof.
  refine (classifyBatch_resolves (rt := Reference.runtime) create _ _).
  repeat (constructor; [reflexivity|]). constructor.
Defined.

Lemma classifyBatch_one_result_per_key_witness :
  let planets := [Some Examples.earthlike; Some Examples.earthlike_far;
                  Some Examples.boolean_temperature] in
  exists results,
    fst (classifyBatch (rt := Reference.runtime) create planets) = Ok results
    /\ Forall2 (fun p r =>
                  cache (snd (classifyBatch (rt := Reference.runtime) create planets))
                  !! _hashPlanet (rt := Reference.runtime) p = Some r)
               planets results
    /\ (forall i j pi pj ri rj,
          nth_error planets i = Some pi -> nth_error results i = Some ri ->
          nth_error planets j = Some pj -> nth_error results j = Some rj ->
          _hashPlanet (rt := Reference.runtime) pi
          = _hashPlanet (rt := Reference.runtime) pj -> ri = rj).
Proof.
  intros planets.
  assert (E : exists results,
             fst (classifyBatch (rt := Reference.runtime) create planets) = Ok results)
    by (vm_compute; eexists; reflexivity).
  destruct E as [results E]. exists results. split; [exact E|].
  exact (classifyBatch_one_result_per_key (rt := Reference.runtime) create planets
           results E).
Defined.

Lemma classifyPlanet_predicts_first_maximum_witness :
  exists r earlier top later,
    fst (classifyPlanet (rt := Reference.runtime) create (Some Examples.earthlike)) = Ok r
    /\ probabilities r = earlier ++ (predictedType r, top) :: later
    /\ List.Forall (fun kv => snd kv < top) earlier
    /\ List.Forall (fun kv => snd kv <= top) later.
Proof.
  assert (E : exists r, fst (classifyPlanet (rt := Reference.runtime) create
                               (Some Examples.earthlike)) = Ok r)
    by (vm_compute; eexists; reflexivity).
  destruct E as [r E].
  destruct (classifyPlanet_predicts_first_maximum (rt := Reference.runtime) create
              (Some Examples.earthlike) r (lookup_empty _) E)
    as (earlier & top & later & H).
  exists r, earlier, top, later. split; [exact E | exact H].
Defined.


End ClassifierMore.

(** ** SpectroscopyAI: the stages of the pipeline and the verdict *)

Module SpectroscopyMore.
Import SpectroscopyAI SpectroscopyFacts RoundingFacts.

(** *** Arrays mapped with their indices *)

Section Mapi.
Context {A B : Type}.

Lemma mapi_from_length (f : nat -> A -> B) l n :
  List.length (mapi_from n f l) = List.length l.
Proof.
  revert n. induction l as [|x l IH]; intros n; simpl; [reflexivity|].
  now rewrite IH.
Qed.

Lemma mapi_from_Forall (P : B -> Prop) (f : nat -> A -> B) l n :
  (forall i x, nth_error l i = Some x -> P (f (n + i)%nat x)) ->
  List.Forall P (mapi_from n f l).
Proof.
  revert n. induction l as [|x l IH]; intros n H; simpl; constructor.
  - specialize (H 0%nat x eq_refl). now rewrite Nat.add_0_r in H.
  - apply IH. intros i y Hy. specialize (H (S i) y Hy).
    now rewrite Nat.add_succ_r in H.
Qed.

Lemma mapi_Forall (P : B -> Prop) (f : nat -> A -> B) l :
  (forall i x, nth_error l i = Some x -> P (f i x)) -> List.Forall P (mapi f l).
Proof. intros H. apply mapi_from_Forall. exact H. Qed.

Lemma mapi_from_map {C} (g : B -> C) (h : A -> C) (f : nat -> A -> B) l n :
  (forall i x, g (f i x) = h x) -> map g (mapi_from n f l) = map h l.
Proof.
  intros H. revert n. induction l as [|x l IH]; intros n; simpl; [reflexivity|].
  now rewrite H, IH.
Qed.


End Mapi.

(** *** Smoothing *)



Lemma slice_In {A} (start stop : nat) (l : list A) x :
  In x (slice start stop l) -> In x l.
Proof.
  unfold slice. intros H.
  rewrite <- (firstn_skipn start l). apply in_or_app. right.
  rewrite <- (firstn_skipn (stop - start) (skipn start l)). apply in_or_app.
  now left.
Qed.

(** The window around an index of the array holds that index. *)
Lemma centered_slice_nonempty {A} (l : list A) (idx half : nat) :
  (idx < List.length l)%nat ->
  slice (Nat.max 0 (idx - half))
        (Nat.min (List.length l - 1) (idx + half) + 1) l <> [].
Proof.
  intros Hi E. apply (f_equal (@List.length A)) in E.
  unfold slice in E. rewrite length_firstn, length_skipn in E. simpl in E. lia.
Qed.



(** *** Continuum and normalisation *)

Lemma envelope_value_floor (data : list Point.t) (half i : nat) :
  let sl := map smoothed_or_raw
              (slice (Nat.max 0 (i - half))
                     (Nat.min (List.length data - 1) (i + half) + 1) data) in
  let sorted := sort_by Qle_bool sl in
  let c := Math_max 0.000001 (nth (List.length sorted * 9 / 10) sorted 0) in
  (i < List.length data)%nat ->
  0.000001 <= c
  /\ (c = 0.000001 \/ exists p, In p data /\ c = smoothed_or_raw p).
Proof.
  intros sl sorted c Hi. subst c. split.
  - destruct (Math_max_spec 0.000001 (nth (List.length sorted * 9 / 10) sorted 0))
      as [[? ->]|[? ->]]; lra.
  - unfold Math_max. destruct (Qle_bool _ _); [right|now left].
    assert (Hne : sl <> []).
    { intros E. apply map_eq_nil in E.
      exact (centered_slice_nonempty data i half Hi E). }
    assert (Hlen : (List.length sorted * 9 / 10 < List.length sorted)%nat).
    { assert (0 < List.length sorted)%nat.
      { unfold sorted. rewrite sort_by_length. destruct sl; [congruence|simpl; lia]. }
      apply Nat.Div0.div_lt_upper_bound. lia. }
    pose proof (nth_In sorted 0 Hlen) as Hin.
    apply (proj1 (sort_by_In Qle_bool _ sl)) in Hin. apply in_map_iff in Hin.
    destruct Hin as [p [Hp Hin]]. apply slice_In in Hin.
    exists p. split; [exact Hin | now symmetry].
Qed.

(** X21.  The continuum has one value per sample; each is at least the
    floor [0.000001], and is either that floor or the smoothed (else raw)
    intensity of one of the samples. *)
Theorem continuumEnvelope_values (data : list Point.t) (win : option nat) :
  let envelope := _continuumEnvelope data win in
  List.length envelope = List.length data
  /\ List.Forall
       (fun c => 0.000001 <= c
                 /\ (c = 0.000001
                     \/ exists p, In p data /\ c = smoothed_or_raw p))
       envelope.
Proof.
  intros envelope. subst envelope. unfold _continuumEnvelope, mapi.
  split; [apply mapi_from_length|].
  apply mapi_Forall. intros i x Hx.
  apply envelope_value_floor. apply nth_error_Some. congruence.
Qed.


(** *** Equivalent width and detection in a window *)

Lemma ew_loop_nonneg rest : forall prev ew, 0 <= ew -> 0 <= ew_loop prev rest ew.
Proof.
  induction rest as [|p rest IH]; intros prev ew H; cbn [ew_loop]; [exact H|].
  apply IH.
  match goal with |- _ <= _ + Math_max 0 ?v =>
    destruct (Math_max_spec 0 v) as [[? ->]|[? ->]]; lra
  end.
Qed.

Lemma ew_loop_flat rest : forall prev ew,
  1 <= norm_or_raw prev -> List.Forall (fun p => 1 <= norm_or_raw p) rest ->
  ew_loop prev rest ew == ew.
Proof.
  induction rest as [|p rest IH]; intros prev ew Hp Hall; cbn [ew_loop];
    [reflexivity|].
  inversion Hall as [|? ? Hq Hrest]; subst.
  rewrite (IH p _ Hq Hrest).
  assert (E1 : Math_min 1 (norm_or_raw prev) = 1)
    by (destruct (Math_min_spec 1 (norm_or_raw prev)) as [[? ->]|[? ->]];
        [reflexivity | lra]).
  assert (E2 : Math_min 1 (norm_or_raw p) = 1)
    by (destruct (Math_min_spec 1 (norm_or_raw p)) as [[? ->]|[? ->]];
        [reflexivity | lra]).
  rewrite E1, E2.
  match goal with |- _ + Math_max 0 ?v == _ =>
    assert (Ev : v == 0) by (unfold Qdiv; ring);
    destruct (Math_max_spec 0 v) as [[? ->]|[? ->]]; lra
  end.
Qed.

Lemma equivalentWidth_nonneg_aux (dataInWindow : list Point.t) :
  0 <= _equivalentWidth dataInWindow.
Proof.
  unfold _equivalentWidth.
  destruct dataInWindow as [|p0 [|p1 rest]]; try apply Qle_refl.
  apply toFixed_nonneg, ew_loop_nonneg, Qle_refl.
Qed.

(** X23.  The equivalent width is never negative, and it is zero when no
    sample of the window lies below the continuum. *)
Theorem equivalentWidth_nonneg (dataInWindow : list Point.t) :
  0 <= _equivalentWidth dataInWindow
  /\ (List.Forall (fun p => 1 <= norm_or_raw p) dataInWindow ->
      _equivalentWidth dataInWindow == 0).
Proof.
  unfold _equivalentWidth.
  destruct dataInWindow as [|p0 [|p1 rest]]; try (split; [apply Qle_refl | reflexivity]).
  split.
  - apply toFixed_nonneg, ew_loop_nonneg, Qle_refl.
  - intros Hall. inversion Hall as [|? ? H0 Hrest]; subst.
    rewrite (toFixed_comp 4 _ 0) by (apply ew_loop_flat; assumption).
    vm_compute. reflexivity.
Qed.

Lemma count_if_le {A} (f : A -> bool) (l : list A) :
  (count_if f l <= List.length l)%nat.
Proof. unfold count_if. apply filter_length_le. Qed.

(** X24.  [_detectInRange] returns [null] exactly when no sample has its
    wavelength in the window; otherwise its verdict counts the samples of
    the window (at least one), has an absorption fraction within [[0, 1]]
    and an equivalent width that is not negative, and a detection has a
    mean SNR of at least the rounded threshold. *)
Theorem detectInRange_verdict (self : t) (spectralData : list Point.t)
  (minW maxW : Q) :
  let inside := fun p : Point.t =>
    (Qle_bool minW (Point.wavelength p) && Qle_bool (Point.wavelength p) maxW)%bool in
  (_detectInRange self spectralData minW maxW = None
   <-> List.Forall (fun p => inside p = false) spectralData)
  /\ (forall w, _detectInRange self spectralData minW maxW = Some w ->
        Window.points w = count_if inside spectralData
        /\ (1 <= Window.points w)%nat
        /\ 0 <= Window.absorptionFraction w <= 1
        /\ 0 <= Window.ew w
        /\ (Window.detected w = true ->
            toFixed 2 (minSnrForDetection self) <= Window.meanSnr w)).
Proof.
  intros inside. unfold _detectInRange. fold inside.
  destruct (List.filter inside spectralData) as [|q qs] eqn:E.
  - split.
    + split; [intros _|reflexivity].
      apply List.Forall_forall. intros p Hp.
      destruct (inside p) eqn:Hi; [|reflexivity].
      assert (In p (List.filter inside spectralData)) by (apply filter_In; auto).
      rewrite E in H. contradiction.
    + discriminate.
  - split.
    + split; [discriminate|]. intros Hall. exfalso.
      assert (Hq : In q (List.filter inside spectralData)) by (rewrite E; now left).
      apply filter_In in Hq. destruct Hq as [Hq Hi].
      rewrite List.Forall_forall in Hall. specialize (Hall q Hq). congruence.
    + intros w [= <-].
      cbn [Window.points Window.absorptionFraction Window.ew Window.detected
           Window.meanSnr].
      split; [unfold count_if; now rewrite E|].
      split; [cbn [List.length]; lia|].
      assert (Hlen : 0 < Qnat (S (List.length qs))).
      { unfold Qnat. change 0 with (inject_Z 0). rewrite <- Zlt_Qlt. lia. }
      split; [|split].
      * apply ClassifierFacts.toFixed_unit_interval.
        pose proof (count_if_le (fun p => Qlt_bool (norm_or_raw p) 0.98) (q :: qs)) as Hc.
        cbn [List.length] in Hc.
        assert (H0 : 0 <= Qnat (count_if (fun p => Qlt_bool (norm_or_raw p) 0.98) (q :: qs))).
        { unfold Qnat. change 0 with (inject_Z 0). rewrite <- Zle_Qle. lia. }
        assert (H1 : Qnat (count_if (fun p => Qlt_bool (norm_or_raw p) 0.98) (q :: qs))
                     <= Qnat (S (List.length qs))).
        { unfold Qnat. rewrite <- Zle_Qle. lia. }
        revert Hlen H0 H1.
        generalize (Qnat (count_if (fun p => Qlt_bool (norm_or_raw p) 0.98) (q :: qs))).
        generalize (Qnat (S (List.length qs))).
        intros n c Hlen H0 H1.
        split; [apply Qle_shift_div_l | apply Qle_shift_div_r]; try exact Hlen; lra.
      * apply toFixed_nonneg. exact (equivalentWidth_nonneg_aux (q :: qs)).
      * intros Hd. apply andb_true_iff in Hd. destruct Hd as [Hd _].
        apply andb_true_iff in Hd. destruct Hd as [Hd _].
        apply Qle_bool_iff in Hd. apply toFixed_mono, Hd.
Qed.

(** *** The analysis of a non-empty spectrum *)

Lemma savitzkyGolay_wavelengths y window order :
  map Point.wavelength (_savitzkyGolay y window order) = map Point.wavelength y.
Proof.
  unfold _savitzkyGolay. destruct (List.length y <? window)%nat.
  - rewrite map_map. reflexivity.
  - apply mapi_from_map. reflexivity.
Qed.

Lemma normalize_wavelengths data :
  map Point.wavelength (_normalize data) = map Point.wavelength data.
Proof. apply mapi_from_map. reflexivity. Qed.

Lemma normalized_wavelengths y window order :
  map Point.wavelength (_normalize (_savitzkyGolay y window order))
  = map Point.wavelength y.
Proof. now rewrite normalize_wavelengths, savitzkyGolay_wavelengths. Qed.

Lemma normalized_length y window order :
  List.length (_normalize (_savitzkyGolay y window order)) = List.length y.
Proof.
  rewrite <- (length_map Point.wavelength), normalized_wavelengths.
  apply length_map.
Qed.

Section Analysis.
Context {rt : Runtime}.

Lemma count_if_positive {A} (f : A -> bool) (l : list A) :
  (0 <? count_if f l)%nat = true -> exists x, In x l /\ f x = true.
Proof.
  unfold count_if. intros H. apply Nat.ltb_lt in H.
  destruct (List.filter f l) as [|x xs] eqn:E; [simpl in H; lia|].
  exists x. apply filter_In. rewrite E. now left.
Qed.

Lemma match_molecule_detected self normData ranges :
  Match.detected (match_molecule self normData ranges) = true ->
  exists w, In w (Match.windows (match_molecule self normData ranges))
            /\ Window.detected w = true.
Proof.
  unfold match_molecule.
  destruct (collect _ ranges) as [|w0 ws]; cbn [Match.detected Match.windows];
    [discriminate|].
  apply count_if_positive.
Qed.

Lemma collect_In {A B} (f : A -> option B) (l : list A) y :
  In y (collect f l) <-> exists x, In x l /\ f x = Some y.
Proof.
  induction l as [|x l IH]; cbn [collect].
  - split; [contradiction | intros (x & [] & _)].
  - destruct (f x) as [z|] eqn:E.
    + cbn [In]. rewrite IH. split.
      * intros [<-|(x' & Hx & Hf)]; [exists x; auto | exists x'; auto].
      * intros (x' & [<-|Hx] & Hf); [left; congruence | right; eauto].
    + rewrite IH. split.
      * intros (x' & Hx & Hf). exists x'. cbn [In]. auto.
      * intros (x' & [<-|Hx] & Hf); [congruence | eauto].
Qed.

(** X25.  The analysis of a non-empty spectrum reports the number of samples
    it was given, one confidence per molecule of the table, in the order of
    the table, and an overall confidence within [[0.05, 0.999]].  Each
    detection it lists is a molecule of the table with its own confidence,
    above [0.2], and at least one window in which it was detected. *)
Theorem analyzeSpectrum_report (self : t) (samples : list Point.t)
  (planet : option Planet.t) :
  samples <> [] ->
  let r := analyzeSpectrum self (Samples samples) planet in
  spectralPoints (features r) = List.length samples
  /\ map fst (moleculeConfidences r) = map fst _moleculeWindows
  /\ 0.05 <= confidence r <= 0.999
  /\ List.Forall
       (fun d =>
          In (Detection.molecule d, Detection.confidence d) (moleculeConfidences r)
          /\ 0.2 < Detection.confidence d
          /\ exists w, In w (Detection.windows d) /\ Window.detected w = true)
       (detectedMolecules r).
Proof.
  intros Hne r. subst r.
  destruct samples as [|s0 samples]; [congruence|]. clear Hne.
  cbn [analyzeSpectrum spectralPoints features moleculeConfidences confidence
       detectedMolecules].
  split; [apply normalized_length|].
  split; [unfold _matchTemplates; rewrite !map_map; reflexivity|].
  split.
  - apply toFixed_within;
      [vm_compute; reflexivity | vm_compute; reflexivity |].
    match goal with |- _ <= Math_min 0.999 (Math_max 0.05 ?x) <= _ =>
      destruct (Math_max_spec 0.05 x) as [[? ->]|[? ->]];
      [destruct (Math_min_spec 0.999 x) as [[? ->]|[? ->]]
      |destruct (Math_min_spec 0.999 0.05) as [[? ->]|[? ->]]]; split; lra
    end.
  - apply List.Forall_forall. intros d Hd.
    apply collect_In in Hd. destruct Hd as (mi & Hmi & Hkeep).
    destruct (Match.detected (snd mi) && Qgt_bool (Match.confidence (snd mi)) 0.2)%bool
      eqn:K; [|discriminate Hkeep].
    injection Hkeep as <-. cbn [Detection.molecule Detection.confidence Detection.windows].
    apply andb_true_iff in K. destruct K as [Kd Kc].
    split; [|split].
    + apply (in_map (fun mi => (fst mi, Match.confidence (snd mi)))) in Hmi. exact Hmi.
    + unfold Qgt_bool in Kc. apply negb_true_iff, Qle_bool_false in Kc. exact Kc.
    + unfold _matchTemplates in Hmi. apply in_map_iff in Hmi.
      destruct Hmi as (mr & <- & _). cbn [snd] in Kd |- *.
      apply match_molecule_detected, Kd.
Qed.

Lemma fromEntries_get_In (pairs : list (string * Q)) key v :
  fromEntries_get pairs key = Some v -> In (key, v) pairs.
Proof.
  induction pairs as [|[k w] rest IH]; cbn [fromEntries_get]; [discriminate|].
  destruct (fromEntries_get rest key) as [v'|].
  - intros [= <-]. right. now apply IH.
  - destruct (String.eqb k key) eqn:E; [|discriminate].
    intros [= <-]. apply String.eqb_eq in E. subst. now left.
Qed.

Lemma has_true_detected (detected : list Detection.t) m :
  has (map (fun d => (toUpperCase (Detection.molecule d), Detection.confidence d))
           detected) m = true ->
  exists d, In d detected
            /\ toUpperCase (Detection.molecule d) = toUpperCase m
            /\ 0.25 < Detection.confidence d.
Proof.
  unfold has.
  destruct (fromEntries_get _ (toUpperCase m)) as [c|] eqn:E; [|discriminate].
  intros H. apply andb_true_iff in H. destruct H as [_ H].
  unfold Qgt_bool in H. apply negb_true_iff, Qle_bool_false in H.
  apply fromEntries_get_In in E. apply in_map_iff in E.
  destruct E as (d & [= Hk Hc] & Hd). exists d. subst c. auto.
Qed.

Lemma table_name_of_upper name m :
  In name (map fst _moleculeWindows) -> In m (map fst _moleculeWindows) ->
  toUpperCase name = toUpperCase m -> name = m.
Proof.
  cbn. intros Hn Hm.
  repeat (destruct Hn as [<-|Hn]); try contradiction;
    repeat (destruct Hm as [<-|Hm]); try contradiction;
    vm_compute; intros E; try reflexivity; discriminate E.
Qed.

Lemma detected_names_in_table (matches : list (string * Match.t)) d :
  In d (collect (fun mi =>
                   if (Match.detected (snd mi)
                       && Qgt_bool (Match.confidence (snd mi)) 0.2)%bool
                   then Some (Detection.mk (fst mi) (Match.confidence (snd mi))
                                           (Match.windows (snd mi)))
                   else None) matches) ->
  In (Detection.molecule d) (map fst matches).
Proof.
  intros Hd. apply collect_In in Hd. destruct Hd as (mi & Hmi & Hk).
  destruct (_ && _)%bool; [|discriminate]. injection Hk as <-.
  cbn [Detection.molecule]. now apply in_map.
Qed.

(** X26.  The level of a non-empty analysis is "High" exactly when O2 and
    CH4 are both among the detections with a confidence above [0.25]. *)
Theorem analyzeSpectrum_high_iff (self : t) (samples : list Point.t)
  (planet : option Planet.t) :
  samples <> [] ->
  let r := analyzeSpectrum self (Samples samples) planet in
  level (biosignaturePotential r) = "High"
  <-> (exists o2 ch4,
         In o2 (detectedMolecules r) /\ Detection.molecule o2 = "O2"
         /\ 0.25 < Detection.confidence o2
         /\ In ch4 (detectedMolecules r) /\ Detection.molecule ch4 = "CH4"
         /\ 0.25 < Detection.confidence ch4).
Proof.
  intros Hne r. subst r.
  destruct samples as [|s0 samples]; [congruence|]. clear Hne.
  cbn [analyzeSpectrum detectedMolecules biosignaturePotential].
  set (normalized := _normalize _).
  set (detected := collect _ _).
  assert (Hnames : map fst (_matchTemplates self normalized) = map fst _moleculeWindows)
    by (unfold _matchTemplates; rewrite map_map; reflexivity).
  assert (Hback : forall m, In m (map fst _moleculeWindows) ->
            has (map (fun d => (toUpperCase (Detection.molecule d),
                                Detection.confidence d)) detected) m = true ->
            exists d, In d detected /\ Detection.molecule d = m
                      /\ 0.25 < Detection.confidence d).
  { intros m Hm Hh. destruct (has_true_detected detected m Hh) as (d & Hd & Hu & Hc).
    exists d. split; [exact Hd|]. split; [|exact Hc].
    apply table_name_of_upper; [|exact Hm|exact Hu].
    rewrite <- Hnames. apply detected_names_in_table. exact Hd. }
  cbv beta zeta delta [biosignature].
  fold detected.
  set (present := map _ detected) in *.
  split.
  - intros Hlevel.
    destruct (has present "O2") eqn:H1; destruct (has present "CH4") eqn:H2;
      cbn [andb] in Hlevel.
    + destruct (Hback "O2" ltac:(vm_compute; tauto) H1) as (o2 & ? & ? & ?).
      destruct (Hback "CH4" ltac:(vm_compute; tauto) H2) as (ch4 & ? & ? & ?).
      exists o2, ch4. auto 10.
    + exfalso. revert Hlevel.
      repeat match goal with |- context [if ?b then _ else _] => destruct b end;
        cbn [level]; discriminate.
    + exfalso. revert Hlevel.
      repeat match goal with |- context [if ?b then _ else _] => destruct b end;
        cbn [level]; discriminate.
    + exfalso. revert Hlevel.
      repeat match goal with |- context [if ?b then _ else _] => destruct b end;
        cbn [level]; discriminate.
  - intros (o2 & ch4 & Ho & Hno & Hco & Hc & Hnc & Hcc).
    pose proof (has_detected self normalized o2 Ho Hco) as H1.
    pose proof (has_detected self normalized ch4 Hc Hcc) as H2.
    cbv zeta in H1, H2. rewrite Hno in H1. rewrite Hnc in H2.
    fold detected in H1, H2. fold present in H1, H2.
    rewrite H1, H2. reflexivity.
Qed.

End Analysis.
(** The sample spectrum of [Examples], analysed with the reference runtime *)
Lemma analyzeSpectrum_report_witness :
  let r := analyzeSpectrum (rt := Reference.runtime) default
             (Samples Examples.o2_ch4_spectrum) None in
  spectralPoints (features r) = List.length Examples.o2_ch4_spectrum
  /\ map fst (moleculeConfidences r) = map fst _moleculeWindows
  /\ 0.05 <= confidence r <= 0.999
  /\ List.Forall
       (fun d =>
          In (Detection.molecule d, Detection.confidence d) (moleculeConfidences r)
          /\ 0.2 < Detection.confidence d
          /\ exists w, In w (Detection.windows d) /\ Window.detected w = true)
       (detectedMolecules r).
Proof.
  apply (analyzeSpectrum_report (rt := Reference.runtime) default
           Examples.o2_ch4_spectrum None).
  discriminate.
Defined.

Lemma analyzeSpectrum_high_iff_witness :
  let r := analyzeSpectrum (rt := Reference.runtime) default
             (Samples Examples.o2_ch4_spectrum) None in
  level (biosignaturePotential r) = "High"
  <-> (exists o2 ch4,
         In o2 (detectedMolecules r) /\ Detection.molecule o2 = "O2"
         /\ 0.25 < Detection.confidence o2
         /\ In ch4 (detectedMolecules r) /\ Detection.molecule ch4 = "CH4"
         /\ 0.25 < Detection.confidence ch4).
Proof.
  apply (analyzeSpectrum_high_iff (rt := Reference.runtime) default
           Examples.o2_ch4_spectrum None).
  discriminate.
Defined.

(** *** Molecules without samples, and the follow-ups *)

Lemma filter_none {A} (f : A -> bool) (l : list A) :
  List.Forall (fun x => f x = false) l -> List.filter f l = [].
Proof.
  induction 1 as [|x l Hx _ IH]; [reflexivity|].
  cbn [List.filter]. rewrite Hx. exact IH.
Qed.

Lemma table_functional (mol : string) (r1 r2 : list (Q * Q)) :
  In (mol, r1) _moleculeWindows -> In (mol, r2) _moleculeWindows -> r1 = r2.
Proof.
  cbn. intros H1 H2.
  repeat (destruct H1 as [H1|H1]; [injection H1 as <- <-|]); try contradiction;
    repeat (destruct H2 as [H2|H2];
            [try discriminate H2; injection H2 as <-; reflexivity|]);
    contradiction.
Qed.

Section Unobserved.
Context {rt : Runtime}.

(** X27.  A molecule of the table none of whose windows holds the
    wavelength of a sample gets the confidence [0] in the analysis of a
    non-empty spectrum, and is not among the detections. *)
Theorem analyzeSpectrum_unobserved_molecule (self : t) (samples : list Point.t)
  (planet : option Planet.t) (mol : string) (ranges : list (Q * Q)) :
  samples <> [] ->
  In (mol, ranges) _moleculeWindows ->
  List.Forall
    (fun p => List.Forall
       (fun r => (Qle_bool (fst r) (Point.wavelength p)
                  && Qle_bool (Point.wavelength p) (snd r))%bool = false) ranges)
    samples ->
  let r := analyzeSpectrum self (Samples samples) planet in
  In (mol, 0) (moleculeConfidences r)
  /\ List.Forall (fun d => Detection.molecule d <> mol) (detectedMolecules r).
Proof.
  intros Hne Hin Hout r. subst r.
  destruct samples as [|s0 samples]; [congruence|]. clear Hne.
  cbn [analyzeSpectrum moleculeConfidences detectedMolecules].
  set (normalized := _normalize _).
  assert (Hw : map Point.wavelength normalized = map Point.wavelength (s0 :: samples))
    by apply normalized_wavelengths.
  assert (Hm : match_molecule self normalized ranges = Match.mk false 0 []).
  { unfold match_molecule.
    assert (E : collect (fun r => _detectInRange self normalized (fst r) (snd r)) ranges
                = []).
    { assert (Hall : List.Forall
                       (fun r => _detectInRange self normalized (fst r) (snd r) = None)
                       ranges).
      { apply List.Forall_forall. intros rg Hrg. unfold _detectInRange.
        rewrite filter_none; [reflexivity|].
        apply List.Forall_forall. intros p Hp.
        apply (in_map Point.wavelength) in Hp. rewrite Hw in Hp.
        apply in_map_iff in Hp. destruct Hp as (q & Hq & Hqin). rewrite <- Hq.
        rewrite List.Forall_forall in Hout. specialize (Hout q Hqin).
        rewrite List.Forall_forall in Hout. exact (Hout rg Hrg). }
      clear - Hall. induction Hall as [|rg rs Hrg _ IH]; [reflexivity|].
      cbn [collect]. rewrite Hrg. exact IH. }
    rewrite E. reflexivity. }
  assert (Hmatch : In (mol, Match.mk false 0 []) (_matchTemplates self normalized)).
  { unfold _matchTemplates. rewrite <- Hm.
    apply (in_map (fun mr => (fst mr, match_molecule self normalized (snd mr)))
                  _ (mol, ranges)).
    exact Hin. }
  split.
  - apply (in_map (fun mi => (fst mi, Match.confidence (snd mi))) _ _ Hmatch).
  - apply List.Forall_forall. intros d Hd E.
    apply collect_In in Hd. destruct Hd as (mi & Hmi & Hkeep).
    destruct (Match.detected (snd mi) && Qgt_bool (Match.confidence (snd mi)) 0.2)%bool
      eqn:K; [|discriminate Hkeep].
    injection Hkeep as <-. cbn [Detection.molecule] in E.
    unfold _matchTemplates in Hmi. apply in_map_iff in Hmi.
    destruct Hmi as ([m rs] & <- & Hmr). cbn [fst snd] in *. subst m.
    rewrite (table_functional mol rs ranges Hmr Hin), Hm in K.
    discriminate K.
Qed.

(** X28.  What [suggestFollowUps] recommends, given the average SNR and the
    level: always the reference stars; longer exposure exactly below an
    average SNR of 10; the immediate follow-up exactly at level "High"; the
    space-based instruments exactly for a planet whose distance is truthy
    and coerces to a number above 500. *)
Theorem suggestFollowUps_rules (avgSnr : Q) (lvl : string)
  (planet : option Planet.t) :
  let recs := suggestFollowUps (Some (avgSnr, lvl)) planet in
  In "Observe reference stars to remove telluric features." recs
  /\ (In "Increase exposure time to reach avg S/N > 15 or co-add more transits." recs
      <-> avgSnr < 10)
  /\ (In "Immediate multi-epoch high-resolution follow-up." recs <-> lvl = "High")
  /\ (In "Use space-based instruments (JWST) for highest sensitivity." recs
      <-> exists p d, planet = Some p /\ truthy (Planet.distance p) = true
                      /\ ToNumber (Planet.distance p) = Some d /\ 500 < d).
Proof.
  intros recs. subst recs. unfold suggestFollowUps.
  assert (Hsnr : Qlt_bool (num_or avgSnr 0) 10 = true <-> avgSnr < 10).
  { pose proof (num_or_zero avgSnr) as E.
    unfold Qlt_bool. rewrite negb_true_iff. split.
    - intros H. apply Qle_bool_false in H. lra.
    - intros H. destruct (Qle_bool 10 (num_or avgSnr 0)) eqn:F; [|reflexivity].
      apply Qle_bool_iff in F. lra. }
  assert (Hlvl : String.eqb lvl "High" = true <-> lvl = "High") by apply String.eqb_eq.
  assert (Hfar : forall p,
            (truthy (Planet.distance p)
             && match ToNumber (Planet.distance p) with
                | Some d => Qgt_bool d 500
                | None => false
                end)%bool = true
            <-> exists d, truthy (Planet.distance p) = true
                          /\ ToNumber (Planet.distance p) = Some d /\ 500 < d).
  { intros p. rewrite andb_true_iff. split.
    - intros [Ht Hd]. destruct (ToNumber (Planet.distance p)) as [d|]; [|discriminate].
      exists d. unfold Qgt_bool in Hd. apply negb_true_iff, Qle_bool_false in Hd. auto.
    - intros (d & Ht & -> & Hd). split; [exact Ht|].
      unfold Qgt_bool. apply negb_true_iff.
      destruct (Qle_bool d 500) eqn:F; [|reflexivity].
      apply Qle_bool_iff in F. lra. }
  set (far := match planet with
              | Some p =>
                  if (truthy (Planet.distance p)
                      && match ToNumber (Planet.distance p) with
                         | Some d => Qgt_bool d 500
                         | None => false
                         end)%bool
                  then ["Use space-based instruments (JWST) for highest sensitivity."]
                  else []
              | None => []
              end).
  assert (Hfar' : (far = ["Use space-based instruments (JWST) for highest sensitivity."]
                   /\ exists p d, planet = Some p /\ truthy (Planet.distance p) = true
                                  /\ ToNumber (Planet.distance p) = Some d /\ 500 < d)
                  \/ (far = []
                      /\ ~ exists p d, planet = Some p /\ truthy (Planet.distance p) = true
                                       /\ ToNumber (Planet.distance p) = Some d /\ 500 < d)).
  { unfold far. destruct planet as [p|].
    - destruct (_ && _)%bool eqn:F.
      + left. split; [reflexivity|]. apply Hfar in F. destruct F as (d & ?).
        exists p, d. auto.
      + right. split; [reflexivity|]. intros (p' & d & [= <-] & H).
        assert (G : (truthy (Planet.distance p)
                     && match ToNumber (Planet.distance p) with
                        | Some d => Qgt_bool d 500
                        | None => false
                        end)%bool = true) by (apply Hfar; exists d; exact H).
        congruence.
    - right. split; [reflexivity|]. intros (p' & d & [=] & _). }
  clearbody far.
  destruct (Qlt_bool (num_or avgSnr 0) 10) eqn:E1;
    destruct (String.eqb lvl "High") eqn:E2;
    destruct Hfar' as [[-> Hex]|[-> Hno]]; cbn [app In];
    (split; [tauto|]); (split; [|split]); split; intros H;
    try tauto;
    try (exfalso; repeat (destruct H as [H|H]; try discriminate H); tauto);
    try (apply Hsnr; reflexivity);
    try (apply Hlvl; reflexivity);
    try (exfalso; apply Hsnr in H; discriminate H);
    try (exfalso; apply Hlvl in H; discriminate H).
Qed.

End Unobserved.

(** Five samples between 500 and 691: none in a window of SO2 *)
Lemma analyzeSpectrum_unobserved_molecule_witness :
  let r := analyzeSpectrum (rt := Reference.runtime) default
             (Samples Examples.o2_ch4_spectrum) None in
  In ("SO2", 0) (moleculeConfidences r)
  /\ List.Forall (fun d => Detection.molecule d <> "SO2") (detectedMolecules r).
Proof.
  apply (analyzeSpectrum_unobserved_molecule (rt := Reference.runtime) default
           Examples.o2_ch4_spectrum None "SO2" [(400, 430); (280, 320)]).
  - discriminate.
  - cbn. tauto.
  - repeat constructor.
Defined.

End SpectroscopyMore.
